(** * mlpack: dataset partitioning, the all-categorical split and the SSE loss

    A shallow embedding of

    - [core/data/split_data.hpp]: [SplitHelper], [StratifiedSplit], [Split];
    - [methods/decision_tree/all_categorical_split_impl.hpp]:
      [StoreSplitInfo], [SplitIfBetter], [NumChildren], [CalculateDirection];
    - [methods/xgboost/loss_functions/sse_loss.hpp]: [SSELoss].

    Conventions of the embedding.

    - A matrix is the list of its columns; [n_cols] is the length of the list.
      A vector ([arma::Row], [arma::Col]) is the list of its elements; the
      labels of [StratifiedSplit] come with their type, a row, a column or
      another Armadillo type, because the code sizes the label outputs
      with [set_size(inputLabel.n_rows, size)], which Armadillo accepts of
      a row and refuses of a column.
    - [size_t] and [arma::uword] are 64-bit: sizes are integers of [Z] and a
      subtraction or addition that can leave the range is reduced modulo
      [2^64].
    - An output container is a list of [option]s: [None] is an element that
      [set_size] (or a size constructor) allocated and that the code has not
      written; what it holds is not determined by the call.
    - Armadillo is taken with its bounds and size checks compiled in (its
      default).  A failed check throws [std::logic_error]; an access through
      the unchecked [operator[]] outside the container, or a conversion of a
      [double] that does not fit into [size_t], is undefined behaviour.  Both
      end the call and are results of the model ([Err]), which also carries
      the state the output containers are left in.
    - A [double] is an IEEE 754 binary64 value ([spec_float] with precision
      53 and maximal exponent 1024) and its operations round to the nearest
      value, ties to even.  An integer operand of a [double] operation is
      converted first, and the [double] assigned to a [size_t] is
      truncated. *)

From Stdlib Require Import ZArith Lia Permutation.
From Stdlib Require Import Floats.SpecFloat.
From stdpp Require Import base list.

Local Open Scope nat_scope.

(** ** Outcomes *)

Inductive exn : Type :=
| logic_error         (* a failed Armadillo bounds or size check *)
| runtime_error       (* thrown by the code itself *)
| undefined_behaviour (* unchecked access outside a container, bad cast *).

(** The result of a call that works on a state [St] (the output containers
    and the locals): the final state, or the exception together with the
    state at the time it was raised. *)
Inductive res (St : Type) : Type :=
| Ok (s : St)
| Err (e : exn) (s : St).
Arguments Ok {St} s.
Arguments Err {St} e s.

Definition is_Ok {St} (r : res St) : Prop :=
  match r with Ok _ => True | Err _ _ => False end.

Definition bind {St} (r : res St) (k : St -> res St) : res St :=
  match r with
  | Ok s => k s
  | Err e s => Err e s
  end.

(** [try m e s k]: read through [m]; when the read fails raise [e] in
    state [s]. *)
Definition try {X St} (m : option X) (e : exn) (s : St) (k : X -> res St) : res St :=
  match m with
  | Some x => k x
  | None => Err e s
  end.

(** [phase r s k]: run [r], which works on locals only; an exception in it
    leaves the state [s] that the caller sees. *)
Definition phase {L St} (r : res L) (s : St) (k : L -> res St) : res St :=
  match r with
  | Ok l => k l
  | Err e _ => Err e s
  end.

Definition res_map {St T} (f : St -> T) (r : res St) : res T :=
  match r with
  | Ok s => Ok (f s)
  | Err e s => Err e (f s)
  end.

Notation "x <- m 'or' e 'in' s ;; k" := (try m e s (fun x => k))
  (at level 100, m at next level, e at next level, s at next level,
   right associativity).
Notation "s' <-- r ;; k" := (bind r (fun s' => k))
  (at level 100, r at next level, right associativity).
Notation "x <~ r 'in' s ;; k" := (phase r s (fun x => k))
  (at level 100, r at next level, s at next level, right associativity).

(** [for (size_t i = lo; i < lo + count; ++i) body] *)
Fixpoint for_loop {St} (i count : nat) (body : nat -> St -> res St) (s : St) : res St :=
  match count with
  | O => Ok s
  | S count' =>
      match body i s with
      | Ok s' => for_loop (S i) count' body s'
      | Err e s' => Err e s'
      end
  end.

(** [for (auto x : xs) body] *)
Fixpoint for_each {X St} (xs : list X) (body : X -> St -> res St) (s : St) : res St :=
  match xs with
  | [] => Ok s
  | x :: xs' =>
      match body x s with
      | Ok s' => for_each xs' body s'
      | Err e s' => Err e s'
      end
  end.

(** ** Machine integers and doubles *)

Definition size_t_modulus : Z := 2 ^ 64.

Definition size_t_wrap (z : Z) : Z := z mod size_t_modulus.

(** [double] is IEEE 754 binary64. *)
Definition double : Type := spec_float.

Definition b64_prec : Z := 53.
Definition b64_emax : Z := 1024.

Definition dadd : double -> double -> double := SFadd b64_prec b64_emax.
Definition dsub : double -> double -> double := SFsub b64_prec b64_emax.
Definition dmul : double -> double -> double := SFmul b64_prec b64_emax.
Definition ddiv : double -> double -> double := SFdiv b64_prec b64_emax.
Definition dopp : double -> double := SFopp.

(** [x < y] and [x > y] *)
Definition dlt (x y : double) : bool := SFltb x y.
Definition dgt (x y : double) : bool := SFltb y x.

(** [0.0] and [1.0] *)
Definition double_zero : double := S754_zero false.
Definition double_one : double := S754_finite false 4503599627370496 (-52).

(** [double(n)] for an unsigned integer [n], rounded to nearest even: the
    conversion of a [size_t] or [arma::uword] operand of a [double]
    operation. *)
Definition double_of_size_t (n : Z) : double :=
  binary_normalize b64_prec b64_emax n 0 false.

(** [(size_t) x]: the value truncated toward zero; undefined when that is
    not a value of [size_t] (negative, too large, infinite or not a
    number). *)
Definition size_t_of_double (x : double) : option Z :=
  match x with
  | S754_zero _ => Some 0%Z
  | S754_finite s m e =>
      let t := Z.shiftl (Zpos m) e in
      if s then (if (t =? 0)%Z then Some 0%Z else None)
      else if (t <? size_t_modulus)%Z then Some t else None
  | _ => None
  end.

(** The largest integer that is not above a finite [x]. *)
Definition Zfloor (x : double) : Z :=
  match x with
  | S754_finite s m e => Z.shiftl (cond_Zopp s (Zpos m)) e
  | _ => 0%Z
  end.

(** [floor(x)] of <cmath>: a zero, an infinity and a NaN are returned as
    they are, and the floor of a finite value has its sign. *)
Definition floor (x : double) : double :=
  match x with
  | S754_finite s _ _ => binary_normalize b64_prec b64_emax (Zfloor x) 0 s
  | _ => x
  end.

(** The literals [0.3], [0.5] and [0.7]: the doubles nearest to them,
    [0x1.3333333333333p-2], [0x1p-1] and [0x1.6666666666666p-1]. *)
Definition double_0_3 : double := S754_finite false 5404319552844595 (-54).
Definition double_0_5 : double := S754_finite false 4503599627370496 (-53).
Definition double_0_7 : double := S754_finite false 6305039478318694 (-53).

(** ** Armadillo containers *)

Section Containers.
Context {X : Type}.

(** [m.n_cols], [v.n_elem] *)
Definition n_cols (m : list X) : Z := Z.of_nat (length m).

(** [m.col(j)] and [v(j)] as a read: bounds-checked. *)
Definition col (m : list X) (j : nat) : option X := m !! j.

(** [m.col(i) = c]: bounds-checked write. *)
Definition set_col (m : list X) (i : nat) (c : X) : option (list X) :=
  if decide (i < length m) then Some (<[i := c]> m) else None.

(** [m.cols(a, b)]: the columns [a..b]; the check of Armadillo is
    [(a > b) || (b >= n_cols)]. *)
Definition cols (m : list X) (a b : Z) : option (list X) :=
  if (a >? b)%Z || (b >=? n_cols m)%Z then None
  else Some (take (Z.to_nat (b - a + 1)) (drop (Z.to_nat a) m)).

(** [v[i]] as a read: no check, undefined outside the container. *)
Definition at_unchecked (v : list X) (i : nat) : option X := v !! i.

(** [v[i] = x]: no check, undefined outside the container. *)
Definition set_unchecked (v : list X) (i : nat) (x : X) : option (list X) :=
  if decide (i < length v) then Some (<[i := x]> v) else None.

(** [m.set_size(n_rows, n)]: [n] columns, none of them written. *)
Definition set_size (n : Z) : list (option X) := replicate (Z.to_nat n) None.

(** A container all of whose elements have been written. *)
Definition filled (xs : list X) : list (option X) := Some <$> xs.
End Containers.

(** An Armadillo vector type is [arma::Col] or [arma::Row]. *)
Inductive VecType : Type := is_Col | is_Row.

(** [v.n_rows] of a vector of type [t]: a row has one row and a column as
    many as it has elements. *)
Definition vec_n_rows {X} (t : VecType) (v : list X) : Z :=
  match t with
  | is_Col => n_cols v
  | is_Row => 1
  end.

(** [v.set_size(in_rows, in_cols)] on a vector of type [t]: Armadillo
    refuses a column another number of columns than 1 and a row another
    number of rows than 1 (a request for no row and no column apart); the
    vector then has [in_rows * in_cols] elements, none of them written. *)
Definition vec_set_size {X} (t : VecType) (in_rows in_cols : Z) : option (list (option X)) :=
  match t with
  | is_Col => if (in_cols =? 1)%Z || ((in_rows =? 0)%Z && (in_cols =? 0)%Z)
              then Some (set_size in_rows) else None
  | is_Row => if (in_rows =? 1)%Z || ((in_rows =? 0)%Z && (in_cols =? 0)%Z)
              then Some (set_size in_cols) else None
  end.

(** The type of the labels of [StratifiedSplit]: a vector type, or another
    Armadillo type ([arma::Mat], [arma::Cube], ...), for which [typeCheck]
    is false. *)
Inductive LabelsType : Type :=
| labels_of (t : VecType)
| labels_other.

(** [v.zeros(n)] *)
Definition zeros (n : Z) : list Z := replicate (Z.to_nat n) 0%Z.

(** [v.max()]: Armadillo refuses an object without elements. *)
Definition arma_max (v : list nat) : option nat :=
  match v with
  | [] => None
  | x :: v' => Some (foldl Nat.max x v')
  end.

(** [arma::linspace<arma::uvec>(0, n - 1, n)] *)
Definition linspace (n : nat) : list nat := seq 0 n.

(** ** The output containers *)

Record Outputs (A B : Type) : Type := mkOutputs {
  trainData : list (option A);
  testData : list (option A);
  trainLabel : list (option B);
  testLabel : list (option B)
}.
Arguments mkOutputs {A B}.
Arguments trainData {A B}.
Arguments testData {A B}.
Arguments trainLabel {A B}.
Arguments testLabel {A B}.

(** Containers as a caller declares them ([arma::mat trainData;]). *)
Definition fresh {A B} : Outputs A B := mkOutputs [] [] [] [].

(** The locals of the assignment loop of [StratifiedSplit], with the
    output containers. *)
Record Strat (A : Type) : Type := mkStrat {
  s_out : Outputs A nat;
  trainIdx : nat;
  testIdx : nat;
  testLabelCounts : list Z
}.
Arguments mkStrat {A}.
Arguments s_out {A}.
Arguments trainIdx {A}.
Arguments testIdx {A}.
Arguments testLabelCounts {A}.

Section Partitioner.
(** [arma::shuffle]: driven by the random generator of the library. *)
Variable shuffle : list nat -> list nat.

Context {A B : Type}.

(** [SplitHelper(input, inputLabel, trainData, testData, trainLabel,
    testLabel, testRatio, shuffleData)]; [out] is the state of the four
    output containers at the call. *)
Definition SplitHelper (input : list A) (inputLabel : list B)
    (out : Outputs A B) (testRatio : double) (shuffleData : bool) : res (Outputs A B) :=
  testSize <- size_t_of_double (dmul (double_of_size_t (n_cols input)) testRatio)
    or undefined_behaviour in out ;;
  let trainSize := size_t_wrap (n_cols input - testSize) in
  let out := mkOutputs (set_size trainSize) (set_size testSize)
                       (set_size trainSize) (set_size testSize) in
  if shuffleData then
    let order := shuffle (linspace (length input)) in
    out <-- (if (trainSize >? 0)%Z then
               for_loop 0 (Z.to_nat trainSize) (fun i out =>
                 j <- col order i or logic_error in out ;;
                 c <- col input j or logic_error in out ;;
                 td <- set_col (trainData out) i (Some c) or logic_error in out ;;
                 let out := mkOutputs td (testData out) (trainLabel out) (testLabel out) in
                 l <- col inputLabel j or logic_error in out ;;
                 tl <- set_col (trainLabel out) i (Some l) or logic_error in out ;;
                 Ok (mkOutputs (trainData out) (testData out) tl (testLabel out))) out
             else Ok out) ;;
    if (trainSize <? n_cols input)%Z then
      for_loop (Z.to_nat trainSize) (length input - Z.to_nat trainSize) (fun i out =>
        j <- col order i or logic_error in out ;;
        c <- col input j or logic_error in out ;;
        td <- set_col (testData out) (i - Z.to_nat trainSize) (Some c)
          or logic_error in out ;;
        let out := mkOutputs (trainData out) td (trainLabel out) (testLabel out) in
        l <- col inputLabel j or logic_error in out ;;
        tl <- set_col (testLabel out) (i - Z.to_nat trainSize) (Some l)
          or logic_error in out ;;
        Ok (mkOutputs (trainData out) (testData out) (trainLabel out) tl)) out
    else Ok out
  else
    out <-- (if (trainSize >? 0)%Z then
               td <- cols input 0 (trainSize - 1) or logic_error in out ;;
               let out := mkOutputs (filled td) (testData out) (trainLabel out) (testLabel out) in
               tl <- cols inputLabel 0 (trainSize - 1) or logic_error in out ;;
               Ok (mkOutputs (trainData out) (testData out) (filled tl) (testLabel out))
             else Ok out) ;;
    if (trainSize <? n_cols input)%Z then
      td <- cols input trainSize (n_cols input - 1) or logic_error in out ;;
      let out := mkOutputs (trainData out) (filled td) (trainLabel out) (testLabel out) in
      tl <- cols inputLabel trainSize (size_t_wrap (n_cols inputLabel - 1))
        or logic_error in out ;;
      Ok (mkOutputs (trainData out) (testData out) (trainLabel out) (filled tl))
    else Ok out.

(** The overload of [SplitHelper] without labels; the label containers of
    [out] are not among its parameters and stay as they are. *)
Definition SplitHelper_nolabel (input : list A) (out : Outputs A B)
    (testRatio : double) (shuffleData : bool) : res (Outputs A B) :=
  testSize <- size_t_of_double (dmul (double_of_size_t (n_cols input)) testRatio)
    or undefined_behaviour in out ;;
  let trainSize := size_t_wrap (n_cols input - testSize) in
  let out := mkOutputs (set_size trainSize) (set_size testSize)
                       (trainLabel out) (testLabel out) in
  if shuffleData then
    let order := shuffle (linspace (length input)) in
    out <-- (if (trainSize >? 0)%Z then
               for_loop 0 (Z.to_nat trainSize) (fun i out =>
                 j <- col order i or logic_error in out ;;
                 c <- col input j or logic_error in out ;;
                 td <- set_col (trainData out) i (Some c) or logic_error in out ;;
                 Ok (mkOutputs td (testData out) (trainLabel out) (testLabel out))) out
             else Ok out) ;;
    if (trainSize <? n_cols input)%Z then
      for_loop (Z.to_nat trainSize) (length input - Z.to_nat trainSize) (fun i out =>
        j <- col order i or logic_error in out ;;
        c <- col input j or logic_error in out ;;
        td <- set_col (testData out) (i - Z.to_nat trainSize) (Some c)
          or logic_error in out ;;
        Ok (mkOutputs (trainData out) td (trainLabel out) (testLabel out))) out
    else Ok out
  else
    out <-- (if (trainSize >? 0)%Z then
               td <- cols input 0 (trainSize - 1) or logic_error in out ;;
               Ok (mkOutputs (filled td) (testData out) (trainLabel out) (testLabel out))
             else Ok out) ;;
    if (trainSize <? n_cols input)%Z then
      td <- cols input trainSize (n_cols input - 1) or logic_error in out ;;
      Ok (mkOutputs (trainData out) (filled td) (trainLabel out) (testLabel out))
    else Ok out.

(** The branch of the assignment loop of [StratifiedSplit] for the sample
    of index [i], the same code in both modes. *)
Definition assign (input : list A) (inputLabel : list nat) (labelCounts : list Z)
    (testRatio : double) (i : nat) (st : Strat A) : res (Strat A) :=
  label <- at_unchecked inputLabel i or undefined_behaviour in st ;;
  tlc <- at_unchecked (testLabelCounts st) label or undefined_behaviour in st ;;
  lc <- at_unchecked labelCounts label or undefined_behaviour in st ;;
  if dlt (double_of_size_t tlc) (floor (dmul (double_of_size_t lc) testRatio)) then
    let st := mkStrat (s_out st) (trainIdx st) (testIdx st)
                      (<[label := (tlc + 1)%Z]> (testLabelCounts st)) in
    c <- col input i or logic_error in st ;;
    td <- set_col (testData (s_out st)) (testIdx st) (Some c) or logic_error in st ;;
    let o := s_out st in
    let st := mkStrat (mkOutputs (trainData o) td (trainLabel o) (testLabel o))
                      (trainIdx st) (testIdx st) (testLabelCounts st) in
    tl <- set_unchecked (testLabel (s_out st)) (testIdx st) (Some label)
      or undefined_behaviour in st ;;
    let o := s_out st in
    Ok (mkStrat (mkOutputs (trainData o) (testData o) (trainLabel o) tl)
                (trainIdx st) (testIdx st + 1) (testLabelCounts st))
  else
    c <- col input i or logic_error in st ;;
    td <- set_col (trainData (s_out st)) (trainIdx st) (Some c) or logic_error in st ;;
    let o := s_out st in
    let st := mkStrat (mkOutputs td (testData o) (trainLabel o) (testLabel o))
                      (trainIdx st) (testIdx st) (testLabelCounts st) in
    tl <- set_unchecked (trainLabel (s_out st)) (trainIdx st) (Some label)
      or undefined_behaviour in st ;;
    let o := s_out st in
    Ok (mkStrat (mkOutputs (trainData o) (testData o) tl (testLabel o))
                (trainIdx st + 1) (testIdx st) (testLabelCounts st)).

(** [StratifiedSplit], line 154, at the labels type [t]; the elements of
    the labels are of type [size_t].  A type that is not a vector type
    fails [typeCheck]; for a vector type the label outputs are sized
    [set_size(inputLabel.n_rows, trainSize)] like the data outputs, which
    Armadillo refuses a column vector unless the size is 1. *)
Definition StratifiedSplit (t : LabelsType) (input : list A) (inputLabel : list nat)
    (out : Outputs A nat) (testRatio : double) (shuffleData : bool) : res (Outputs A nat) :=
  match t with
  | labels_other => Err runtime_error out
  | labels_of t =>
  maxLabel <- arma_max inputLabel or logic_error in out ;;
  let labelCounts := zeros (size_t_wrap (Z.of_nat maxLabel + 1)) in
  let testLabelCounts := zeros (size_t_wrap (Z.of_nat maxLabel + 1)) in
  labelCounts <~ for_each inputLabel (fun label labelCounts =>
      n <- at_unchecked labelCounts label or undefined_behaviour in labelCounts ;;
      Ok (<[label := (n + 1)%Z]> labelCounts)) labelCounts in out ;;
  sizes <~ for_each labelCounts (fun labelCount '(trainSize, testSize) =>
      let sizes := (trainSize, testSize) in
      testSize <- size_t_of_double
          (dadd (double_of_size_t testSize)
                (floor (dmul (double_of_size_t labelCount) testRatio)))
        or undefined_behaviour in sizes ;;
      let sizes := (trainSize, testSize) in
      trainSize <- size_t_of_double
          (dadd (double_of_size_t trainSize)
                (dsub (double_of_size_t labelCount)
                      (floor (dmul (double_of_size_t labelCount) testRatio))))
        or undefined_behaviour in sizes ;;
      Ok (trainSize, testSize)) (0%Z, 0%Z) in out ;;
  let '(trainSize, testSize) := sizes in
  let out := mkOutputs (set_size trainSize) (set_size testSize)
                       (trainLabel out) (testLabel out) in
  tl <- vec_set_size t (vec_n_rows t inputLabel) trainSize or logic_error in out ;;
  let out := mkOutputs (trainData out) (testData out) tl (testLabel out) in
  tl <- vec_set_size t (vec_n_rows t inputLabel) testSize or logic_error in out ;;
  let out := mkOutputs (trainData out) (testData out) (trainLabel out) tl in
  let st := mkStrat out 0 0 testLabelCounts in
  if shuffleData then
    let order := shuffle (linspace (length input)) in
    res_map s_out (for_each order (assign input inputLabel labelCounts testRatio) st)
  else
    res_map s_out (for_loop 0 (length input)
                     (assign input inputLabel labelCounts testRatio) st)
  end.
End Partitioner.

Section Split.
Variable shuffle : list nat -> list nat.
Context {A : Type}.

(** [Split(input, inputLabel, trainData, testData, trainLabel, testLabel,
    testRatio, shuffleData)] *)
Definition Split {B} (input : list A) (inputLabel : list B) (out : Outputs A B)
    (testRatio : double) (shuffleData : bool) : res (Outputs A B) :=
  SplitHelper shuffle input inputLabel out testRatio shuffleData.

(** [Split(input, trainData, testData, testRatio, shuffleData)] *)
Definition Split_nolabel {B} (input : list A) (out : Outputs A B)
    (testRatio : double) (shuffleData : bool) : res (Outputs A B) :=
  SplitHelper_nolabel shuffle input out testRatio shuffleData.

(** [Split(input, inputLabel, testRatio, shuffleData, stratifyData)], the
    overload that returns a tuple, at [LabelsType = arma::Row<size_t>]. *)
Definition Split_tuple (input : list A) (inputLabel : list nat)
    (testRatio : double) (shuffleData stratifyData : bool) : res (Outputs A nat) :=
  if stratifyData then
    StratifiedSplit shuffle (labels_of is_Row) input inputLabel fresh testRatio shuffleData
  else
    Split input inputLabel fresh testRatio shuffleData.

(** [Split(input, testRatio, shuffleData)], returning a pair. *)
Definition Split_nolabel_tuple (input : list A)
    (testRatio : double) (shuffleData : bool) : res (Outputs A unit) :=
  Split_nolabel input fresh testRatio shuffleData.
End Split.

(** [Split(input, inputLabel, trainData, trainLabel, testData, testLabel,
    testRatio, shuffleData)], the overload for [arma::field] of lines
    449-461.  The state of the call is that of its four reference
    parameters, in their order. *)
Definition Split_field {A B} (shuffle : list nat -> list nat)
    (input : list A) (inputLabel : list B)
    (trainData' : list (option A)) (trainLabel' : list (option B))
    (testData' : list (option A)) (testLabel' : list (option B))
    (testRatio : double) (shuffleData : bool)
    : res (list (option A) * list (option B) * list (option A) * list (option B)) :=
  res_map (fun o => (trainData o, trainLabel o, testData o, testLabel o))
    (SplitHelper shuffle input inputLabel
       (mkOutputs trainData' testData' trainLabel' testLabel') testRatio shuffleData).

(** [Split(input, inputLabel, testRatio, shuffleData)] for [arma::field],
    lines 536-553: the tuple is [(trainData, testData, trainLabel,
    testLabel)]. *)
Definition Split_field_tuple {A B} (shuffle : list nat -> list nat)
    (input : list A) (inputLabel : list B) (testRatio : double) (shuffleData : bool)
    : res (Outputs A B) :=
  res_map (fun '(trainData', trainLabel', testData', testLabel') =>
             mkOutputs trainData' testData' trainLabel' testLabel')
    (Split_field shuffle input inputLabel [] [] [] [] testRatio shuffleData).

(** ** Constants of the split evaluator *)

(** [DBL_MAX] of <cfloat>: [(2^53 - 1) * 2^971]. *)
Definition DBL_MAX : double := S754_finite false 9007199254740991 971.

(** The literal [1e-7]: the double nearest to it,
    [0x1.ad7f29abcaf48p-24]. *)
Definition epsilon : double := S754_finite false 7555786372591432 (-76).

(** ** [AllCategoricalSplit] *)

(** [SplitInfoType] is [double] (regression) or [arma::vec]
    (classification). *)
Inductive SplitInfoType : Type :=
| info_double (x : double)
| info_vec (v : list double).

(** The two overloads of [StoreSplitInfo]. *)
Definition StoreSplitInfo (splitInfo : SplitInfoType) (payload : double) : SplitInfoType :=
  match splitInfo with
  | info_double _ => info_double payload
  | info_vec _ => info_vec [payload]
  end.

(** [arma::min(v)]: Armadillo refuses an object without elements. *)
Definition arma_min (v : list Z) : option Z :=
  match v with
  | [] => None
  | x :: v' => Some (foldl Z.min x v')
  end.

(** The locals of the first loop of [SplitIfBetter]. *)
Record Counts : Type := mkCounts {
  counts : list Z;
  childWeightSums : list double;
  sumWeight : double
}.

(** The locals of the extraction of the children. *)
Record Children (L : Type) : Type := mkChildren {
  childPositions : list Z;
  childLabels : list (list L);
  childWeights : list (list double)
}.
Arguments mkChildren {L}.
Arguments childPositions {L}.
Arguments childLabels {L}.
Arguments childWeights {L}.

(** A call of [FitnessFunction::Evaluate]: the labels and the weights it
    was given. *)
Definition Evaluation (L : Type) : Type := (list L * list double)%type.

(** The locals of the gain loop, with the calls of the fitness function
    made so far. *)
Record Gain (L : Type) : Type := mkGain {
  overallGain : double;
  evaluated : list (Evaluation L)
}.
Arguments mkGain {L}.
Arguments overallGain {L}.
Arguments evaluated {L}.

(** What a call of [SplitIfBetter] that returns leaves behind: the value
    returned, [splitInfo], and the calls of the fitness function. *)
Record Returned (L : Type) : Type := mkReturned {
  value : double;
  info : SplitInfoType;
  calls : list (Evaluation L)
}.
Arguments mkReturned {L}.
Arguments value {L}.
Arguments info {L}.
Arguments calls {L}.

(** [run r k]: continue with the locals that [r] ends in; an exception
    ends the call. *)
Definition run {St R} (r : res St) (k : St -> exn + R) : exn + R :=
  match r with
  | Ok s => k s
  | Err e _ => inl e
  end.

Notation "s <== r ;;; k" := (run r (fun s => k))
  (at level 100, r at next level, right associativity).

Section AllCategoricalSplit.
(** [LabelsType::elem_type] and its zero. *)
Context {L : Type}.
Variable zero : L.

(** [FitnessFunction::Evaluate<UseWeights>(labels, numClasses, weights)] *)
Variable Evaluate : bool -> list L -> Z -> list double -> double.

(** Lines 62-71, the body of the counting loop. *)
Definition count_step (UseWeights : bool) (data weights : list double)
    (i : nat) (cs : Counts) : res Counts :=
  d <- at_unchecked data i or undefined_behaviour in cs ;;
  category <- size_t_of_double d or undefined_behaviour in cs ;;
  n <- at_unchecked (counts cs) (Z.to_nat category) or undefined_behaviour in cs ;;
  let cs := mkCounts (<[Z.to_nat category := (n + 1)%Z]> (counts cs))
                     (childWeightSums cs) (sumWeight cs) in
  if UseWeights then
    w <- at_unchecked weights i or undefined_behaviour in cs ;;
    sw <- at_unchecked (childWeightSums cs) (Z.to_nat category)
      or undefined_behaviour in cs ;;
    Ok (mkCounts (counts cs)
                 (<[Z.to_nat category := dadd sw w]> (childWeightSums cs))
                 (dadd (sumWeight cs) w))
  else Ok cs.

(** Lines 83-89: child [i] gets vectors of zeros of the size of its
    count. *)
Definition zeros_step (UseWeights : bool) (cs : Counts)
    (i : nat) (ch : Children L) : res (Children L) :=
  n <- at_unchecked (counts cs) i or undefined_behaviour in ch ;;
  cl <- set_unchecked (childLabels ch) i (replicate (Z.to_nat n) zero)
    or undefined_behaviour in ch ;;
  let ch := mkChildren (childPositions ch) cl (childWeights ch) in
  if UseWeights then
    cw <- set_unchecked (childWeights ch) i (replicate (Z.to_nat n) double_zero)
      or undefined_behaviour in ch ;;
    Ok (mkChildren (childPositions ch) (childLabels ch) cw)
  else Ok ch.

(** Lines 92-105: sample [i] goes to the next free position of its
    child. *)
Definition extract_step (UseWeights : bool) (data : list double) (labels : list L)
    (weights : list double) (i : nat) (ch : Children L) : res (Children L) :=
  d <- at_unchecked data i or undefined_behaviour in ch ;;
  category <- size_t_of_double d or undefined_behaviour in ch ;;
  let c := Z.to_nat category in
  pos <- at_unchecked (childPositions ch) c or undefined_behaviour in ch ;;
  l <- at_unchecked labels i or undefined_behaviour in ch ;;
  row <- at_unchecked (childLabels ch) c or undefined_behaviour in ch ;;
  row <- set_unchecked row (Z.to_nat pos) l or undefined_behaviour in ch ;;
  let ch := mkChildren (childPositions ch) (<[c := row]> (childLabels ch))
                       (childWeights ch) in
  if UseWeights then
    w <- at_unchecked weights i or undefined_behaviour in ch ;;
    row <- at_unchecked (childWeights ch) c or undefined_behaviour in ch ;;
    row <- set_unchecked row (Z.to_nat pos) w or undefined_behaviour in ch ;;
    Ok (mkChildren (<[c := (pos + 1)%Z]> (childPositions ch)) (childLabels ch)
                   (<[c := row]> (childWeights ch)))
  else
    Ok (mkChildren (<[c := (pos + 1)%Z]> (childPositions ch)) (childLabels ch)
                   (childWeights ch)).

(** Lines 108-118: the gain of child [i], weighted by its share. *)
Definition gain_step (UseWeights : bool) (data : list double) (numClasses : Z)
    (cs : Counts) (ch : Children L) (i : nat) (g : Gain L) : res (Gain L) :=
  childPct <- (if UseWeights then
                 (fun sw => ddiv sw (sumWeight cs))
                   <$> at_unchecked (childWeightSums cs) i
               else
                 (fun n => ddiv (double_of_size_t n) (double_of_size_t (n_cols data)))
                   <$> at_unchecked (counts cs) i)
    or undefined_behaviour in g ;;
  cl <- at_unchecked (childLabels ch) i or undefined_behaviour in g ;;
  cw <- at_unchecked (childWeights ch) i or undefined_behaviour in g ;;
  let childGain := Evaluate UseWeights cl numClasses cw in
  Ok (mkGain (dadd (overallGain g) (dmul childPct childGain))
             (evaluated g ++ [(cl, cw)])).

Definition SplitIfBetter (UseWeights : bool) (bestGain : double) (data : list double)
    (numCategories : Z) (labels : list L) (numClasses : Z) (weights : list double)
    (minimumLeafSize : Z) (minimumGainSplit : double) (splitInfo : SplitInfoType)
    : exn + Returned L :=
  let cs := mkCounts (zeros numCategories)
              (if UseWeights then replicate (Z.to_nat numCategories) double_zero else [])
              double_zero in
  cs <== for_loop 0 (length data) (count_step UseWeights data weights) cs ;;;
  match arma_min (counts cs) with
  | None => inl logic_error
  | Some least =>
    if (least <? minimumLeafSize)%Z then inr (mkReturned DBL_MAX splitInfo [])
    else
      let ch := mkChildren (zeros numCategories)
                  (replicate (Z.to_nat numCategories) [])
                  (replicate (Z.to_nat numCategories) []) in
      ch <== for_loop 0 (Z.to_nat numCategories) (zeros_step UseWeights cs) ch ;;;
      ch <== for_loop 0 (length data) (extract_step UseWeights data labels weights) ch ;;;
      g <== for_loop 0 (length (counts cs))
              (gain_step UseWeights data numClasses cs ch) (mkGain double_zero []) ;;;
      if dgt (overallGain g) (dadd (dadd bestGain minimumGainSplit) epsilon) then
        inr (mkReturned (overallGain g)
                        (StoreSplitInfo splitInfo (double_of_size_t numCategories))
                        (evaluated g))
      else
        inr (mkReturned DBL_MAX splitInfo (evaluated g))
  end.

(** [NumChildren(splitInfo, aux)] *)
Definition NumChildren (splitInfo : double) : option Z := size_t_of_double splitInfo.

(** [CalculateDirection(point, splitInfo, aux)] *)
Definition CalculateDirection (point : double) (splitInfo : double) : option Z :=
  size_t_of_double point.
End AllCategoricalSplit.

(** ** [SSELoss] *)

(** [observed - values] on vectors: element by element, refused when the
    sizes differ. *)
Definition arma_sub (x y : list double) : exn + list double :=
  if decide (length x = length y) then inr (zip_with dsub x y) else inl logic_error.

(** [- v] on a vector. *)
Definition arma_neg (v : list double) : list double := dopp <$> v.

(** [VecType h(in_rows, in_cols)]: a column needs [in_cols = 1] and a row
    [in_rows = 1], and the elements are not given a value by the
    arguments. *)
Definition arma_vec_sized (t : VecType) (in_rows in_cols : Z) : exn + list (option double) :=
  match t with
  | is_Col => if (in_cols =? 1)%Z || ((in_rows =? 0)%Z && (in_cols =? 0)%Z)
              then inr (replicate (Z.to_nat in_rows) None) else inl logic_error
  | is_Row => if (in_rows =? 1)%Z || ((in_rows =? 0)%Z && (in_cols =? 0)%Z)
              then inr (replicate (Z.to_nat in_cols) None) else inl logic_error
  end.

Module SSELoss.
(** [InitialPrediction(values)] at [eT = double]; [accu] is [arma::accu],
    the sum of the elements in the order the library adds them. *)
Definition InitialPrediction (accu : list double -> double) (values : list double)
    : double :=
  ddiv (accu values) (double_of_size_t (n_cols values)).

(** [Gradients(observed, values)] at [T = double] *)
Definition Gradients (observed values : double) : double :=
  dopp (dsub observed values).

(** [Gradients(observed, values)] at a vector type *)
Definition Gradients_vec (observed values : list double) : exn + list double :=
  match arma_sub observed values with
  | inr d => inr (arma_neg d)
  | inl e => inl e
  end.

(** [Hessians(observed, values)], the overload for scalars: [(T) 1] *)
Definition Hessians (observed values : double) : double := double_one.

(** [Hessians(observed, values)], the overload for vectors:
    [VecType h(values.n_elem, 1); return h;] *)
Definition Hessians_vec (t : VecType) (observed values : list double)
    : exn + list (option double) :=
  arma_vec_sized t (n_cols values) 1.

(** [Residuals(observed, f)] at [double] *)
Definition Residuals (observed f : double) : double :=
  dopp (Gradients observed f).

(** [Residuals(observed, f)] at a vector type *)
Definition Residuals_vec (observed f : list double) : exn + list double :=
  match Gradients_vec observed f with
  | inr g => inr (arma_neg g)
  | inl e => inl e
  end.
End SSELoss.

(** ** Specification vocabulary *)

(** The columns of [m] at the indices [idx], as an output container holds
    them: an index outside [m] selects nothing. *)
Definition select {X} (m : list X) (idx : list nat) : list (option X) :=
  (fun j => m !! j) <$> idx.

(** [testRatio] is a double of [[0, 1]]. *)
Definition valid_ratio (r : double) : Prop :=
  valid_binary b64_prec b64_emax r = true /\
  SFleb double_zero r = true /\ SFleb r double_one = true.

(** The number of columns is a value of [size_t]. *)
Definition fits_size_t {X} (m : list X) : Prop := (n_cols m < size_t_modulus)%Z.

(** The number of columns is below [2^53]: every count up to it is a
    double. *)
Definition fits_double {X} (m : list X) : Prop := (n_cols m < 2 ^ 53)%Z.

(** [floor(n * testRatio)] as an integer, the product being the one of the
    doubles. *)
Definition test_count (n : Z) (r : double) : Z :=
  Zfloor (dmul (double_of_size_t n) r).

(** The exponent of the canonical representation of a double of [e]
    binary digits. *)
Definition fexp64 (e : Z) : Z := fexp 53 1024 e.

(** The double of a positive integer below [2^53]. *)
Definition canon (V : positive) : double :=
  S754_finite false (Z.to_pos (Zpos V * 2 ^ (53 - Zpos (digits2_pos V))))%Z
              (Zpos (digits2_pos V) - 53)%Z.

(** [x] is a double of [[0, n]]. *)
Definition below (n : Z) (x : double) : Prop :=
  match x with
  | S754_zero _ => True
  | S754_finite false m e => (e <= 0 /\ Zpos m <= n * 2 ^ (- e))%Z
  | _ => False
  end.

(** [y] is the integer [t] as a double; zero may have either sign. *)
Definition int_double (t : Z) (y : double) : Prop :=
  y = double_of_size_t t \/ (t = 0%Z /\ y = S754_zero true).

(** A shuffle rearranges its argument. *)
Definition is_shuffle (shuffle : list nat -> list nat) : Prop :=
  forall l, Permutation (shuffle l) l.

(** [f 0 + ... + f M] *)
Definition Zsum (l : list Z) : Z := foldr Z.add 0%Z l.
Definition tabulate {X} (f : nat -> X) (n : nat) : list X := f <$> seq 0 n.
Definition Zsum_to (M : nat) (f : nat -> Z) : Z := Zsum (tabulate f (S M)).

(** The number of samples of class [c] among [labels]. *)
Definition class_count (labels : list nat) (c : nat) : nat :=
  length (filter (fun l => l = c) labels).

(** [floor(classCount(c) * testRatio)] *)
Definition class_test_count (labels : list nat) (r : double) (c : nat) : nat :=
  Z.to_nat (test_count (Z.of_nat (class_count labels c)) r).

(** The indices of [idx] at which [labels] holds class [c]. *)
Definition members (labels : list nat) (c : nat) (idx : list nat) : list nat :=
  filter (fun i => labels !! i = Some c) idx.

(** The labels are values of [size_t] and the largest one can be
    incremented. *)
Definition labels_fit (labels : list nat) : Prop :=
  Forall (fun l => (Z.of_nat l + 1 < size_t_modulus)%Z) labels.

(** The sizes [StratifiedSplit] gives its outputs: the per-class test
    counts, and what remains of each class, summed over the classes
    [0..M]. *)
Definition stratified_test_size (labels : list nat) (r : double) (M : nat) : Z :=
  Zsum_to M (fun c => Z.of_nat (class_test_count labels r c)).

Definition stratified_train_size (labels : list nat) (r : double) (M : nat) : Z :=
  Zsum_to M (fun c => Z.of_nat (class_count labels c)
                      - Z.of_nat (class_test_count labels r c))%Z.

(** The child a value of the feature column goes to. *)
Definition category_of (d : double) : option nat := Z.to_nat <$> size_t_of_double d.

(** Every value of the feature column is a category below [N]. *)
Definition valid_categories (data : list double) (N : nat) : Prop :=
  Forall (fun d => exists c, category_of d = Some c /\ c < N) data.

(** The number of samples of category [c]. *)
Definition bucket_count (data : list double) (c : nat) : nat :=
  length (filter (fun d => category_of d = Some c) data).

(** The entries of a vector parallel to the feature column that belong to
    the samples of category [c], in the order of the samples. *)
Definition bucket {X} (c : nat) (pairs : list (double * X)) : list X :=
  snd <$> filter (fun p => category_of (fst p) = Some c) pairs.

(** [a + w1 + ... + wn], added from left to right. *)
Definition dsum (ws : list double) : double := foldl dadd double_zero ws.

Section GainSpec.
Context {L : Type}.
Variable Evaluate : bool -> list L -> Z -> list double -> double.
Variables (UseWeights : bool) (data : list double) (labels : list L)
          (numClasses : Z) (weights : list double).

Definition child_labels (c : nat) : list L := bucket c (zip data labels).

Definition child_weights (c : nat) : list double :=
  if UseWeights then bucket c (zip data weights) else [].

(** The share of child [c]: of the total weight, or of the samples. *)
Definition child_pct (c : nat) : double :=
  if UseWeights then
    ddiv (dsum (bucket c (zip data weights))) (dsum (take (length data) weights))
  else
    ddiv (double_of_size_t (Z.of_nat (bucket_count data c)))
         (double_of_size_t (n_cols data)).

(** The gain of the split into [N] children: the shares times the
    fitness of the children, added up from child [0] on. *)
Definition overall_gain (N : nat) : double :=
  foldl (fun acc c =>
           dadd acc (dmul (child_pct c)
                          (Evaluate UseWeights (child_labels c) numClasses
                                    (child_weights c))))
        double_zero (seq 0 N).

(** The calls of the fitness function that computing the gain makes. *)
Definition gain_calls (N : nat) : list (Evaluation L) :=
  (fun c => (child_labels c, child_weights c)) <$> seq 0 N.
End GainSpec.

(** The locals after the counting loop and after the extraction of the
    children, on a feature column of [N] categories. *)
Definition counted (UseWeights : bool) (data weights : list double) (N : nat) : Counts :=
  mkCounts (tabulate (fun c => Z.of_nat (bucket_count data c)) N)
           (if UseWeights then tabulate (fun c => dsum (bucket c (zip data weights))) N
            else [])
           (if UseWeights then dsum (take (length data) weights) else double_zero).

Definition extracted {L} (UseWeights : bool) (data : list double) (labels : list L)
    (weights : list double) (N : nat) : Children L :=
  mkChildren (tabulate (fun c => Z.of_nat (bucket_count data c)) N)
             (tabulate (child_labels data labels) N)
             (tabulate (child_weights UseWeights data weights) N).

(** The threshold a gain has to exceed. *)
Definition threshold (bestGain minimumGainSplit : double) : double :=
  dadd (dadd bestGain minimumGainSplit) epsilon.

(** The number of training columns. *)
Definition train_count (n : nat) (r : double) : nat :=
  n - Z.to_nat (test_count (Z.of_nat n) r).

(** The vector [labelCounts] after the counting loop. *)
Definition counts_of (labels : list nat) (M : nat) : list Z :=
  tabulate (fun c => Z.of_nat (class_count labels c)) (S M).

(** The state of the assignment loop of [StratifiedSplit] after the samples
    [pre] have been visited: [tr] went to the training set and [te] to the
    test set, each class up to its budget. *)
Definition assign_invariant {A} (input : list A) (labels : list nat) (r : double) (M : nat)
    (pre : list nat) (st : Strat A) : Prop :=
  exists tr te : list nat,
    tr ++ te ≡ₚ pre /\
    s_out st = mkOutputs
      (select input tr
       ++ replicate (Z.to_nat (stratified_train_size labels r M) - length tr) None)
      (select input te
       ++ replicate (Z.to_nat (stratified_test_size labels r M) - length te) None)
      (select labels tr
       ++ replicate (Z.to_nat (stratified_train_size labels r M) - length tr) None)
      (select labels te
       ++ replicate (Z.to_nat (stratified_test_size labels r M) - length te) None) /\
    trainIdx st = length tr /\ testIdx st = length te /\
    testLabelCounts st
      = tabulate (fun c => Z.of_nat (length (members labels c te))) (S M) /\
    forall c, length (members labels c te)
              = Nat.min (length (members labels c pre)) (class_test_count labels r c).

(** The state of the assignment loop of [StratifiedSplit] when the samples
    [tr] have gone to the training set and [te] to the test set. *)
Definition assign_state {A} (input : list A) (labels : list nat) (r : double) (M : nat)
    (tr te : list nat) : Strat A :=
  mkStrat
    (mkOutputs
       (select input tr
        ++ replicate (Z.to_nat (stratified_train_size labels r M) - length tr) None)
       (select input te
        ++ replicate (Z.to_nat (stratified_test_size labels r M) - length te) None)
       (select labels tr
        ++ replicate (Z.to_nat (stratified_train_size labels r M) - length tr) None)
       (select labels te
        ++ replicate (Z.to_nat (stratified_test_size labels r M) - length te) None))
    (length tr) (length te)
    (tabulate (fun c => Z.of_nat (length (members labels c te))) (S M)).

(** The greedy assignment of lines 198-214 and 218-234 on sample indices: a
    sample goes to the test set as long as fewer than [budget] samples of
    its class are there, and to the training set after that.  The result
    is the pair of the training and the test indices, in the order of the
    visits. *)
Definition greedy_step (labels : list nat) (budget : nat -> nat)
    (acc : list nat * list nat) (x : nat) : list nat * list nat :=
  match labels !! x with
  | Some l =>
      if decide (length (members labels l (snd acc)) < budget l)
      then (fst acc, snd acc ++ [x])
      else (fst acc ++ [x], snd acc)
  | None => acc
  end.

Definition greedy (labels : list nat) (budget : nat -> nat) (order : list nat)
    : list nat * list nat :=
  foldl (greedy_step labels budget) ([], []) order.


(** A call that fails at once: an exception, with the output containers as
    they were at the call. *)
Definition fails_fast {St} (out : St) (result : res St) : Prop :=
  exists e, result = Err e out.

(** The four output containers have been resized to [k] training and [t]
    test columns. *)
Definition resized {A B} (k t : nat) (o : Outputs A B) : Prop :=
  length (trainData o) = k /\ length (testData o) = t /\
  length (trainLabel o) = k /\ length (testLabel o) = t.

(** Sample [i] is among the first [budget] of its class. *)
Definition early (labels : list nat) (budget : nat -> nat) (i : nat) : bool :=
  match labels !! i with
  | Some l => bool_decide (class_count (take i labels) l < budget l)
  | None => false
  end.

(** A double that is a number: a zero or a finite value. *)
Definition dfinite (x : double) : bool :=
  match x with
  | S754_zero _ | S754_finite _ _ _ => true
  | _ => false
  end.

(** A weight that is a zero, of either sign. *)
Definition zero_weight (w : double) : Prop := exists s, w = S754_zero s.

(** * Proofs *)

(** ** Binary64 arithmetic on integers below [2^53] *)

Section Binary64.
Local Open Scope Z_scope.

(** The number of binary digits of a positive integer. *)
Lemma digits2_bounds (p : positive) :
  2 ^ (Zpos (digits2_pos p) - 1) <= Zpos p < 2 ^ Zpos (digits2_pos p).
Proof.
  induction p as [p IH|p IH|]; simpl digits2_pos.
  - rewrite Pos2Z.inj_succ. replace (Z.succ (Zpos (digits2_pos p)) - 1) with (Z.succ (Zpos (digits2_pos p) - 1)) by lia.
    rewrite !Z.pow_succ_r by lia. lia.
  - rewrite Pos2Z.inj_succ. replace (Z.succ (Zpos (digits2_pos p)) - 1) with (Z.succ (Zpos (digits2_pos p) - 1)) by lia.
    rewrite !Z.pow_succ_r by lia. lia.
  - simpl. lia.
Qed.

Lemma digits2_unique (p : positive) (d : Z) :
  2 ^ (d - 1) <= Zpos p < 2 ^ d -> Zpos (digits2_pos p) = d.
Proof.
  intros [Hlo Hhi]. pose proof (digits2_bounds p) as [Blo Bhi].
  assert (0 < d).
  { destruct (Z.ltb_spec 0 d); [assumption|].
    assert (d = 0 \/ d < 0) as [->|Hn] by lia; simpl in Hhi; [lia|].
    rewrite Z.pow_neg_r in Hhi by lia. lia. }
  destruct (Z.lt_trichotomy (Zpos (digits2_pos p)) d) as [Hlt|[Heq|Hgt]]; [|assumption|].
  - assert (2 ^ Zpos (digits2_pos p) <= 2 ^ (d - 1)) by (apply Z.pow_le_mono_r; lia). lia.
  - assert (2 ^ d <= 2 ^ (Zpos (digits2_pos p) - 1)) by (apply Z.pow_le_mono_r; lia). lia.
Qed.

(** The iterator of the right shift, by its number of steps. *)
Lemma iter_pos_nat {A} (f : A -> A) (p : positive) (x : A) :
  SpecFloat.iter_pos f p x = Nat.iter (Pos.to_nat p) f x.
Proof.
  revert x. induction p as [p IH|p IH|]; intros x; cbn [SpecFloat.iter_pos].
  - rewrite !IH, Pos2Nat.inj_xI.
    replace (S (2 * Pos.to_nat p)) with (Pos.to_nat p + S (Pos.to_nat p))%nat by lia.
    rewrite Nat.iter_add. f_equal. now rewrite Nat.iter_succ_r.
  - rewrite !IH, Pos2Nat.inj_xO.
    replace (2 * Pos.to_nat p)%nat with (Pos.to_nat p + Pos.to_nat p)%nat by lia.
    now rewrite Nat.iter_add.
  - reflexivity.
Qed.

(** One step of the right shift. *)
Lemma shr_1_spec (m : Z) (r s : bool) :
  0 <= m ->
  shr_1 (Build_shr_record m r s) = Build_shr_record (m / 2) (Z.odd m) (r || s).
Proof.
  intros Hm. unfold shr_1.
  destruct m as [|p|p]; [reflexivity| |lia].
  destruct p as [p|p|]; simpl Z.odd.
  - f_equal. rewrite Pos2Z.inj_xI. 
    rewrite (Z.mul_comm 2), Z.div_add_l by lia. change (1 / 2) with 0. lia.
  - f_equal. rewrite Pos2Z.inj_xO. now rewrite (Z.mul_comm 2), Z.div_mul by lia.
  - reflexivity.
Qed.

(** [j] steps from an exact record: the quotient, and the lost bits. *)
Lemma shr_iter_spec (M : Z) (j : nat) :
  0 <= M ->
  let mrs := Nat.iter j shr_1 (Build_shr_record M false false) in
  shr_m mrs = M / 2 ^ Z.of_nat j /\
  (shr_r mrs || shr_s mrs = false <-> M mod 2 ^ Z.of_nat j = 0).
Proof.
  intros HM. induction j as [|j IH]; cbn zeta.
  - simpl. rewrite Z.div_1_r, Z.mod_1_r. tauto.
  - cbn zeta in IH. rewrite Nat.iter_succ.
    destruct (Nat.iter j shr_1 _) as [m r s]. simpl in IH. destruct IH as [Hm Hrs].
    assert (Hpow : 0 < 2 ^ Z.of_nat j) by (apply Z.pow_pos_nonneg; lia).
    rewrite shr_1_spec by (subst m; apply Z.div_pos; lia). cbn [shr_m shr_r shr_s].
    rewrite Nat2Z.inj_succ, Z.pow_succ_r by lia.
    split.
    + subst m. rewrite Z.div_div by lia. f_equal. lia.
    + rewrite (Z.mul_comm 2), Z.rem_mul_r by lia.
      rewrite <- Hm. rewrite orb_false_iff. rewrite Hrs.
      rewrite <- Z.negb_even, negb_false_iff, Z.even_spec.
      pose proof (Z.mod_pos_bound M (2 ^ Z.of_nat j) Hpow) as B1.
      pose proof (Z.mod_pos_bound m 2 ltac:(lia)) as B2.
      split.
      * intros [[k Hk] Hz]. rewrite Hz.
        replace (m mod 2) with 0; [lia|]. rewrite Hk, Z.mul_comm, Z.mod_mul; lia.
      * intros H. assert (Hz : M mod 2 ^ Z.of_nat j = 0) by nia.
        split; [|assumption]. exists (m / 2).
        assert (m mod 2 = 0) by nia. pose proof (Z.div_mod m 2 ltac:(lia)). lia.
Qed.

(** The exponent of a double of [e] digits; [-1074] is that of the
    subnormal numbers. *)
Lemma fexp64_eq (e : Z) : fexp64 e = Z.max (e - 53) (-1074).
Proof. reflexivity. Qed.

(** A right shift by [k] from an exact record divides by [2^k]; it is
    exact when the remainder is zero. *)
Lemma shr_spec (M e k : Z) :
  0 <= M ->
  let '(mrs, e') := shr (Build_shr_record M false false) e k in
  if (0 <? k) then
    shr_m mrs = M / 2 ^ k /\ e' = e + k /\
    (shr_r mrs || shr_s mrs = false <-> M mod 2 ^ k = 0)
  else mrs = Build_shr_record M false false /\ e' = e.
Proof.
  intros HM. unfold shr. destruct k as [|p|p].
  - split; reflexivity.
  - change (0 <? Zpos p) with true. cbv iota. rewrite iter_pos_nat.
    pose proof (shr_iter_spec M (Pos.to_nat p) HM) as H. cbv zeta in H.
    rewrite positive_nat_Z in H. destruct H as [H1 H2]. auto.
  - split; reflexivity.
Qed.

(** A left shift multiplies by a power of two. *)
Lemma pos_iter_xO (m d : positive) : Zpos (Pos.iter xO m d) = Zpos m * 2 ^ Zpos d.
Proof.
  induction d as [|d IH] using Pos.peano_ind.
  - simpl. lia.
  - rewrite Pos.iter_succ, Pos2Z.inj_xO, IH, Pos2Z.inj_succ, Z.pow_succ_r by lia. lia.
Qed.

Lemma pow2_split (a b : Z) : 0 <= a -> 0 <= b -> 2 ^ (a + b) = 2 ^ a * 2 ^ b.
Proof. intros. apply Z.pow_add_r; assumption. Qed.

Lemma pow2_pos (a : Z) : 0 <= a -> 0 < 2 ^ a.
Proof. intros. apply Z.pow_pos_nonneg; lia. Qed.

(** Scaling by [2^k] adds [k] digits. *)
Lemma digits2_scaled (V : positive) (k : Z) (M : positive) :
  0 <= k -> Zpos M = Zpos V * 2 ^ k ->
  Zpos (digits2_pos M) = Zpos (digits2_pos V) + k.
Proof.
  intros Hk HM. apply digits2_unique. rewrite HM.
  pose proof (digits2_bounds V) as [Hlo Hhi].
  pose proof (pow2_pos k Hk).
  replace (Zpos (digits2_pos V) + k - 1) with ((Zpos (digits2_pos V) - 1) + k) by lia.
  rewrite !pow2_split by lia. nia.
Qed.

(** From a mantissa of 53 digits on, rounding changes nothing. *)
Lemma round_aux_stable (mz : positive) (e0 : Z) :
  Zpos (digits2_pos mz) = 53 -> -1074 <= e0 <= 971 ->
  binary_round_aux 53 1024 false (Zpos mz) e0 loc_Exact = S754_finite false mz e0.
Proof.
  intros Hd He. unfold binary_round_aux, shr_fexp. cbn [Zdigits2 shr_record_of_loc].
  rewrite Hd. fold (fexp64 (53 + e0)). rewrite fexp64_eq.
  replace (Z.max (53 + e0 - 53) (-1074) - e0) with 0 by lia.
  cbn [shr shr_m loc_of_shr_record round_nearest_even Zdigits2 shr_record_of_loc].
  rewrite Hd. fold (fexp64 (53 + e0)). rewrite fexp64_eq.
  replace (Z.max (53 + e0 - 53) (-1074) - e0) with 0 by lia.
  cbn [shr shr_m]. destruct (Z.leb_spec e0 (1024 - 53)); [reflexivity|lia].
Qed.

(** The mantissa of [canon V] is [V] scaled to 53 digits. *)
Lemma canon_digits (V : positive) :
  Zpos V < 2 ^ 53 ->
  let d := Zpos (digits2_pos V) in
  1 <= d <= 53 /\
  Zpos (Z.to_pos (Zpos V * 2 ^ (53 - d))) = Zpos V * 2 ^ (53 - d) /\
  Zpos (digits2_pos (Z.to_pos (Zpos V * 2 ^ (53 - d)))) = 53.
Proof.
  intros HV d. pose proof (digits2_bounds V) as [Hlo Hhi]. fold d in Hlo, Hhi.
  assert (Hd : 1 <= d <= 53).
  { split; [unfold d; lia|].
    destruct (Z.leb_spec d 53); [assumption|].
    assert (2 ^ 53 <= 2 ^ (d - 1)) by (apply Z.pow_le_mono_r; lia). lia. }
  pose proof (pow2_pos (53 - d) ltac:(lia)).
  assert (Hz : Zpos (Z.to_pos (Zpos V * 2 ^ (53 - d))) = Zpos V * 2 ^ (53 - d))
    by (apply Z2Pos.id; nia).
  split; [exact Hd|]. split; [exact Hz|].
  rewrite (digits2_scaled V (53 - d) _ ltac:(lia) Hz). fold d. lia.
Qed.

(** Rounding a mantissa and exponent that stand for an integer below [2^53]
    gives the canonical double of the integer. *)
Lemma binary_round_exact (V M : positive) (E : Z) :
  E <= 0 -> Zpos M = Zpos V * 2 ^ (- E) -> Zpos V < 2 ^ 53 ->
  binary_round 53 1024 false M E = canon V.
Proof.
  intros HE HM HV. unfold binary_round, canon.
  destruct (canon_digits V HV) as (Hd & Hz & Hdz). cbv zeta in *.
  set (d := Zpos (digits2_pos V)) in *.
  assert (HdM : Zpos (digits2_pos M) = d - E).
  { rewrite (digits2_scaled V (- E) M ltac:(lia) HM). fold d. lia. }
  rewrite HdM. fold (fexp64 (d - E + E)). rewrite fexp64_eq.
  replace (Z.max (d - E + E - 53) (-1074)) with (d - 53) by lia.
  unfold shl_align.
  destruct (d - 53 - E) as [|k|k] eqn:Hk.
  - (* already aligned *)
    assert (M = Z.to_pos (Zpos V * 2 ^ (53 - d))) as ->.
    { apply Pos2Z.inj. rewrite Hz, HM. f_equal. f_equal. lia. }
    replace E with (d - 53) by lia. apply round_aux_stable; [exact Hdz|lia].
  - (* more than 53 digits: an exact right shift *)
    unfold binary_round_aux, shr_fexp. cbn [Zdigits2 shr_record_of_loc].
    rewrite HdM. fold (fexp64 (d - E + E)). rewrite fexp64_eq.
    replace (Z.max (d - E + E - 53) (-1074) - E) with (Zpos k) by lia.
    pose proof (shr_spec (Zpos M) E (Zpos k) ltac:(lia)) as Hs.
    destruct (shr (Build_shr_record (Zpos M) false false) E (Zpos k)) as [mrs e'].
    change (0 <? Zpos k) with true in Hs. cbv iota in Hs.
    destruct Hs as (Hm & He' & Hex).
    assert (Hdiv : Zpos M = (Zpos V * 2 ^ (53 - d)) * 2 ^ Zpos k).
    { rewrite HM, <- Z.mul_assoc, <- pow2_split by lia. do 2 f_equal. lia. }
    pose proof (pow2_pos (Zpos k) ltac:(lia)) as Hpk.
    assert (Hmod : Zpos M mod 2 ^ Zpos k = 0) by (rewrite Hdiv; apply Z.mod_mul; lia).
    apply Hex in Hmod. destruct mrs as [m r s]. cbn [shr_m shr_r shr_s] in *.
    apply orb_false_iff in Hmod as [-> ->].
    cbn [loc_of_shr_record round_nearest_even].
    assert (m = Zpos (Z.to_pos (Zpos V * 2 ^ (53 - d)))) as ->.
    { rewrite Hz, Hm, Hdiv. apply Z.div_mul. lia. }
    cbn [Zdigits2 shr_record_of_loc]. rewrite Hdz. subst e'.
    fold (fexp64 (53 + (E + Zpos k))). rewrite fexp64_eq.
    replace (Z.max (53 + (E + Zpos k) - 53) (-1074) - (E + Zpos k)) with 0 by lia.
    cbn [shr shr_m]. replace (E + Zpos k) with (d - 53) by lia.
    destruct (Z.leb_spec (d - 53) (1024 - 53)); [reflexivity|lia].
  - (* fewer than 53 digits: a left shift *)
    assert (Pos.iter xO M k = Z.to_pos (Zpos V * 2 ^ (53 - d))) as ->.
    { apply Pos2Z.inj. rewrite Hz, pos_iter_xO, HM, <- Z.mul_assoc, <- pow2_split by lia.
      do 2 f_equal. lia. }
    apply round_aux_stable; [exact Hdz|lia].
Qed.

(** The conversion of an integer below [2^53] is exact. *)
Lemma double_of_size_t_pos (n : Z) : 0 < n < 2 ^ 53 -> double_of_size_t n = canon (Z.to_pos n).
Proof.
  intros Hn. unfold double_of_size_t, binary_normalize. destruct n as [|V|V]; try lia.
  apply binary_round_exact; [lia| |exact (proj2 Hn)]. simpl. lia.
Qed.

Lemma double_of_size_t_zero : double_of_size_t 0 = S754_zero false.
Proof. reflexivity. Qed.

(** Truncating the double of an integer gives the integer back. *)
Lemma size_t_of_canon (V : positive) : Zpos V < 2 ^ 53 -> size_t_of_double (canon V) = Some (Zpos V).
Proof.
  intros HV. destruct (canon_digits V HV) as (Hd & Hz & _). cbv zeta in *.
  unfold canon, size_t_of_double, size_t_modulus. rewrite Hz.
  set (d := Zpos (digits2_pos V)) in *.
  assert (Hs : Z.shiftl (Zpos V * 2 ^ (53 - d)) (d - 53) = Zpos V).
  { replace (d - 53) with (- (53 - d)) by lia. rewrite Z.shiftl_opp_r.
    rewrite Z.shiftr_div_pow2 by lia. apply Z.div_mul.
    pose proof (pow2_pos (53 - d) ltac:(lia)). lia. }
  rewrite Hs. destruct (Z.ltb_spec (Zpos V) (2 ^ 64)); [reflexivity|].
  assert (2 ^ 53 < 2 ^ 64) by reflexivity. lia.
Qed.

Lemma size_t_of_double_of_size_t (n : Z) : 0 <= n < 2 ^ 53 -> size_t_of_double (double_of_size_t n) = Some n.
Proof.
  intros Hn. destruct (Z.eq_dec n 0) as [->|Hne]; [reflexivity|].
  rewrite double_of_size_t_pos by lia. rewrite size_t_of_canon; [f_equal; lia|].
  rewrite Z2Pos.id; lia.
Qed.

(** The canonical doubles are ordered as the integers. *)
Lemma SFcompare_canon (a b : positive) :
  Zpos a < 2 ^ 53 -> Zpos b < 2 ^ 53 ->
  SFcompare (canon a) (canon b) = Some (Pos.compare a b).
Proof.
  intros Ha Hb. unfold canon, SFcompare.
  destruct (canon_digits a Ha) as (Hda & Hza & _).
  destruct (canon_digits b Hb) as (Hdb & Hzb & _). cbv zeta in *.
  pose proof (digits2_bounds a) as [Alo Ahi].
  pose proof (digits2_bounds b) as [Blo Bhi].
  set (da := Zpos (digits2_pos a)) in *. set (db := Zpos (digits2_pos b)) in *.
  f_equal. destruct (Z.compare_spec (da - 53) (db - 53)) as [He|He|He].
  - assert (da = db) as Hdd by lia. rewrite Hdd in *.
    change (Pos.compare_cont Eq ?x ?y) with (Pos.compare x y).
    rewrite !Pos2Z.inj_compare, Hza, Hzb.
    pose proof (pow2_pos (53 - db) ltac:(lia)).
    destruct (Z.compare_spec (Zpos a) (Zpos b)) as [H1|H1|H1].
    + rewrite H1. apply Z.compare_refl.
    + apply Z.compare_lt_iff. nia.
    + apply Z.compare_gt_iff. nia.
  - symmetry. apply Pos.compare_lt_iff. 
    assert (2 ^ da <= 2 ^ (db - 1)) by (apply Z.pow_le_mono_r; lia). lia.
  - symmetry. apply Pos.compare_gt_iff.
    assert (2 ^ db <= 2 ^ (da - 1)) by (apply Z.pow_le_mono_r; lia). lia.
Qed.

(** [<] on the doubles of two integers is [<] on the integers. *)
Lemma dlt_exact (a b : Z) :
  0 <= a < 2 ^ 53 -> 0 <= b < 2 ^ 53 -> dlt (double_of_size_t a) (double_of_size_t b) = (a <? b).
Proof.
  intros Ha Hb. unfold dlt, SFltb.
  destruct (Z.eq_dec a 0) as [->|Ha0], (Z.eq_dec b 0) as [->|Hb0].
  - reflexivity.
  - rewrite double_of_size_t_zero, double_of_size_t_pos by lia. unfold canon. simpl.
    symmetry. apply Z.ltb_lt. lia.
  - rewrite double_of_size_t_zero, double_of_size_t_pos by lia. unfold canon. simpl.
    symmetry. apply Z.ltb_ge. lia.
  - rewrite !double_of_size_t_pos by lia. rewrite SFcompare_canon by (rewrite Z2Pos.id; lia).
    rewrite Pos2Z.inj_compare, !Z2Pos.id by lia. unfold Z.ltb.
    now destruct (a ?= b).
Qed.

(** Aligning a mantissa to a smaller exponent. *)
Lemma shl_align_fst (m : positive) (e ez : Z) :
  ez <= e -> Zpos (fst (shl_align m e ez)) = Zpos m * 2 ^ (e - ez).
Proof.
  intros H. unfold shl_align. destruct (ez - e) as [|k|k] eqn:Hk; simpl fst.
  - replace (e - ez) with 0 by lia. simpl. lia.
  - lia.
  - rewrite pos_iter_xO. do 2 f_equal. lia.
Qed.

(** The mantissa and the exponent of the double of an integer. *)
Lemma canon_parts (V : positive) :
  Zpos V < 2 ^ 53 ->
  exists m e, canon V = S754_finite false m e /\ -52 <= e <= 0 /\
              Zpos m = Zpos V * 2 ^ (- e).
Proof.
  intros HV. destruct (canon_digits V HV) as (Hd & Hz & _). cbv zeta in *.
  eexists. eexists. split; [reflexivity|]. split; [lia|].
  rewrite Hz. do 2 f_equal. lia.
Qed.

(** The sum of the doubles of two integers is the double of their sum, as
    long as that is below [2^53]. *)
Lemma dadd_exact (a b : Z) :
  0 <= a -> 0 <= b -> a + b < 2 ^ 53 ->
  dadd (double_of_size_t a) (double_of_size_t b) = double_of_size_t (a + b).
Proof.
  intros Ha Hb Hab.
  destruct (Z.eq_dec a 0) as [->|Ha0]; [destruct (Z.eq_dec b 0) as [->|Hb0]|].
  - reflexivity.
  - rewrite double_of_size_t_zero, Z.add_0_l, double_of_size_t_pos by lia. reflexivity.
  - destruct (Z.eq_dec b 0) as [->|Hb0].
    + rewrite double_of_size_t_zero, Z.add_0_r, double_of_size_t_pos by lia. reflexivity.
    + rewrite !double_of_size_t_pos by lia.
      destruct (canon_parts (Z.to_pos a)) as (ma & ea & -> & Hea & Hma);
        [rewrite Z2Pos.id; lia|].
      destruct (canon_parts (Z.to_pos b)) as (mb & eb & -> & Heb & Hmb);
        [rewrite Z2Pos.id; lia|].
      rewrite Z2Pos.id in Hma, Hmb by lia.
      unfold dadd, SFadd, cond_Zopp.
      rewrite !shl_align_fst by lia. rewrite Hma, Hmb.
      set (ez := Z.min ea eb).
      assert (HM : Zpos (Z.to_pos a) * 2 ^ (- ea) * 2 ^ (ea - ez)
                   + Zpos (Z.to_pos b) * 2 ^ (- eb) * 2 ^ (eb - ez)
                   = (a + b) * 2 ^ (- ez)).
      { rewrite !Z2Pos.id by lia. rewrite <- !Z.mul_assoc, <- !pow2_split by lia.
        replace (- ea + (ea - ez)) with (- ez) by lia.
        replace (- eb + (eb - ez)) with (- ez) by lia. lia. }
      rewrite !Z2Pos.id in HM by lia. rewrite HM.
      pose proof (pow2_pos (- ez) ltac:(lia)).
      destruct ((a + b) * 2 ^ (- ez)) as [|M|M] eqn:HMe; try nia.
      unfold binary_normalize.
      apply binary_round_exact; [lia| |rewrite Z2Pos.id; lia].
      rewrite Z2Pos.id by lia. lia.
Qed.

(** Likewise for a difference that is not negative. *)
Lemma dsub_exact (a b : Z) :
  0 <= b <= a -> a < 2 ^ 53 ->
  dsub (double_of_size_t a) (double_of_size_t b) = double_of_size_t (a - b).
Proof.
  intros Hb Ha.
  destruct (Z.eq_dec b 0) as [->|Hb0].
  - rewrite double_of_size_t_zero, Z.sub_0_r. destruct (Z.eq_dec a 0) as [->|Ha0]; [reflexivity|].
    rewrite double_of_size_t_pos by lia. reflexivity.
  - rewrite (double_of_size_t_pos a), (double_of_size_t_pos b) by lia.
    destruct (canon_parts (Z.to_pos a)) as (ma & ea & -> & Hea & Hma);
      [rewrite Z2Pos.id; lia|].
    destruct (canon_parts (Z.to_pos b)) as (mb & eb & -> & Heb & Hmb);
      [rewrite Z2Pos.id; lia|].
    rewrite Z2Pos.id in Hma, Hmb by lia.
    unfold dsub, SFsub, cond_Zopp.
    rewrite !shl_align_fst by lia. rewrite Hma, Hmb.
    set (ez := Z.min ea eb).
    assert (HM : a * 2 ^ (- ea) * 2 ^ (ea - ez) - b * 2 ^ (- eb) * 2 ^ (eb - ez)
                 = (a - b) * 2 ^ (- ez)).
    { rewrite <- !Z.mul_assoc, <- !pow2_split by lia.
      replace (- ea + (ea - ez)) with (- ez) by lia.
      replace (- eb + (eb - ez)) with (- ez) by lia. lia. }
    rewrite HM.
    pose proof (pow2_pos (- ez) ltac:(lia)).
    destruct (Z.eq_dec a b) as [->|Hne].
    + rewrite Z.sub_diag. reflexivity.
    + destruct ((a - b) * 2 ^ (- ez)) as [|M|M] eqn:HMe; try nia.
      unfold binary_normalize. rewrite double_of_size_t_pos by lia.
      apply binary_round_exact; [lia| |rewrite Z2Pos.id; lia].
      rewrite Z2Pos.id by lia. lia.
Qed.

(** A mantissa that stands for a value of at most [n < 2^53] is rounded
    at an exponent that is not positive. *)
Lemma fexp_nonpos (M e n : Z) :
  0 <= M -> e <= 0 -> n < 2 ^ 53 -> M <= n * 2 ^ (- e) ->
  fexp64 (Zdigits2 M + e) <= 0.
Proof.
  intros HM He Hn HMn. rewrite fexp64_eq.
  destruct M as [|p|p]; [simpl; lia| |lia].
  cbn [Zdigits2].
  pose proof (digits2_bounds p) as [Hlo _].
  pose proof (pow2_pos (- e) ltac:(lia)) as Hpe.
  assert (H1 : 2 ^ (Zpos (digits2_pos p) - 1) < 2 ^ (53 - e)).
  { eapply Z.le_lt_trans; [exact Hlo|]. eapply Z.le_lt_trans; [exact HMn|].
    replace (53 - e) with (53 + - e) by lia. rewrite pow2_split by lia.
    apply Z.mul_lt_mono_pos_r; lia. }
  apply Z.pow_lt_mono_r_iff in H1; lia.
Qed.

(** Rounding to nearest adds at most one to a truncated mantissa, and
    nothing when the truncation was exact. *)
Lemma round_nearest_even_bounds (m : Z) (r s : bool) :
  let m1 := round_nearest_even m (loc_of_shr_record (Build_shr_record m r s)) in
  m <= m1 <= m + 1 /\ (r || s = false -> m1 = m).
Proof.
  destruct r, s; cbn; try destruct (Z.even m); split; try lia; try discriminate;
    reflexivity.
Qed.

(** One normalisation step keeps a value that is at most the integer [n]
    at most [n]: if the step rounds up, the value was not an integer
    multiple of the new unit, so it was below [n] by more than the
    rounding adds. *)
Lemma shr_fexp_below (M e n : Z) :
  0 <= M -> e <= 0 -> 0 <= n < 2 ^ 53 -> M <= n * 2 ^ (- e) ->
  let '(mrs, e') := shr_fexp 53 1024 M e loc_Exact in
  let m1 := round_nearest_even (shr_m mrs) (loc_of_shr_record mrs) in
  e' <= 0 /\ 0 <= shr_m mrs /\ shr_m mrs <= m1 /\ m1 <= n * 2 ^ (- e').
Proof.
  intros HM He Hn HMn. unfold shr_fexp. cbn [shr_record_of_loc].
  pose proof (fexp_nonpos M e n HM He ltac:(lia) HMn) as Hf.
  change (fexp 53 1024) with fexp64.
  set (k := fexp64 (Zdigits2 M + e) - e) in *.
  pose proof (shr_spec M e k HM) as Hs.
  destruct (shr (Build_shr_record M false false) e k) as [mrs e'].
  destruct (0 <? k) eqn:Hk.
  - apply Z.ltb_lt in Hk. destruct Hs as (Hm & He' & Hrs).
    destruct mrs as [q r s]. cbn [shr_m shr_r shr_s] in *.
    pose proof (round_nearest_even_bounds q r s) as [Hb Hex]. cbv zeta in *.
    set (m1 := round_nearest_even q _) in *.
    assert (He0 : e' <= 0) by lia.
    pose proof (pow2_pos k ltac:(lia)) as Hpk.
    pose proof (pow2_pos (- e') ltac:(lia)) as Hpe.
    assert (Hsplit : 2 ^ (- e) = 2 ^ (- e') * 2 ^ k).
    { rewrite <- pow2_split by lia. f_equal. lia. }
    pose proof (Z.div_mod M (2 ^ k) ltac:(lia)) as Hdm.
    pose proof (Z.mod_pos_bound M (2 ^ k) Hpk) as Hmod.
    rewrite <- Hm in Hdm.
    assert (Hq0 : 0 <= q) by (rewrite Hm; apply Z.div_pos; lia).
    split; [exact He0|]. split; [exact Hq0|]. split; [lia|].
    rewrite Hsplit, Z.mul_assoc in HMn.
    destruct (Z.eq_dec (M mod 2 ^ k) 0) as [Hz|Hnz].
    + rewrite Hex by (apply Hrs; exact Hz). nia.
    + assert (q < n * 2 ^ (- e')) by nia. lia.
  - destruct Hs as [-> ->]. cbn. repeat split; lia.
Qed.

(** Rounding a value of [[0, n]] gives a double of [[0, n]]. *)
Lemma binary_round_aux_below (M : positive) (E n : Z) :
  E <= 0 -> 0 <= n < 2 ^ 53 -> Zpos M <= n * 2 ^ (- E) ->
  below n (binary_round_aux 53 1024 false (Zpos M) E loc_Exact).
Proof.
  intros HE Hn HM. unfold binary_round_aux.
  pose proof (shr_fexp_below (Zpos M) E n ltac:(lia) HE Hn HM) as H1.
  destruct (shr_fexp 53 1024 (Zpos M) E loc_Exact) as [mrs' e'].
  cbv zeta in H1. destruct H1 as (He' & Hq & Hqm & Hm1).
  set (m1 := round_nearest_even (shr_m mrs') (loc_of_shr_record mrs')) in *.
  pose proof (shr_fexp_below m1 e' n ltac:(lia) He' Hn Hm1) as H2.
  destruct (shr_fexp 53 1024 m1 e' loc_Exact) as [mrs'' e''].
  cbv zeta in H2. destruct H2 as (He'' & Hq2 & Hqm2 & Hm2).
  destruct (shr_m mrs'') as [|m2|m2] eqn:Hm; [exact I| |lia].
  replace (e'' <=? 1024 - 53) with true by (symmetry; apply Z.leb_le; lia).
  cbn. split; [exact He''|lia].
Qed.

(** A valid ratio is a zero or a positive double of at most one. *)
Lemma valid_ratio_parts (r : double) :
  valid_ratio r ->
  (exists s, r = S754_zero s) \/
  (exists m e, r = S754_finite false m e /\ e <= 0 /\ Zpos m <= 2 ^ (- e)).
Proof.
  intros (Hv & H0 & H1). destruct r as [s| | |s m e].
  - left. exists s. reflexivity.
  - destruct s; discriminate.
  - discriminate.
  - right. destruct s; [discriminate|]. exists m, e. split; [reflexivity|].
    unfold valid_binary, bounded, canonical_mantissa in Hv.
    apply andb_prop in Hv as [Hc _]. apply Z.eqb_eq in Hc.
    change (fexp 53 1024) with fexp64 in Hc. rewrite fexp64_eq in Hc.
    pose proof (digits2_bounds m) as [_ Hhi].
    unfold SFleb, SFcompare, double_one in H1.
    destruct (Z.compare_spec e (-52)) as [He|He|He].
    + subst e. split; [lia|].
      rewrite Pos2Z.inj_compare in H1.
      destruct (Z.compare_spec (Zpos m) (Zpos 4503599627370496)) as [Hm|Hm|Hm];
        try discriminate; change (2 ^ (- -52)) with 4503599627370496; lia.
    + split; [lia|].
      eapply Z.le_trans; [apply Z.lt_le_incl, Hhi|].
      apply Z.pow_le_mono_r; lia.
    + discriminate.
Qed.

(** [n * testRatio], as the doubles compute it, is in [[0, n]]. *)
Lemma dmul_below (n : Z) (r : double) :
  0 <= n < 2 ^ 53 -> valid_ratio r -> below n (dmul (double_of_size_t n) r).
Proof.
  intros Hn Hr. apply valid_ratio_parts in Hr as [[s ->]|(m & e & -> & He & Hm)].
  - destruct (Z.eq_dec n 0) as [->|Hn0]; [exact I|].
    rewrite double_of_size_t_pos by lia.
    destruct (canon_parts (Z.to_pos n)) as (mn & en & -> & _);
      [rewrite Z2Pos.id; lia|]. exact I.
  - destruct (Z.eq_dec n 0) as [->|Hn0]; [exact I|].
    rewrite double_of_size_t_pos by lia.
    destruct (canon_parts (Z.to_pos n)) as (mn & en & -> & Hen & Hmn);
      [rewrite Z2Pos.id; lia|].
    rewrite Z2Pos.id in Hmn by lia.
    unfold dmul. cbn [SFmul xorb]. apply binary_round_aux_below; [lia|lia|].
    rewrite Pos2Z.inj_mul, Hmn.
    replace (- (en + e)) with (- en + - e) by lia. rewrite pow2_split by lia.
    pose proof (pow2_pos (- en) ltac:(lia)).
    rewrite <- Z.mul_assoc. apply Z.mul_le_mono_nonneg_l; [lia|].
    apply Z.mul_le_mono_nonneg_l; lia.
Qed.

(** ** The doubles of the partitioner *)

(** On a double of [[0, n]] the truncation of [static_cast<size_t>] is the
    floor, and [floor] gives the double of that integer. *)
Lemma below_floor (n : Z) (x : double) :
  0 <= n < 2 ^ 53 -> below n x ->
  0 <= Zfloor x <= n /\ size_t_of_double x = Some (Zfloor x) /\
  int_double (Zfloor x) (floor x).
Proof.
  intros Hn H. destruct x as [s| | |[|] m e]; try contradiction.
  - split; [simpl; lia|]. split; [reflexivity|].
    destruct s; [right|left]; split; reflexivity.
  - destruct H as [He Hm]. cbn [Zfloor cond_Zopp].
    pose proof (pow2_pos (- e) ltac:(lia)).
    assert (Ht : 0 <= Z.shiftl (Zpos m) e <= n).
    { replace e with (- - e) by lia. rewrite Z.shiftl_opp_r, Z.shiftr_div_pow2 by lia.
      split; [apply Z.div_pos; lia|]. apply Z.div_le_upper_bound; lia. }
    split; [exact Ht|]. split; [|left; reflexivity].
    unfold size_t_of_double, size_t_modulus. cbv zeta.
    replace (Z.shiftl (Zpos m) e <? 2 ^ 64) with true; [reflexivity|].
    symmetry. apply Z.ltb_lt. lia.
Qed.

(** [0 <= floor(n * testRatio) <= n] *)
Lemma test_count_bounds (n : Z) (r : double) :
  0 <= n < 2 ^ 53 -> valid_ratio r -> 0 <= test_count n r <= n.
Proof.
  intros Hn Hr. exact (proj1 (below_floor n _ Hn (dmul_below n r Hn Hr))).
Qed.

(** [static_cast<size_t>(n * testRatio)] is [floor(n * testRatio)]. *)
Lemma static_cast_test_count (n : Z) (r : double) :
  0 <= n < 2 ^ 53 -> valid_ratio r ->
  size_t_of_double (dmul (double_of_size_t n) r) = Some (test_count n r).
Proof.
  intros Hn Hr. exact (proj1 (proj2 (below_floor n _ Hn (dmul_below n r Hn Hr)))).
Qed.

Lemma floor_test_count (n : Z) (r : double) :
  0 <= n < 2 ^ 53 -> valid_ratio r ->
  int_double (test_count n r) (floor (dmul (double_of_size_t n) r)).
Proof.
  intros Hn Hr. exact (proj2 (proj2 (below_floor n _ Hn (dmul_below n r Hn Hr)))).
Qed.

Lemma double_of_size_t_cases (a : Z) :
  0 <= a < 2 ^ 53 ->
  (a = 0 /\ double_of_size_t a = S754_zero false) \/
  (0 < a /\ exists m e, double_of_size_t a = S754_finite false m e).
Proof.
  intros Ha. destruct (Z.eq_dec a 0) as [->|Hne]; [left; split; reflexivity|].
  right. split; [lia|]. rewrite double_of_size_t_pos by lia.
  unfold canon. eauto.
Qed.

(** Adding, subtracting and comparing with an integer whose zero may be
    negative. *)
Lemma dadd_int (a t : Z) (y : double) :
  0 <= a -> 0 <= t -> a + t < 2 ^ 53 -> int_double t y ->
  dadd (double_of_size_t a) y = double_of_size_t (a + t).
Proof.
  intros Ha Ht Hat [->|[-> ->]]; [now apply dadd_exact|].
  rewrite Z.add_0_r.
  destruct (double_of_size_t_cases a ltac:(lia)) as [[-> ->]|(_ & m & e & ->)];
    reflexivity.
Qed.

Lemma dsub_int (n t : Z) (y : double) :
  0 <= t <= n -> n < 2 ^ 53 -> int_double t y ->
  dsub (double_of_size_t n) y = double_of_size_t (n - t).
Proof.
  intros Ht Hn [->|[-> ->]]; [now apply dsub_exact|].
  rewrite Z.sub_0_r.
  destruct (double_of_size_t_cases n ltac:(lia)) as [[-> ->]|(_ & m & e & ->)];
    reflexivity.
Qed.

Lemma dlt_int (a t : Z) (y : double) :
  0 <= a < 2 ^ 53 -> 0 <= t < 2 ^ 53 -> int_double t y ->
  dlt (double_of_size_t a) y = (a <? t).
Proof.
  intros Ha Ht [->|[-> ->]]; [now apply dlt_exact|].
  destruct (double_of_size_t_cases a Ha) as [[-> ->]|(Hpos & m & e & ->)].
  - reflexivity.
  - cbn. symmetry. apply Z.ltb_ge. lia.
Qed.

(** [testSize += floor(labelCount * testRatio)] *)
Lemma cast_add (a n : Z) (r : double) :
  0 <= a -> 0 <= n -> a + n < 2 ^ 53 -> valid_ratio r ->
  size_t_of_double (dadd (double_of_size_t a) (floor (dmul (double_of_size_t n) r)))
  = Some (a + test_count n r).
Proof.
  intros Ha Hn Han Hr.
  pose proof (test_count_bounds n r ltac:(lia) Hr) as Hb.
  rewrite (dadd_int a (test_count n r)) by first [lia | apply floor_test_count; [lia|exact Hr]].
  apply size_t_of_double_of_size_t. lia.
Qed.

(** [trainSize += labelCount - floor(labelCount * testRatio)] *)
Lemma cast_add_sub (a n : Z) (r : double) :
  0 <= a -> 0 <= n -> a + n < 2 ^ 53 -> valid_ratio r ->
  size_t_of_double
    (dadd (double_of_size_t a)
          (dsub (double_of_size_t n) (floor (dmul (double_of_size_t n) r))))
  = Some (a + (n - test_count n r)).
Proof.
  intros Ha Hn Han Hr.
  pose proof (test_count_bounds n r ltac:(lia) Hr) as Hb.
  rewrite (dsub_int n (test_count n r)) by first [lia | apply floor_test_count; [lia|exact Hr]].
  rewrite dadd_exact by lia.
  apply size_t_of_double_of_size_t. lia.
Qed.
End Binary64.

(** ** Arithmetic of the sizes *)

Lemma double_exact_fits : (2 ^ 53 < size_t_modulus)%Z.
Proof. reflexivity. Qed.

Lemma size_t_wrap_small (z : Z) : (0 <= z < size_t_modulus)%Z -> size_t_wrap z = z.
Proof. intros H. unfold size_t_wrap. now apply Z.mod_small. Qed.

(** ** Loops *)

Lemma for_loop_inv {St} (P : nat -> St -> Prop) (body : nat -> St -> res St) (count : nat) :
  forall i s,
    P i s ->
    (forall k s, i <= k < i + count -> P k s -> exists s', body k s = Ok s' /\ P (S k) s') ->
    exists s', for_loop i count body s = Ok s' /\ P (i + count) s'.
Proof.
  induction count as [|count IH]; intros i s HP Hstep; simpl.
  - exists s. rewrite Nat.add_0_r. auto.
  - destruct (Hstep i s ltac:(lia) HP) as (s1 & -> & HP1).
    destruct (IH (S i) s1 HP1) as (s2 & Hs2 & HP2).
    + intros k s' Hk. apply Hstep. lia.
    + exists s2. split; [exact Hs2|]. now replace (i + S count) with (S i + count) by lia.
Qed.

Lemma for_loop_for_each {St} (body : nat -> St -> res St) (count : nat) :
  forall i s, for_loop i count body s = for_each (seq i count) body s.
Proof.
  induction count as [|count IH]; intros i s; simpl; [reflexivity|].
  destruct (body i s); [apply IH|reflexivity].
Qed.

Lemma for_each_inv {X St} (P : list X -> St -> Prop) (body : X -> St -> res St) :
  forall (todo seen : list X) s,
    P seen s ->
    (forall pre x post s, seen ++ todo = pre ++ x :: post -> length seen <= length pre ->
       P pre s -> exists s', body x s = Ok s' /\ P (pre ++ [x]) s') ->
    exists s', for_each todo body s = Ok s' /\ P (seen ++ todo) s'.
Proof.
  induction todo as [|x todo IH]; intros seen s HP Hstep; simpl.
  - exists s. rewrite app_nil_r. auto.
  - destruct (Hstep seen x todo s eq_refl (le_n _) HP) as (s1 & -> & HP1).
    destruct (IH (seen ++ [x]) s1 HP1) as (s2 & Hs2 & HP2).
    + intros pre y post s' Heq Hlen. apply (Hstep pre y post).
      * rewrite <- Heq, <- app_assoc. reflexivity.
      * rewrite length_app in Hlen. simpl in Hlen. lia.
    + exists s2. split; [exact Hs2|]. now rewrite <- app_assoc in HP2.
Qed.

(** ** Filling a container slot by slot *)

Lemma fill_step {X} (pre : list X) (m : nat) (x x0 : X) :
  <[length pre := x]> (pre ++ replicate (S m) x0) = (pre ++ [x]) ++ replicate m x0.
Proof.
  rewrite insert_app_r_alt by lia. rewrite Nat.sub_diag. simpl.
  now rewrite <- app_assoc.
Qed.

Lemma set_col_fill {X} (pre : list X) (m i : nat) (x x0 : X) :
  i = length pre ->
  set_col (pre ++ x0 :: replicate m x0) i x = Some ((pre ++ [x]) ++ replicate m x0).
Proof.
  intros ->. change (x0 :: replicate m x0) with (replicate (S m) x0).
  unfold set_col. rewrite length_app, length_replicate.
  destruct (decide _); [|lia]. now rewrite fill_step.
Qed.

Lemma length_select {X} (m : list X) (idx : list nat) : length (select m idx) = length idx.
Proof. unfold select. apply length_fmap. Qed.

Lemma select_app {X} (m : list X) (i1 i2 : list nat) :
  select m (i1 ++ i2) = select m i1 ++ select m i2.
Proof. unfold select. apply fmap_app. Qed.

Lemma select_seq {X} (m : list X) (i k : nat) :
  i + k <= length m -> select m (seq i k) = filled (take k (drop i m)).
Proof.
  revert i m. induction k as [|k IH]; intros i m H; simpl.
  - reflexivity.
  - destruct (lookup_lt_is_Some_2 m i ltac:(lia)) as [x Hx].
    rewrite (drop_S _ _ _ Hx). simpl. rewrite Hx. f_equal.
    apply IH. lia.
Qed.

Lemma select_filled {X} (m : list X) (idx : list nat) :
  Forall (fun j => j < length m) idx -> Forall is_Some (select m idx).
Proof.
  intros H. unfold select. apply Forall_fmap. eapply Forall_impl; [exact H|].
  intros j Hj. simpl. now apply lookup_lt_is_Some_2.
Qed.

Lemma shuffle_lookup_lt (shuffle : list nat -> list nat) (n i j : nat) :
  is_shuffle shuffle -> shuffle (linspace n) !! i = Some j -> j < n.
Proof.
  intros Hs Hj. apply list_elem_of_lookup_2 in Hj.
  apply list_elem_of_In in Hj. apply (Permutation_in _ (Hs _)) in Hj.
  apply in_seq in Hj. lia.
Qed.

Lemma shuffle_length (shuffle : list nat -> list nat) (n : nat) :
  is_shuffle shuffle -> length (shuffle (linspace n)) = n.
Proof.
  intros Hs. rewrite (Permutation_length (Hs _)). apply length_seq.
Qed.

(** ** The copy loops of [SplitHelper] *)

Section CopyLoops.
Context {A B : Type}.
Variables (input : list A) (inputLabel : list B) (order : list nat).
Hypothesis order_data : forall i j, order !! i = Some j -> j < length input.
Hypothesis order_label : forall i j, order !! i = Some j -> j < length inputLabel.

Lemma train_loop (k : nat) (TD : list (option A)) (TL : list (option B)) :
  k <= length order ->
  for_loop 0 k (fun i out =>
      j <- col order i or logic_error in out ;;
      c <- col input j or logic_error in out ;;
      td <- set_col (trainData out) i (Some c) or logic_error in out ;;
      let out := mkOutputs td (testData out) (trainLabel out) (testLabel out) in
      l <- col inputLabel j or logic_error in out ;;
      tl <- set_col (trainLabel out) i (Some l) or logic_error in out ;;
      Ok (mkOutputs (trainData out) (testData out) tl (testLabel out)))
    (mkOutputs (replicate k None) TD (replicate k None) TL)
  = Ok (mkOutputs (select input (take k order)) TD (select inputLabel (take k order)) TL).
Proof.
  intros Hk.
  edestruct (for_loop_inv (fun i out =>
      trainData out = select input (take i order) ++ replicate (k - i) None /\
      trainLabel out = select inputLabel (take i order) ++ replicate (k - i) None /\
      testData out = TD /\ testLabel out = TL)) as (s' & Hs' & HP).
  3: { rewrite Hs'. destruct s' as [a b c d]. simpl in HP.
       destruct HP as (-> & -> & -> & ->).
       rewrite Nat.sub_diag. simpl. now rewrite !app_nil_r. }
  - simpl. rewrite Nat.sub_0_r. auto.
  - intros i [td te tl tel] Hi (-> & -> & -> & ->). simpl in *.
    destruct (lookup_lt_is_Some_2 order i ltac:(lia)) as [j Hj].
    destruct (lookup_lt_is_Some_2 input j (order_data _ _ Hj)) as [c Hc].
    destruct (lookup_lt_is_Some_2 inputLabel j (order_label _ _ Hj)) as [l Hl].
    unfold col. rewrite Hj. simpl. rewrite Hc. simpl.
    replace (k - i) with (S (k - S i)) by lia. simpl.
    rewrite set_col_fill by (rewrite length_select, length_take; lia). simpl.
    rewrite Hl. simpl.
    rewrite set_col_fill by (rewrite length_select, length_take; lia). simpl.
    eexists. split; [reflexivity|]. simpl.
    rewrite (take_S_r _ _ _ Hj), !select_app. simpl. rewrite Hc, Hl. auto.
Qed.

Lemma test_loop (k m : nat) (TD : list (option A)) (TL : list (option B)) :
  k + m = length order ->
  for_loop k m (fun i out =>
      j <- col order i or logic_error in out ;;
      c <- col input j or logic_error in out ;;
      td <- set_col (testData out) (i - k) (Some c) or logic_error in out ;;
      let out := mkOutputs (trainData out) td (trainLabel out) (testLabel out) in
      l <- col inputLabel j or logic_error in out ;;
      tl <- set_col (testLabel out) (i - k) (Some l) or logic_error in out ;;
      Ok (mkOutputs (trainData out) (testData out) (trainLabel out) tl))
    (mkOutputs TD (replicate m None) TL (replicate m None))
  = Ok (mkOutputs TD (select input (drop k order)) TL (select inputLabel (drop k order))).
Proof.
  intros Hk.
  edestruct (for_loop_inv (fun i out =>
      testData out = select input (take (i - k) (drop k order))
                     ++ replicate (k + m - i) None /\
      testLabel out = select inputLabel (take (i - k) (drop k order))
                      ++ replicate (k + m - i) None /\
      trainData out = TD /\ trainLabel out = TL)) as (s' & Hs' & HP).
  3: { rewrite Hs'. destruct s' as [a b c d]. simpl in HP.
       destruct HP as (-> & -> & -> & ->).
       replace (k + m - k) with (length (drop k order))
         by (rewrite length_drop; lia).
       rewrite firstn_all, Nat.sub_diag.
       simpl. now rewrite !app_nil_r. }
  - simpl. rewrite Nat.sub_diag. replace (k + m - k) with m by lia. simpl. auto.
  - intros i [td te tl tel] Hi (-> & -> & -> & ->). simpl in *.
    destruct (lookup_lt_is_Some_2 order i ltac:(lia)) as [j Hj].
    destruct (lookup_lt_is_Some_2 input j (order_data _ _ Hj)) as [c Hc].
    destruct (lookup_lt_is_Some_2 inputLabel j (order_label _ _ Hj)) as [l Hl].
    unfold col. rewrite Hj. simpl. rewrite Hc. simpl.
    replace (k + m - i) with (S (k + m - S i)) by lia. simpl.
    rewrite set_col_fill by (rewrite length_select, length_take, length_drop; lia). simpl.
    rewrite Hl. simpl.
    rewrite set_col_fill by (rewrite length_select, length_take, length_drop; lia). simpl.
    eexists. split; [reflexivity|]. simpl.
    assert (Hd : drop k order !! (i - k) = Some j).
    { rewrite lookup_drop. now replace (k + (i - k)) with i by lia. }
    replace (S i - k) with (S (i - k)) by lia.
    rewrite (take_S_r _ _ _ Hd), !select_app. simpl. rewrite Hc, Hl. auto.
Qed.

(** The loops of the overload without labels. *)
Lemma train_loop_nolabel (k : nat) (TD : list (option A)) (TL TL' : list (option B)) :
  k <= length order ->
  for_loop 0 k (fun i out =>
      j <- col order i or logic_error in out ;;
      c <- col input j or logic_error in out ;;
      td <- set_col (trainData out) i (Some c) or logic_error in out ;;
      Ok (mkOutputs td (testData out) (trainLabel out) (testLabel out)))
    (mkOutputs (replicate k None) TD TL TL')
  = Ok (mkOutputs (select input (take k order)) TD TL TL').
Proof.
  intros Hk.
  edestruct (for_loop_inv (fun i out =>
      trainData out = select input (take i order) ++ replicate (k - i) None /\
      trainLabel out = TL /\ testData out = TD /\ testLabel out = TL'))
    as (s' & Hs' & HP).
  3: { rewrite Hs'. destruct s' as [a b c d]. simpl in HP.
       destruct HP as (-> & -> & -> & ->).
       rewrite Nat.sub_diag. simpl. now rewrite !app_nil_r. }
  - simpl. rewrite Nat.sub_0_r. auto.
  - intros i [td te tl tel] Hi (-> & -> & -> & ->). simpl in *.
    destruct (lookup_lt_is_Some_2 order i ltac:(lia)) as [j Hj].
    destruct (lookup_lt_is_Some_2 input j (order_data _ _ Hj)) as [c Hc].
    unfold col. rewrite Hj. simpl. rewrite Hc. simpl.
    replace (k - i) with (S (k - S i)) by lia. simpl.
    rewrite set_col_fill by (rewrite length_select, length_take; lia). simpl.
    eexists. split; [reflexivity|]. simpl.
    rewrite (take_S_r _ _ _ Hj), !select_app. simpl. rewrite Hc. auto.
Qed.

Lemma test_loop_nolabel (k m : nat) (TD : list (option A)) (TL TL' : list (option B)) :
  k + m = length order ->
  for_loop k m (fun i out =>
      j <- col order i or logic_error in out ;;
      c <- col input j or logic_error in out ;;
      td <- set_col (testData out) (i - k) (Some c) or logic_error in out ;;
      Ok (mkOutputs (trainData out) td (trainLabel out) (testLabel out)))
    (mkOutputs TD (replicate m None) TL TL')
  = Ok (mkOutputs TD (select input (drop k order)) TL TL').
Proof.
  intros Hk.
  edestruct (for_loop_inv (fun i out =>
      testData out = select input (take (i - k) (drop k order))
                     ++ replicate (k + m - i) None /\
      testLabel out = TL' /\ trainData out = TD /\ trainLabel out = TL))
    as (s' & Hs' & HP).
  3: { rewrite Hs'. destruct s' as [a b c d]. simpl in HP.
       destruct HP as (-> & -> & -> & ->).
       replace (k + m - k) with (length (drop k order))
         by (rewrite length_drop; lia).
       rewrite firstn_all, Nat.sub_diag.
       simpl. now rewrite !app_nil_r. }
  - simpl. rewrite Nat.sub_diag. replace (k + m - k) with m by lia. simpl. auto.
  - intros i [td te tl tel] Hi (-> & -> & -> & ->). simpl in *.
    destruct (lookup_lt_is_Some_2 order i ltac:(lia)) as [j Hj].
    destruct (lookup_lt_is_Some_2 input j (order_data _ _ Hj)) as [c Hc].
    unfold col. rewrite Hj. simpl. rewrite Hc. simpl.
    replace (k + m - i) with (S (k + m - S i)) by lia. simpl.
    rewrite set_col_fill by (rewrite length_select, length_take, length_drop; lia). simpl.
    eexists. split; [reflexivity|]. simpl.
    assert (Hd : drop k order !! (i - k) = Some j).
    { rewrite lookup_drop. now replace (k + (i - k)) with i by lia. }
    replace (S i - k) with (S (i - k)) by lia.
    rewrite (take_S_r _ _ _ Hd), !select_app. simpl. rewrite Hc. auto.
Qed.
End CopyLoops.

(** ** [SplitHelper] on a valid call *)

Section SplitHelperSpec.
Variable shuffle : list nat -> list nat.
Hypothesis shuffle_perm : is_shuffle shuffle.
Context {A B : Type}.

Lemma SplitHelper_shuffled (input : list A) (inputLabel : list B)
    (out : Outputs A B) (r : double) :
  fits_double input -> valid_ratio r -> length input <= length inputLabel ->
  let k := train_count (length input) r in
  let order := shuffle (linspace (length input)) in
  SplitHelper shuffle input inputLabel out r true
  = Ok (mkOutputs (select input (take k order)) (select input (drop k order))
                  (select inputLabel (take k order)) (select inputLabel (drop k order))).
Proof.
  intros Hfit Hr Hlen k order. unfold SplitHelper, fits_double, fits_size_t, n_cols in *.
  pose proof double_exact_fits as Hmod.
  pose proof (test_count_bounds (Z.of_nat (length input)) r ltac:(lia) Hr) as Ht.
  rewrite static_cast_test_count by (auto; lia). cbn [try].
  fold (train_count (length input) r) in k.
  set (t := test_count (Z.of_nat (length input)) r) in *.
  rewrite size_t_wrap_small by lia.
  assert (Hk : Z.to_nat (Z.of_nat (length input) - t) = k) by (unfold train_count in k; lia).
  rewrite Hk. fold order. unfold set_size. rewrite Hk.
  assert (Hord : length order = length input) by (apply shuffle_length, shuffle_perm).
  assert (Hod : forall i j, order !! i = Some j -> j < length input).
  { intros i j. apply shuffle_lookup_lt, shuffle_perm. }
  assert (Hol : forall i j, order !! i = Some j -> j < length inputLabel).
  { intros i j Hj. specialize (Hod i j Hj). lia. }
  assert (Hkn : k <= length input) by (unfold train_count in k; lia).
  replace (length input - k) with (Z.to_nat t) by (unfold train_count in k; lia).
  destruct (Z.gtb_spec (Z.of_nat (length input) - t) 0) as [Hpos|Hzero].
  - rewrite (train_loop input inputLabel order Hod Hol k) by lia. cbn [bind].
    destruct (Z.ltb_spec (Z.of_nat (length input) - t) (Z.of_nat (length input))).
    + now rewrite (test_loop input inputLabel order Hod Hol k (Z.to_nat t)) by lia.
    + assert (Z.to_nat t = 0) as -> by lia. simpl.
      rewrite drop_ge by lia. reflexivity.
  - assert (k = 0) as -> by lia. cbn [bind replicate].
    destruct (Z.ltb_spec (Z.of_nat (length input) - t) (Z.of_nat (length input))).
    + now rewrite (test_loop input inputLabel order Hod Hol 0 (Z.to_nat t)) by lia.
    + assert (Z.to_nat t = 0) as -> by lia. simpl.
      assert (length order = 0) by lia.
      destruct order; [reflexivity|discriminate].
Qed.

Lemma cols_prefix {X} (m : list X) (k : nat) :
  0 < k <= length m -> cols m 0 (Z.of_nat k - 1) = Some (take k m).
Proof.
  intros Hk. unfold cols, n_cols.
  destruct (Z.gtb_spec 0 (Z.of_nat k - 1)); [lia|].
  destruct (Z.geb_spec (Z.of_nat k - 1) (Z.of_nat (length m))); [lia|]. simpl.
  do 2 f_equal. lia.
Qed.

Lemma cols_suffix {X} (m : list X) (k : nat) :
  k < length m -> cols m (Z.of_nat k) (Z.of_nat (length m) - 1) = Some (drop k m).
Proof.
  intros Hk. unfold cols, n_cols.
  destruct (Z.gtb_spec (Z.of_nat k) (Z.of_nat (length m) - 1)); [lia|].
  destruct (Z.geb_spec (Z.of_nat (length m) - 1) (Z.of_nat (length m))); [lia|]. simpl.
  rewrite Nat2Z.id. rewrite take_ge; [reflexivity|]. rewrite length_drop. lia.
Qed.

Lemma SplitHelper_ordered (input : list A) (inputLabel : list B)
    (out : Outputs A B) (r : double) :
  fits_double input -> fits_size_t inputLabel -> valid_ratio r ->
  length input <= length inputLabel ->
  let k := train_count (length input) r in
  SplitHelper shuffle input inputLabel out r false
  = Ok (mkOutputs (filled (take k input)) (filled (drop k input))
                  (filled (take k inputLabel))
                  (if decide (k < length input) then filled (drop k inputLabel) else [])).
Proof.
  intros Hfit Hfitl Hr Hlen k. unfold SplitHelper, fits_double, fits_size_t, n_cols in *.
  pose proof double_exact_fits as Hmod.
  pose proof (test_count_bounds (Z.of_nat (length input)) r ltac:(lia) Hr) as Ht.
  rewrite static_cast_test_count by (auto; lia). cbn [try].
  fold (train_count (length input) r) in k.
  set (t := test_count (Z.of_nat (length input)) r) in *.
  rewrite size_t_wrap_small by lia.
  assert (Hk : (Z.of_nat (length input) - t)%Z = Z.of_nat k) by (unfold train_count in k; lia).
  rewrite Hk. unfold set_size. rewrite Nat2Z.id.
  assert (Hkn : k <= length input) by (unfold train_count in k; lia).
  assert (Ht0 : Z.to_nat t = length input - k) by lia.
  destruct (Z.gtb_spec (Z.of_nat k) 0) as [Hpos|Hzero].
  - rewrite !cols_prefix by lia. cbn [try bind trainData testData trainLabel testLabel].
    destruct (Z.ltb_spec (Z.of_nat k) (Z.of_nat (length input))).
    + rewrite size_t_wrap_small by lia. rewrite !cols_suffix by lia.
      cbn [try trainData testData trainLabel testLabel].
      destruct (decide _); [reflexivity|lia].
    + rewrite Ht0. replace (length input - k) with 0 by lia.
      destruct (decide _); [lia|]. rewrite drop_ge by lia. reflexivity.
  - assert (k = 0) as -> by lia. cbn [bind replicate].
    destruct (Z.ltb_spec (Z.of_nat 0) (Z.of_nat (length input))).
    + rewrite size_t_wrap_small by lia. rewrite !cols_suffix by lia.
      cbn [try trainData testData trainLabel testLabel].
      destruct (decide _); [reflexivity|lia].
    + destruct (decide _); [lia|]. rewrite Ht0.
      assert (length input = 0) as Hz by lia. rewrite Hz.
      destruct input; [reflexivity|discriminate].
Qed.

Lemma SplitHelper_nolabel_shuffled (input : list A) (out : Outputs A B) (r : double) :
  fits_double input -> valid_ratio r ->
  let k := train_count (length input) r in
  let order := shuffle (linspace (length input)) in
  SplitHelper_nolabel shuffle input out r true
  = Ok (mkOutputs (select input (take k order)) (select input (drop k order))
                  (trainLabel out) (testLabel out)).
Proof.
  intros Hfit Hr k order. unfold SplitHelper_nolabel, fits_double, n_cols in *.
  pose proof double_exact_fits as Hmod.
  pose proof (test_count_bounds (Z.of_nat (length input)) r ltac:(lia) Hr) as Ht.
  rewrite static_cast_test_count by (auto; lia). cbn [try].
  fold (train_count (length input) r) in k.
  set (t := test_count (Z.of_nat (length input)) r) in *.
  rewrite size_t_wrap_small by lia.
  assert (Hk : Z.to_nat (Z.of_nat (length input) - t) = k) by (unfold train_count in k; lia).
  rewrite Hk. fold order. unfold set_size. rewrite Hk.
  assert (Hord : length order = length input) by (apply shuffle_length, shuffle_perm).
  assert (Hod : forall i j, order !! i = Some j -> j < length input).
  { intros i j. apply shuffle_lookup_lt, shuffle_perm. }
  assert (Hkn : k <= length input) by (unfold train_count in k; lia).
  replace (length input - k) with (Z.to_nat t) by (unfold train_count in k; lia).
  destruct (Z.gtb_spec (Z.of_nat (length input) - t) 0) as [Hpos|Hzero].
  - rewrite (train_loop_nolabel input order Hod k) by lia. cbn [bind].
    destruct (Z.ltb_spec (Z.of_nat (length input) - t) (Z.of_nat (length input))).
    + now rewrite (test_loop_nolabel input order Hod k (Z.to_nat t)) by lia.
    + assert (Z.to_nat t = 0) as -> by lia. simpl.
      rewrite drop_ge by lia. reflexivity.
  - assert (k = 0) as -> by lia. cbn [bind replicate].
    destruct (Z.ltb_spec (Z.of_nat (length input) - t) (Z.of_nat (length input))).
    + now rewrite (test_loop_nolabel input order Hod 0 (Z.to_nat t)) by lia.
    + assert (Z.to_nat t = 0) as -> by lia. simpl.
      assert (length order = 0) by lia.
      destruct order; [reflexivity|discriminate].
Qed.

Lemma SplitHelper_nolabel_ordered (input : list A) (out : Outputs A B) (r : double) :
  fits_double input -> valid_ratio r ->
  let k := train_count (length input) r in
  SplitHelper_nolabel shuffle input out r false
  = Ok (mkOutputs (filled (take k input)) (filled (drop k input))
                  (trainLabel out) (testLabel out)).
Proof.
  intros Hfit Hr k. unfold SplitHelper_nolabel, fits_double, n_cols in *.
  pose proof double_exact_fits as Hmod.
  pose proof (test_count_bounds (Z.of_nat (length input)) r ltac:(lia) Hr) as Ht.
  rewrite static_cast_test_count by (auto; lia). cbn [try].
  fold (train_count (length input) r) in k.
  set (t := test_count (Z.of_nat (length input)) r) in *.
  rewrite size_t_wrap_small by lia.
  assert (Hk : (Z.of_nat (length input) - t)%Z = Z.of_nat k) by (unfold train_count in k; lia).
  rewrite Hk. unfold set_size. rewrite Nat2Z.id.
  assert (Hkn : k <= length input) by (unfold train_count in k; lia).
  assert (Ht0 : Z.to_nat t = length input - k) by lia.
  destruct (Z.gtb_spec (Z.of_nat k) 0) as [Hpos|Hzero].
  - rewrite !cols_prefix by lia. cbn [try bind trainData testData trainLabel testLabel].
    destruct (Z.ltb_spec (Z.of_nat k) (Z.of_nat (length input))).
    + rewrite !cols_suffix by lia. reflexivity.
    + rewrite Ht0. replace (length input - k) with 0 by lia.
      rewrite drop_ge by lia. reflexivity.
  - assert (k = 0) as -> by lia. cbn [bind replicate].
    destruct (Z.ltb_spec (Z.of_nat 0) (Z.of_nat (length input))).
    + rewrite !cols_suffix by lia. reflexivity.
    + rewrite Ht0.
      assert (length input = 0) as Hz by lia. rewrite Hz.
      destruct input; [reflexivity|discriminate].
Qed.
End SplitHelperSpec.

(** ** [StratifiedSplit]: counting the classes *)

Lemma lookup_tabulate {X} (f : nat -> X) (n i : nat) :
  i < n -> tabulate f n !! i = Some (f i).
Proof.
  intros Hi. unfold tabulate. rewrite list_lookup_fmap, lookup_seq_lt by exact Hi.
  reflexivity.
Qed.

Lemma length_tabulate {X} (f : nat -> X) (n : nat) : length (tabulate f n) = n.
Proof. unfold tabulate. now rewrite length_fmap, length_seq. Qed.

Lemma insert_tabulate {X} (f g : nat -> X) (n x : nat) :
  (forall c, c <> x -> g c = f c) ->
  <[x := g x]> (tabulate f n) = tabulate g n.
Proof.
  intros Hfg. apply list_eq. intros i.
  destruct (decide (i < n)) as [Hi|Hi].
  - rewrite (lookup_tabulate g) by exact Hi.
    destruct (decide (i = x)) as [->|Hne].
    + rewrite list_lookup_insert_eq by (now rewrite length_tabulate). reflexivity.
    + rewrite list_lookup_insert_ne by auto. rewrite lookup_tabulate by exact Hi.
      now rewrite Hfg.
  - rewrite !lookup_ge_None_2; rewrite ?length_insert, ?length_tabulate; auto; lia.
Qed.

Lemma insert_tabulate' {X} (f g : nat -> X) (n x : nat) (v : X) :
  (forall c, c <> x -> g c = f c) /\ v = g x ->
  <[x := v]> (tabulate f n) = tabulate g n.
Proof. intros [H ->]. now apply insert_tabulate. Qed.

Lemma tabulate_ext {X} (f g : nat -> X) (n : nat) :
  (forall c, c < n -> f c = g c) -> tabulate f n = tabulate g n.
Proof.
  intros H. unfold tabulate. apply list_fmap_ext. intros i c Hc.
  apply lookup_seq in Hc as [-> Hc]. now apply H.
Qed.

Lemma tabulate_const {X} (x : X) (n : nat) : replicate n x = tabulate (fun _ => x) n.
Proof.
  apply list_eq. intros i. destruct (decide (i < n)) as [Hi|Hi].
  - now rewrite lookup_tabulate, lookup_replicate_2.
  - rewrite !lookup_ge_None_2; rewrite ?length_replicate, ?length_tabulate; auto; lia.
Qed.

Lemma class_count_snoc (pre : list nat) (x c : nat) :
  class_count (pre ++ [x]) c = class_count pre c + (if decide (x = c) then 1 else 0).
Proof.
  unfold class_count. rewrite filter_app, length_app. f_equal.
  rewrite filter_cons, filter_nil. now destruct (decide (x = c)).
Qed.

Lemma arma_max_bound (labels : list nat) (M : nat) :
  arma_max labels = Some M -> Forall (fun l => l <= M) labels.
Proof.
  destruct labels as [|x v]; [discriminate|]. simpl. intros [= <-].
  assert (H : forall v a, a <= foldl Nat.max a v /\ Forall (fun l => l <= foldl Nat.max a v) v).
  { clear. induction v as [|y v IH]; intros a; simpl; [auto|].
    destruct (IH (Nat.max a y)) as [H1 H2]. split; [lia|].
    constructor; [lia|exact H2]. }
  destruct (H v x). now constructor.
Qed.

Lemma arma_max_elem (labels : list nat) (M : nat) :
  arma_max labels = Some M -> M ∈ labels.
Proof.
  destruct labels as [|x v]; [discriminate|]. simpl. intros [= <-].
  assert (H : forall v a, foldl Nat.max a v = a \/ foldl Nat.max a v ∈ v).
  { clear. induction v as [|y v IH]; intros a; simpl; [auto|].
    destruct (IH (Nat.max a y)) as [H|H].
    - rewrite H. destruct (Nat.max_spec a y) as [[_ ->]|[_ ->]]; [right; left|auto].
    - right. now right. }
  destruct (H v x) as [->|Hin]; [left|now right].
Qed.

Lemma count_loop (labels : list nat) (M : nat) :
  Forall (fun l => l <= M) labels ->
  for_each labels (fun label labelCounts =>
      n <- at_unchecked labelCounts label or undefined_behaviour in labelCounts ;;
      Ok (<[label := (n + 1)%Z]> labelCounts)) (replicate (S M) 0%Z)
  = Ok (counts_of labels M).
Proof.
  intros HM.
  edestruct (for_each_inv (fun pre lc => lc = counts_of pre M)) with (seen := @nil nat)
    as (s' & Hs' & HP).
  3: { simpl in HP. rewrite Hs', HP. reflexivity. }
  - unfold counts_of. simpl class_count. apply tabulate_const.
  - intros pre x post lc Heq _ ->. simpl in Heq.
    assert (Hx : x <= M).
    { rewrite Forall_forall in HM. apply HM. rewrite Heq.
      apply list_elem_of_In, in_elt. }
    unfold at_unchecked, counts_of. rewrite lookup_tabulate by lia. cbn [try].
    eexists. split; [reflexivity|].
    rewrite <- (insert_tabulate (fun c => Z.of_nat (class_count pre c))
                  (fun c => Z.of_nat (class_count (pre ++ [x]) c)) (S M) x).
    + f_equal. rewrite class_count_snoc. destruct (decide (x = x)); [lia|congruence].
    + intros c Hc. rewrite class_count_snoc. destruct (decide (x = c)); [congruence|].
      f_equal. lia.
Qed.

(** ** [StratifiedSplit]: the sizes of the outputs *)

Lemma Zsum_nonneg (l : list Z) : Forall (fun z => (0 <= z)%Z) l -> (0 <= Zsum l)%Z.
Proof. induction 1; simpl; lia. Qed.

Lemma sizes_loop (r : double) (LC : list Z) :
  valid_ratio r -> Forall (fun z => (0 <= z)%Z) LC ->
  forall a b : Z,
    (0 <= a)%Z -> (0 <= b)%Z -> (a + b + Zsum LC < 2 ^ 53)%Z ->
    for_each LC (fun labelCount '(trainSize, testSize) =>
        let sizes := (trainSize, testSize) in
        testSize <- size_t_of_double
            (dadd (double_of_size_t testSize)
                  (floor (dmul (double_of_size_t labelCount) r)))
          or undefined_behaviour in sizes ;;
        let sizes := (trainSize, testSize) in
        trainSize <- size_t_of_double
            (dadd (double_of_size_t trainSize)
                  (dsub (double_of_size_t labelCount)
                        (floor (dmul (double_of_size_t labelCount) r))))
          or undefined_behaviour in sizes ;;
        Ok (trainSize, testSize)) (a, b)
    = Ok ((a + Zsum ((fun lc => lc - test_count lc r) <$> LC))%Z,
          (b + Zsum ((fun lc => test_count lc r) <$> LC))%Z).
Proof.
  intros Hr. induction 1 as [|lc LC Hlc HLC IH]; intros a b Ha Hb Hsum;
    cbn [for_each fmap list_fmap Zsum foldr].
  - now rewrite !Z.add_0_r.
  - cbn [Zsum foldr] in Hsum. fold (Zsum LC) in Hsum.
    pose proof (Zsum_nonneg LC HLC) as Hnn.
    pose proof (test_count_bounds lc r ltac:(lia) Hr) as Hf.
    rewrite cast_add by first [exact Hr | lia]. cbn [try].
    rewrite cast_add_sub by first [exact Hr | lia]. cbn [try].
    rewrite IH by lia.
    fold (Zsum ((fun lc => lc - test_count lc r)%Z <$> LC)).
    fold (Zsum ((fun lc => test_count lc r) <$> LC)).
    rewrite <- !Z.add_assoc. reflexivity.
Qed.

Lemma tabulate_S {X} (f : nat -> X) (n : nat) : tabulate f (S n) = tabulate f n ++ [f n].
Proof. unfold tabulate. now rewrite seq_S, fmap_app. Qed.

Lemma fmap_tabulate {X Y} (g : X -> Y) (f : nat -> X) (n : nat) :
  g <$> tabulate f n = tabulate (fun c => g (f c)) n.
Proof. unfold tabulate. now rewrite <- list_fmap_compose. Qed.

Lemma Zsum_app (l1 l2 : list Z) : Zsum (l1 ++ l2) = (Zsum l1 + Zsum l2)%Z.
Proof. induction l1 as [|x l1 IH]; simpl; [reflexivity|]. rewrite IH. lia. Qed.

Lemma Zsum_tabulate_S (f : nat -> Z) (n : nat) :
  Zsum (tabulate f (S n)) = (Zsum (tabulate f n) + f n)%Z.
Proof. rewrite tabulate_S, Zsum_app. simpl. lia. Qed.

Lemma Zsum_tabulate_le (f g : nat -> Z) (n : nat) :
  (forall c, c < n -> (f c <= g c)%Z) -> (Zsum (tabulate f n) <= Zsum (tabulate g n))%Z.
Proof.
  induction n as [|n IH]; intros H; [reflexivity|].
  rewrite !Zsum_tabulate_S. specialize (H n (Nat.lt_succ_diag_r n)) as Hn.
  assert (Zsum (tabulate f n) <= Zsum (tabulate g n))%Z by (apply IH; auto). lia.
Qed.

Lemma Zsum_tabulate_lt (f g : nat -> Z) (n c0 : nat) :
  (forall c, c < n -> (f c <= g c)%Z) -> c0 < n -> (f c0 < g c0)%Z ->
  (Zsum (tabulate f n) < Zsum (tabulate g n))%Z.
Proof.
  induction n as [|n IH]; intros H Hc0 Hlt; [lia|].
  rewrite !Zsum_tabulate_S. specialize (H n (Nat.lt_succ_diag_r n)) as Hn.
  destruct (decide (c0 = n)) as [->|Hne].
  - assert (Zsum (tabulate f n) <= Zsum (tabulate g n))%Z
      by (apply Zsum_tabulate_le; auto). lia.
  - assert (Zsum (tabulate f n) < Zsum (tabulate g n))%Z by (apply IH; auto; lia). lia.
Qed.

Lemma Zsum_tabulate_ext (f g : nat -> Z) (n : nat) :
  (forall c, c < n -> f c = g c) -> Zsum (tabulate f n) = Zsum (tabulate g n).
Proof.
  intros H. apply Z.le_antisymm; apply Zsum_tabulate_le; intros c Hc;
    rewrite (H c Hc); reflexivity.
Qed.

Lemma Zsum_tabulate_add (f g : nat -> Z) (n : nat) :
  Zsum (tabulate (fun c => f c + g c)%Z n) = (Zsum (tabulate f n) + Zsum (tabulate g n))%Z.
Proof. induction n as [|n IH]; [reflexivity|]. rewrite !Zsum_tabulate_S, IH. lia. Qed.

Lemma Zsum_tabulate_indicator (x n : nat) :
  x < n -> Zsum (tabulate (fun c => if decide (x = c) then 1 else 0)%Z n) = 1%Z.
Proof.
  induction n as [|n IH]; intros Hx; [lia|]. rewrite Zsum_tabulate_S.
  destruct (decide (x = n)) as [->|Hne].
  - rewrite (Zsum_tabulate_ext _ (fun _ => 0%Z)).
    + assert (Zsum (tabulate (fun _ => 0%Z) n) = 0%Z) as ->; [|reflexivity].
      clear. induction n as [|n IH]; [reflexivity|]. rewrite Zsum_tabulate_S, IH. reflexivity.
    + intros c Hc. destruct (decide (n = c)); [lia|reflexivity].
  - rewrite IH by lia. lia.
Qed.

(** ** [StratifiedSplit]: class membership of index lists *)

Lemma members_cons (labels : list nat) (c i : nat) (idx : list nat) :
  length (members labels c (i :: idx))
  = (if decide (labels !! i = Some c) then 1 else 0) + length (members labels c idx).
Proof. unfold members. rewrite filter_cons. now destruct (decide _). Qed.

Lemma members_app (labels : list nat) (c : nat) (i1 i2 : list nat) :
  length (members labels c (i1 ++ i2))
  = length (members labels c i1) + length (members labels c i2).
Proof. unfold members. now rewrite filter_app, length_app. Qed.

Lemma members_perm (labels : list nat) (c : nat) (i1 i2 : list nat) :
  i1 ≡ₚ i2 -> length (members labels c i1) = length (members labels c i2).
Proof. intros H. unfold members. now rewrite H. Qed.

Lemma members_seq (pre labels : list nat) (c : nat) :
  length (members (pre ++ labels) c (seq (length pre) (length labels)))
  = class_count labels c.
Proof.
  revert pre. induction labels as [|x labels IH]; intros pre; [reflexivity|].
  simpl length. simpl seq. rewrite members_cons.
  unfold class_count. rewrite filter_cons.
  rewrite lookup_app_r, Nat.sub_diag by lia. simpl.
  specialize (IH (pre ++ [x])). rewrite <- app_assoc, length_app in IH. simpl in IH.
  rewrite Nat.add_1_r in IH. rewrite IH. unfold class_count.
  destruct (decide (x = c)) as [->|Hne].
  - destruct (decide _); [reflexivity|congruence].
  - destruct (decide _); [congruence|reflexivity].
Qed.

Lemma members_all (labels : list nat) (c : nat) :
  length (members labels c (seq 0 (length labels))) = class_count labels c.
Proof. apply (members_seq [] labels c). Qed.

(** The classes partition an index list whose labels are at most [M]. *)
Lemma members_total (labels : list nat) (M : nat) (idx : list nat) :
  Forall (fun i => exists l, labels !! i = Some l /\ l <= M) idx ->
  Zsum (tabulate (fun c => Z.of_nat (length (members labels c idx))) (S M))
  = Z.of_nat (length idx).
Proof.
  induction 1 as [|i idx (l & Hl & HlM) _ IH]; simpl length.
  - rewrite (Zsum_tabulate_ext _ (fun c => if decide (S M = c) then 1 else 0)%Z).
    + clear. assert (H : forall n, n <= S M ->
        Zsum (tabulate (fun c => if decide (S M = c) then 1 else 0)%Z n) = 0%Z).
      { induction n as [|n IH]; intros Hn; [reflexivity|]. rewrite Zsum_tabulate_S, IH by lia.
        destruct (decide (S M = n)); [lia|reflexivity]. }
      now apply H.
    + intros c Hc. destruct (decide (S M = c)); [lia|reflexivity].
  - rewrite (Zsum_tabulate_ext _ (fun c => (if decide (l = c) then 1 else 0)
                                          + Z.of_nat (length (members labels c idx)))%Z).
    + rewrite Zsum_tabulate_add, IH, Zsum_tabulate_indicator by lia. lia.
    + intros c Hc. rewrite members_cons, Hl.
      destruct (decide (l = c)) as [->|Hne].
      * destruct (decide _); [lia|congruence].
      * destruct (decide _); [congruence|lia].
Qed.

(** ** [StratifiedSplit]: the assignment loop *)

Lemma class_count_le (labels : list nat) (c : nat) : class_count labels c <= length labels.
Proof. unfold class_count. apply length_filter. Qed.

Lemma class_count_fits (labels : list nat) (c : nat) :
  fits_double labels -> (0 <= Z.of_nat (class_count labels c) < 2 ^ 53)%Z.
Proof.
  unfold fits_double, n_cols. intros H. pose proof (class_count_le labels c). lia.
Qed.

Lemma class_test_count_le (labels : list nat) (r : double) (c : nat) :
  valid_ratio r -> fits_double labels ->
  class_test_count labels r c <= class_count labels c.
Proof.
  intros Hr Hfit. unfold class_test_count.
  pose proof (test_count_bounds (Z.of_nat (class_count labels c)) r
                (class_count_fits labels c Hfit) Hr). lia.
Qed.

Lemma budget_test (r : double) (a k : nat) :
  valid_ratio r -> (Z.of_nat k < 2 ^ 53)%Z -> a <= k ->
  dlt (double_of_size_t (Z.of_nat a))
      (floor (dmul (double_of_size_t (Z.of_nat k)) r))
  = bool_decide (a < Z.to_nat (test_count (Z.of_nat k) r)).
Proof.
  intros Hr Hk Hak.
  pose proof (test_count_bounds (Z.of_nat k) r ltac:(lia) Hr) as Hb.
  rewrite (dlt_int _ (test_count (Z.of_nat k) r))
    by first [lia | apply floor_test_count; [lia|exact Hr]].
  destruct (Z.ltb_spec (Z.of_nat a) (test_count (Z.of_nat k) r)).
  - rewrite bool_decide_eq_true_2; [reflexivity|lia].
  - rewrite bool_decide_eq_false_2; [reflexivity|lia].
Qed.

Section AssignLoop.
Context {A : Type}.
Variables (input : list A) (labels : list nat) (r : double) (M : nat) (order : list nat).
Hypothesis ratio_ok : valid_ratio r.
Hypothesis labels_small : fits_double labels.
Hypothesis enough_labels : length input <= length labels.
Hypothesis max_ok : Forall (fun l => l <= M) labels.
Hypothesis order_perm : order ≡ₚ seq 0 (length input).

Local Abbreviation TS := (Z.to_nat (stratified_test_size labels r M)).
Local Abbreviation TR := (Z.to_nat (stratified_train_size labels r M)).
Local Abbreviation assign_inv := (assign_invariant input labels r M).

Lemma order_index (i : nat) : i ∈ order -> i < length input.
Proof.
  intros Hi. rewrite order_perm in Hi. apply list_elem_of_In, in_seq in Hi. lia.
Qed.

Lemma index_label (idx : list nat) :
  idx ⊆ order -> Forall (fun i => exists l, labels !! i = Some l /\ l <= M) idx.
Proof.
  intros Hsub. apply Forall_forall. intros i Hi.
  pose proof (order_index i (Hsub i Hi)) as Hin.
  destruct (lookup_lt_is_Some_2 labels i ltac:(lia)) as [l Hl].
  exists l. split; [exact Hl|].
  rewrite Forall_forall in max_ok. apply max_ok. eapply list_elem_of_lookup_2, Hl.
Qed.

Lemma class_budget_total (pre : list nat) (x : nat) (post : list nat) (c : nat) :
  order = pre ++ x :: post ->
  length (members labels c pre) + (if decide (labels !! x = Some c) then 1 else 0)
  <= class_count labels c.
Proof.
  intros Heq. rewrite <- members_all.
  replace (seq 0 (length labels))
    with (seq 0 (length input) ++ seq (length input) (length labels - length input)).
  - rewrite members_app, <- (members_perm labels c _ _ order_perm), Heq.
    rewrite members_app, members_cons. lia.
  - rewrite <- seq_app. f_equal. lia.
Qed.

(** The two lists of indices after the visit of [x]. *)
Lemma assign_branch (pre : list nat) (x : nat) (tr te : list nat) (l : nat) :
  tr ++ te ≡ₚ pre ->
  (forall c, length (members labels c te)
             = Nat.min (length (members labels c pre)) (class_test_count labels r c)) ->
  labels !! x = Some l ->
  (length (members labels l te) < class_test_count labels r l ->
     tr ++ (te ++ [x]) ≡ₚ pre ++ [x] /\
     forall c, length (members labels c (te ++ [x]))
               = Nat.min (length (members labels c (pre ++ [x])))
                         (class_test_count labels r c)) /\
  (~ length (members labels l te) < class_test_count labels r l ->
     (tr ++ [x]) ++ te ≡ₚ pre ++ [x] /\
     forall c, length (members labels c te)
               = Nat.min (length (members labels c (pre ++ [x])))
                         (class_test_count labels r c)).
Proof.
  intros Hperm Hmin Hl. split; intros Hb; split.
  - rewrite app_assoc. now apply Permutation_app_tail.
  - intros c. rewrite !members_app, !members_cons, Hl. simpl.
    destruct (decide (Some l = Some c)) as [[= <-]|Hne]; [specialize (Hmin l); lia|].
    specialize (Hmin c). lia.
  - rewrite <- Hperm. rewrite <- !app_assoc. apply Permutation_app_head.
    simpl. apply Permutation_cons_append.
  - intros c. rewrite !members_app, !members_cons, Hl. simpl.
    destruct (decide (Some l = Some c)) as [[= <-]|Hne]; [specialize (Hmin l); lia|].
    specialize (Hmin c). lia.
Qed.

(** One visit of the assignment loop, from the state of [tr] and [te]. *)
Lemma assign_explicit (pre : list nat) (x : nat) (post tr te : list nat) (l : nat) :
  order = pre ++ x :: post -> tr ++ te ≡ₚ pre ->
  (forall c, length (members labels c te)
             = Nat.min (length (members labels c pre)) (class_test_count labels r c)) ->
  labels !! x = Some l ->
  assign input labels (counts_of labels M) r x (assign_state input labels r M tr te)
  = Ok (if decide (length (members labels l te) < class_test_count labels r l)
        then assign_state input labels r M tr (te ++ [x])
        else assign_state input labels r M (tr ++ [x]) te).
Proof.
  intros Heq Hperm Hmin Hl.
  assert (Hsub : pre ++ [x] ⊆ order).
  { rewrite Heq. intros i Hi. apply elem_of_app in Hi as [Hi|Hi].
    - apply elem_of_app. now left.
    - apply elem_of_app. right. apply elem_of_cons. left.
      now apply list_elem_of_singleton in Hi. }
  pose proof (index_label _ Hsub) as Hlab.
  apply Forall_app in Hlab as [Hlab_pre Hlab_x].
  apply Forall_singleton in Hlab_x as (l' & Hl' & HlM).
  rewrite Hl in Hl'. injection Hl' as <-.
  assert (Hx : x < length input).
  { apply order_index, Hsub, elem_of_app. right. now apply list_elem_of_singleton. }
  destruct (lookup_lt_is_Some_2 input x Hx) as [cx Hcx].
  assert (Hsplit : forall c, length (members labels c tr) + length (members labels c te)
                             = length (members labels c pre)).
  { intros c. now rewrite <- members_app, (members_perm _ _ _ _ Hperm). }
  assert (Hlab_tr : Forall (fun i => exists l, labels !! i = Some l /\ l <= M) tr).
  { rewrite <- Hperm in Hlab_pre. now apply Forall_app in Hlab_pre as [? _]. }
  assert (Hlab_te : Forall (fun i => exists l, labels !! i = Some l /\ l <= M) te).
  { rewrite <- Hperm in Hlab_pre. now apply Forall_app in Hlab_pre as [_ ?]. }
  pose proof (members_total labels M tr Hlab_tr) as Htr_tot.
  pose proof (members_total labels M te Hlab_te) as Hte_tot.
  unfold assign_state at 1.
  unfold assign, at_unchecked, col, counts_of. cbn [testLabelCounts s_out trainIdx testIdx].
  rewrite Hl. cbn [try]. rewrite !lookup_tabulate by lia. cbn [try].
  pose proof (Hmin l) as Hminl.
  pose proof (class_budget_total pre x post l Heq) as Hbud.
  rewrite Hl in Hbud. destruct (decide (Some l = Some l)) as [_|]; [|congruence].
  pose proof (class_test_count_le labels r l ratio_ok labels_small) as Hctl.
  rewrite budget_test
    by first [exact ratio_ok | apply (class_count_fits labels l labels_small) | lia].
  fold (class_test_count labels r l).
  destruct (bool_decide_reflect
              (length (members labels l te) < class_test_count labels r l)) as [Hlt|Hge].
  - (* the sample goes to the test set *)
    destruct (decide _) as [_|]; [|contradiction].
    assert (Hroom : length te < TS).
    { unfold stratified_test_size, Zsum_to.
      apply Nat2Z.inj_lt. rewrite <- Hte_tot, Z2Nat.id.
      - apply (Zsum_tabulate_lt _ _ _ l); [|lia|lia].
        intros c _. rewrite (Hmin c). lia.
      - apply Zsum_nonneg, Forall_fmap, Forall_forall. intros; simpl; lia. }
    cbn [testLabelCounts s_out trainIdx testIdx testData testLabel trainData trainLabel].
    rewrite Hcx. cbn [try].
    replace (TS - length te) with (S (TS - S (length te))) by lia. simpl replicate.
    rewrite set_col_fill by (now rewrite length_select). cbn [try].
    cbn [testLabelCounts s_out trainIdx testIdx testData testLabel trainData trainLabel].
    unfold set_unchecked. fold (set_col (select labels te ++ None :: replicate (TS - S (length te)) None)
                                  (length te) (Some l)).
    rewrite set_col_fill by (now rewrite length_select). cbn [try].
    unfold assign_state. rewrite !select_app, !length_app. simpl.
    rewrite Hcx, Hl. f_equal. f_equal.
    + repeat f_equal; lia.
    + apply insert_tabulate'. split.
      * intros c Hc. rewrite members_app, members_cons, Hl.
        destruct (decide (Some l = Some c)) as [[= ->]|Hne]; [congruence|].
        f_equal. simpl. lia.
      * rewrite members_app, members_cons, Hl.
        destruct (decide (Some l = Some l)) as [_|]; [|congruence]. simpl. lia.
  - (* the sample goes to the training set *)
    destruct (decide _) as [|_]; [contradiction|].
    assert (Hroom : length tr < TR).
    { unfold stratified_train_size, Zsum_to.
      apply Nat2Z.inj_lt. rewrite <- Htr_tot, Z2Nat.id.
      - apply (Zsum_tabulate_lt _ _ _ l); [|lia|].
        + intros c _. specialize (Hsplit c). specialize (Hmin c).
          pose proof (class_budget_total pre x post c Heq).
          pose proof (class_test_count_le labels r c ratio_ok labels_small).
          destruct (decide (labels !! x = Some c)); lia.
        + specialize (Hsplit l). lia.
      - apply Zsum_nonneg, Forall_fmap, Forall_forall. intros c _. simpl.
        pose proof (class_test_count_le labels r c ratio_ok labels_small). lia. }
    cbn [testLabelCounts s_out trainIdx testIdx testData testLabel trainData trainLabel].
    rewrite Hcx. cbn [try].
    replace (TR - length tr) with (S (TR - S (length tr))) by lia. simpl replicate.
    rewrite set_col_fill by (now rewrite length_select). cbn [try].
    cbn [testLabelCounts s_out trainIdx testIdx testData testLabel trainData trainLabel].
    unfold set_unchecked. fold (set_col (select labels tr ++ None :: replicate (TR - S (length tr)) None)
                                  (length tr) (Some l)).
    rewrite set_col_fill by (now rewrite length_select). cbn [try].
    unfold assign_state. rewrite !select_app, !length_app. simpl.
    rewrite Hcx, Hl. f_equal. f_equal. repeat f_equal; lia.
Qed.

Lemma assign_step (pre : list nat) (x : nat) (post : list nat) (st : Strat A) :
  order = pre ++ x :: post -> assign_inv pre st ->
  exists st', assign input labels (counts_of labels M) r x st = Ok st'
              /\ assign_inv (pre ++ [x]) st'.
Proof.
  intros Heq (tr & te & Hperm & Hout & Htri & Htei & Htlc & Hmin).
  assert (Hin : x ∈ order).
  { rewrite Heq. apply elem_of_app. right. now left. }
  pose proof (order_index x Hin) as Hx.
  destruct (lookup_lt_is_Some_2 labels x ltac:(lia)) as [l Hl].
  assert (Hst : st = assign_state input labels r M tr te).
  { destruct st as [o tri tei tlc]. simpl in Hout, Htri, Htei, Htlc. now subst. }
  rewrite Hst, (assign_explicit pre x post tr te l Heq Hperm Hmin Hl).
  destruct (assign_branch pre x tr te l Hperm Hmin Hl) as [Htest Htrain].
  destruct (decide _) as [Hlt|Hge]; (eexists; split; [reflexivity|]).
  - destruct (Htest Hlt) as [Hp Hm]. exists tr, (te ++ [x]).
    split; [exact Hp|]. do 4 (split; [reflexivity|]). exact Hm.
  - destruct (Htrain Hge) as [Hp Hm]. exists (tr ++ [x]), te.
    split; [exact Hp|]. do 4 (split; [reflexivity|]). exact Hm.
Qed.

(** The whole loop ends in the state of the greedy assignment. *)
Lemma assign_greedy :
  let idx := greedy labels (class_test_count labels r) order in
  for_each order (assign input labels (counts_of labels M) r)
    (assign_state input labels r M [] [])
  = Ok (assign_state input labels r M (fst idx) (snd idx)) /\
  fst idx ++ snd idx ≡ₚ order /\
  forall c, length (members labels c (snd idx))
            = Nat.min (length (members labels c order)) (class_test_count labels r c).
Proof.
  intros idx.
  edestruct (for_each_inv (fun pre st =>
      let idx := greedy labels (class_test_count labels r) pre in
      st = assign_state input labels r M (fst idx) (snd idx) /\
      fst idx ++ snd idx ≡ₚ pre /\
      forall c, length (members labels c (snd idx))
                = Nat.min (length (members labels c pre)) (class_test_count labels r c))
    (assign input labels (counts_of labels M) r) order [])
    as (st & Hst & Hfin & Hperm & Hmin).
  3: { simpl in Hfin, Hperm, Hmin. rewrite Hst, Hfin. auto. }
  - cbn. split; [reflexivity|]. split; [reflexivity|]. intros c. reflexivity.
  - intros pre x post st Heq _ (-> & Hperm & Hmin). simpl in Heq.
    assert (Hin : x ∈ order).
    { rewrite Heq. apply elem_of_app. right. now left. }
    pose proof (order_index x Hin) as Hx.
    destruct (lookup_lt_is_Some_2 labels x ltac:(lia)) as [l Hl].
    rewrite (assign_explicit pre x post _ _ l Heq Hperm Hmin Hl).
    destruct (assign_branch pre x _ _ l Hperm Hmin Hl) as [Htest Htrain].
    assert (Hg : greedy labels (class_test_count labels r) (pre ++ [x])
                 = greedy_step labels (class_test_count labels r)
                     (greedy labels (class_test_count labels r) pre) x)
      by (unfold greedy; now rewrite foldl_app).
    cbv zeta. rewrite Hg. unfold greedy_step. rewrite Hl.
    destruct (decide _) as [Hlt|Hge]; (eexists; split; [reflexivity|]); cbn [fst snd].
    + destruct (Htest Hlt) as [Hp Hm]. auto.
    + destruct (Htrain Hge) as [Hp Hm]. auto.
Qed.
End AssignLoop.


(** ** [StratifiedSplit] on a valid call *)

Lemma class_count_total (labels : list nat) (M : nat) :
  Forall (fun l => l <= M) labels ->
  Zsum_to M (fun c => Z.of_nat (class_count labels c)) = Z.of_nat (length labels).
Proof.
  intros HM. unfold Zsum_to.
  rewrite (Zsum_tabulate_ext _
    (fun c => Z.of_nat (length (members labels c (seq 0 (length labels)))))).
  - rewrite members_total; [now rewrite length_seq|].
    apply Forall_forall. intros i Hi. apply list_elem_of_In, in_seq in Hi.
    destruct (lookup_lt_is_Some_2 labels i ltac:(lia)) as [l Hl].
    exists l. split; [exact Hl|].
    rewrite Forall_forall in HM. apply HM. eapply list_elem_of_lookup_2, Hl.
  - intros c _. now rewrite members_all.
Qed.

Lemma stratified_sizes_total (labels : list nat) (r : double) (M : nat) :
  Forall (fun l => l <= M) labels ->
  (stratified_train_size labels r M + stratified_test_size labels r M
   = Z.of_nat (length labels))%Z.
Proof.
  intros HM. unfold stratified_train_size, stratified_test_size, Zsum_to.
  rewrite <- Zsum_tabulate_add, <- (class_count_total labels M HM).
  apply Zsum_tabulate_ext. intros c _. lia.
Qed.

Lemma stratified_test_size_nonneg (labels : list nat) (r : double) (M : nat) :
  (0 <= stratified_test_size labels r M)%Z.
Proof.
  unfold stratified_test_size, Zsum_to.
  apply Zsum_nonneg, Forall_fmap, Forall_forall. intros c _. simpl. lia.
Qed.

Lemma stratified_train_size_nonneg (labels : list nat) (r : double) (M : nat) :
  valid_ratio r -> fits_double labels -> (0 <= stratified_train_size labels r M)%Z.
Proof.
  intros Hr Hfit. unfold stratified_train_size, Zsum_to.
  apply Zsum_nonneg, Forall_fmap, Forall_forall. intros c _. simpl.
  pose proof (class_test_count_le labels r c Hr Hfit). lia.
Qed.

Lemma sizes_of_counts (labels : list nat) (r : double) (M : nat) :
  valid_ratio r -> fits_double labels ->
  ((0 + Zsum ((fun lc => lc - test_count lc r) <$> counts_of labels M))%Z,
   (0 + Zsum ((fun lc => test_count lc r) <$> counts_of labels M))%Z)
  = (stratified_train_size labels r M, stratified_test_size labels r M).
Proof.
  intros Hr Hfit. unfold counts_of. rewrite !fmap_tabulate, !Z.add_0_l.
  unfold stratified_train_size, stratified_test_size, Zsum_to, class_test_count.
  f_equal; apply Zsum_tabulate_ext; intros c _;
    pose proof (test_count_bounds (Z.of_nat (class_count labels c)) r
                  (class_count_fits labels c Hfit) Hr); lia.
Qed.

(** A row vector accepts every size. *)
Lemma vec_set_size_row {X Y} (v : list Y) (n : Z) :
  @vec_set_size X is_Row (vec_n_rows is_Row v) n = Some (set_size n).
Proof. reflexivity. Qed.

(** [StratifiedSplit] up to the sizing of the outputs, for a vector type of
    labels: the counting loop and the sizes loop run through, and the
    outputs are given the sizes [stratified_train_size] and
    [stratified_test_size]. *)
Lemma StratifiedSplit_sized {A} (shuffle : list nat -> list nat) (t : VecType)
    (input : list A) (labels : list nat) (out : Outputs A nat) (r : double)
    (shuffleData : bool) (M : nat) :
  fits_double labels -> labels_fit labels -> valid_ratio r -> arma_max labels = Some M ->
  StratifiedSplit shuffle (labels_of t) input labels out r shuffleData
  = (tl <- vec_set_size t (vec_n_rows t labels) (stratified_train_size labels r M)
       or logic_error
       in mkOutputs (set_size (stratified_train_size labels r M))
                    (set_size (stratified_test_size labels r M))
                    (trainLabel out) (testLabel out) ;;
     tl' <- vec_set_size t (vec_n_rows t labels) (stratified_test_size labels r M)
       or logic_error
       in mkOutputs (set_size (stratified_train_size labels r M))
                    (set_size (stratified_test_size labels r M))
                    tl (testLabel out) ;;
     res_map s_out
       (for_each (if shuffleData then shuffle (linspace (length input))
                  else seq 0 (length input))
          (assign input labels (counts_of labels M) r)
          (mkStrat (mkOutputs (set_size (stratified_train_size labels r M))
                              (set_size (stratified_test_size labels r M)) tl tl')
                   0 0 (zeros (Z.of_nat (S M)))))).
Proof.
  intros Hsmall Hlfit Hr HmaxE.
  pose proof double_exact_fits as Hmod.
  pose proof (arma_max_bound _ _ HmaxE) as HM.
  pose proof (arma_max_elem _ _ HmaxE) as HMin.
  assert (HMfit : (Z.of_nat M + 1 < size_t_modulus)%Z).
  { unfold labels_fit in Hlfit. rewrite Forall_forall in Hlfit. now apply Hlfit. }
  unfold StratifiedSplit. rewrite HmaxE. cbn [try].
  rewrite size_t_wrap_small by lia.
  replace (Z.of_nat M + 1)%Z with (Z.of_nat (S M)) by lia.
  unfold zeros at 1. rewrite Nat2Z.id, count_loop by exact HM. cbn [phase].
  rewrite sizes_loop; try lia; try exact Hr.
  - rewrite sizes_of_counts by assumption. cbn [phase trainData testData trainLabel testLabel].
    destruct (vec_set_size t _ (stratified_train_size labels r M)) as [tl|];
      cbn [try trainData testData trainLabel testLabel]; [|reflexivity].
    destruct (vec_set_size t _ (stratified_test_size labels r M)) as [tl'|];
      cbn [try trainData testData trainLabel testLabel]; [|reflexivity].
    destruct shuffleData; [reflexivity|].
    now rewrite for_loop_for_each.
  - apply Forall_fmap, Forall_forall. intros c _. simpl. lia.
  - change (Zsum (counts_of labels M))
      with (Zsum_to M (fun c => Z.of_nat (class_count labels c))).
    rewrite class_count_total by exact HM. unfold fits_double, n_cols in Hsmall. lia.
Qed.

(** With labels in a column vector the sizing of the label outputs is
    refused unless both sizes are 1. *)
Lemma StratifiedSplit_col_refused {A} (shuffle : list nat -> list nat)
    (input : list A) (labels : list nat) (out : Outputs A nat) (r : double)
    (shuffleData : bool) (M : nat) :
  fits_double labels -> labels_fit labels -> valid_ratio r -> arma_max labels = Some M ->
  stratified_train_size labels r M <> 1%Z \/ stratified_test_size labels r M <> 1%Z ->
  exists o, StratifiedSplit shuffle (labels_of is_Col) input labels out r shuffleData
            = Err logic_error o /\
            trainData o = set_size (stratified_train_size labels r M) /\
            testData o = set_size (stratified_test_size labels r M) /\
            testLabel o = testLabel out.
Proof.
  intros Hsmall Hlfit Hr HmaxE Hsz.
  rewrite (StratifiedSplit_sized shuffle is_Col input labels out r shuffleData M)
    by assumption.
  assert (Hn : (n_cols labels =? 0)%Z = false).
  { apply Z.eqb_neq. unfold n_cols. destruct labels; [discriminate|simpl length; lia]. }
  unfold vec_set_size, vec_n_rows. rewrite Hn. cbn [andb]. rewrite !orb_false_r.
  destruct (Z.eqb_spec (stratified_train_size labels r M) 1) as [Htr|Htr];
    cbn [try]; [|eauto 10].
  destruct (Z.eqb_spec (stratified_test_size labels r M) 1) as [Hts|Hts];
    cbn [try]; [|eauto 10].
  destruct Hsz; contradiction.
Qed.

Section StratifiedSplitSpec.
Variable shuffle : list nat -> list nat.
Hypothesis shuffle_perm : is_shuffle shuffle.
Context {A : Type}.

Lemma assign_loop (input : list A) (labels : list nat) (r : double) (M : nat)
    (order : list nat) :
  valid_ratio r -> fits_double labels -> length labels = length input ->
  Forall (fun l => l <= M) labels -> order ≡ₚ seq 0 (length input) ->
  exists tr te : list nat,
    tr ++ te ≡ₚ seq 0 (length input) /\
    (forall c, length (members labels c te) = class_test_count labels r c) /\
    Z.of_nat (length tr) = stratified_train_size labels r M /\
    Z.of_nat (length te) = stratified_test_size labels r M /\
    res_map s_out
      (for_each order (assign input labels (counts_of labels M) r)
         (mkStrat (mkOutputs (set_size (stratified_train_size labels r M))
                             (set_size (stratified_test_size labels r M))
                             (set_size (stratified_train_size labels r M))
                             (set_size (stratified_test_size labels r M)))
                  0 0 (zeros (Z.of_nat (S M)))))
    = Ok (mkOutputs (select input tr) (select input te)
                    (select labels tr) (select labels te)).
Proof.
  intros Hr Hsmall Hlen HM Hord.
  assert (Hle : length input <= length labels) by lia.
  edestruct (for_each_inv (assign_invariant input labels r M)
               (assign input labels (counts_of labels M) r) order [])
    as (st & Hst & tr & te & Hperm & Hout & _ & _ & _ & Hmin).
  3: { simpl in Hperm, Hmin.
       assert (Hcls : forall c, length (members labels c te) = class_test_count labels r c).
       { intros c. rewrite Hmin, (members_perm _ _ _ _ Hord), <- Hlen, members_all.
         pose proof (class_test_count_le labels r c Hr Hsmall). lia. }
       assert (Hte : Z.of_nat (length te) = stratified_test_size labels r M).
       { rewrite <- (members_total labels M te).
         - unfold stratified_test_size, Zsum_to. apply Zsum_tabulate_ext.
           intros c _. now rewrite Hcls.
         - apply (index_label input labels M order Hle HM Hord).
           intros i Hi. rewrite <- Hperm. apply elem_of_app. now right. }
       assert (Htr : Z.of_nat (length tr) = stratified_train_size labels r M).
       { pose proof (stratified_sizes_total labels r M HM) as Htot.
         pose proof (Permutation_length Hperm) as Hl.
         rewrite length_app, (Permutation_length Hord), length_seq in Hl. lia. }
       exists tr, te. split; [now rewrite Hperm|]. split; [exact Hcls|].
       split; [exact Htr|]. split; [exact Hte|].
       rewrite Hst. simpl. rewrite Hout.
       rewrite <- Htr, <- Hte, !Nat2Z.id, !Nat.sub_diag. simpl.
       now rewrite !app_nil_r. }
  - exists [], []. simpl. unfold set_size, zeros. rewrite !Nat.sub_0_r, Nat2Z.id.
    do 4 (split; [reflexivity|]). split; [apply tabulate_const|]. intros c. reflexivity.
  - intros pre x post st Heq _ Hinv. simpl in Heq.
    eapply assign_step; eauto.
Qed.

Lemma StratifiedSplit_spec (input : list A) (labels : list nat)
    (out : Outputs A nat) (r : double) (shuffleData : bool) :
  fits_double input -> labels_fit labels -> valid_ratio r ->
  length labels = length input -> labels <> [] ->
  exists (M : nat) (tr te : list nat),
    arma_max labels = Some M /\
    tr ++ te ≡ₚ seq 0 (length input) /\
    (forall c, length (members labels c te) = class_test_count labels r c) /\
    Z.of_nat (length tr) = stratified_train_size labels r M /\
    Z.of_nat (length te) = stratified_test_size labels r M /\
    StratifiedSplit shuffle (labels_of is_Row) input labels out r shuffleData
    = Ok (mkOutputs (select input tr) (select input te)
                    (select labels tr) (select labels te)).
Proof.
  intros Hfit Hlfit Hr Hlen Hne.
  assert (Hsmall : fits_double labels) by (unfold fits_double, n_cols in *; now rewrite Hlen).
  pose proof double_exact_fits as Hmod.
  destruct (arma_max labels) as [M|] eqn:HmaxE;
    [|destruct labels; [congruence|discriminate]].
  pose proof (arma_max_bound _ _ HmaxE) as HM.
  pose proof (arma_max_elem _ _ HmaxE) as HMin.
  assert (HMfit : (Z.of_nat M + 1 < size_t_modulus)%Z).
  { unfold labels_fit in Hlfit. rewrite Forall_forall in Hlfit. now apply Hlfit. }
  pose proof (stratified_sizes_total labels r M HM) as Htot.
  pose proof (stratified_test_size_nonneg labels r M) as Hts.
  pose proof (stratified_train_size_nonneg labels r M Hr Hsmall) as Htr.
  assert (Hloop : forall order, order ≡ₚ seq 0 (length input) -> _)
    by (intros order; exact (assign_loop input labels r M order Hr Hsmall Hlen HM)).
  assert (Hrun : StratifiedSplit shuffle (labels_of is_Row) input labels out r shuffleData
    = res_map s_out (for_each (if shuffleData then shuffle (linspace (length input))
                               else seq 0 (length input))
        (assign input labels (counts_of labels M) r)
        (mkStrat (mkOutputs (set_size (stratified_train_size labels r M))
                            (set_size (stratified_test_size labels r M))
                            (set_size (stratified_train_size labels r M))
                            (set_size (stratified_test_size labels r M)))
                 0 0 (zeros (Z.of_nat (S M)))))).
  { rewrite (StratifiedSplit_sized shuffle is_Row input labels out r shuffleData M)
      by assumption.
    now rewrite !vec_set_size_row. }
  destruct (Hloop (if shuffleData then shuffle (linspace (length input))
                   else seq 0 (length input)))
    as (tr & te & Hperm & Hcls & Hltr & Hlte & Hres).
  { destruct shuffleData; [apply shuffle_perm|reflexivity]. }
  exists M, tr, te. rewrite Hrun, Hres. auto 10.
Qed.
End StratifiedSplitSpec.

(** ** The partitioner: sizes *)

Lemma rev_is_shuffle : is_shuffle (@rev nat).
Proof. intros l. symmetry. apply Permutation_rev. Qed.

Lemma train_count_le (n : nat) (r : double) : train_count n r <= n.
Proof. unfold train_count. lia. Qed.


(** The product is the rounded one.  The double nearest to [0.7] is below
    [0.7] and ten times it is below [7]; the product of the doubles is
    [7.0], and of ten columns seven go to the test set. *)
Example test_count_rounded_product :
  (10 * 6305039478318694 < 7 * 2 ^ 53)%Z /\ test_count 10 double_0_7 = 7%Z.
Proof. split; reflexivity. Qed.

Lemma fits_same_length {X Y} (m : list X) (m' : list Y) :
  length m' = length m -> fits_double m -> fits_size_t m'.
Proof.
  unfold fits_double, fits_size_t, n_cols. intros ->.
  pose proof double_exact_fits. lia.
Qed.





(** ** The partitioner: stratification *)

Lemma select_class_count (labels : list nat) (c : nat) (idx : list nat) :
  length (filter (fun l => l = Some c) (select labels idx))
  = length (members labels c idx).
Proof.
  unfold select, members. induction idx as [|i idx IH]; [reflexivity|].
  rewrite fmap_cons, !filter_cons.
  destruct (decide (labels !! i = Some c)); simpl; now rewrite IH.
Qed.

(** C2.  With one discrete label per column and the labels in a row
    vector, [StratifiedSplit], shuffled or not, sends to the test set
    exactly [floor(classCount(c) * testRatio)] samples of every class [c],
    and the samples of the two outputs are the samples of the input, each
    one once, with its label.  With the same labels in a column vector,
    which [typeCheck] admits, no sample is assigned: on every dataset of
    another number of samples than 2 the call throws when it sizes the
    label outputs, after it has sized the data outputs. *)
Theorem StratifiedSplit_class_counts :
  forall (shuffle : list nat -> list nat) (A : Type) (input : list A)
         (labels : list nat) (out : Outputs A nat) (r : double) (shuffleData : bool),
    is_shuffle shuffle -> fits_double input -> labels_fit labels -> valid_ratio r ->
    length labels = length input -> labels <> [] ->
    (exists (o : Outputs A nat) (train test : list nat),
       StratifiedSplit shuffle (labels_of is_Row) input labels out r shuffleData = Ok o /\
       (forall c, length (filter (fun l => l = Some c) (testLabel o))
                  = class_test_count labels r c) /\
       train ++ test ≡ₚ seq 0 (length input) /\
       o = mkOutputs (select input train) (select input test)
                     (select labels train) (select labels test) /\
       Forall is_Some (trainData o ++ testData o) /\
       Forall is_Some (trainLabel o ++ testLabel o)) /\
    (length labels <> 2 ->
     exists o : Outputs A nat,
       StratifiedSplit shuffle (labels_of is_Col) input labels out r shuffleData
       = Err logic_error o /\
       length (trainData o) + length (testData o) = length input /\
       Forall (fun x => x = None) (trainData o ++ testData o) /\
       testLabel o = testLabel out).
Proof.
  intros shuffle A input labels out r shuffleData Hs Hfit Hlfit Hr Hlen Hne.
  assert (Hsmall : fits_double labels)
    by (unfold fits_double, n_cols in *; now rewrite Hlen).
  destruct (StratifiedSplit_spec shuffle Hs input labels out r shuffleData
              Hfit Hlfit Hr Hlen Hne)
    as (M & tr & te & Hmax & Hperm & Hcls & Htr & Hte & Hres).
  split.
  - eexists. exists tr, te. split; [exact Hres|]. simpl.
    assert (Hidx : Forall (fun j => j < length input) (tr ++ te)).
    { rewrite Hperm. apply Forall_forall. intros j Hj.
      apply list_elem_of_In, in_seq in Hj. lia. }
    split; [|split; [exact Hperm|split; [reflexivity|split]]].
    + intros c. now rewrite select_class_count.
    + rewrite <- select_app. now apply select_filled.
    + rewrite <- select_app. apply select_filled. now rewrite Hlen.
  - intros Hn2.
    pose proof (stratified_sizes_total labels r M (arma_max_bound _ _ Hmax)) as Htot.
    pose proof (stratified_test_size_nonneg labels r M) as Hts0.
    pose proof (stratified_train_size_nonneg labels r M Hr Hsmall) as Htr0.
    destruct (StratifiedSplit_col_refused shuffle input labels out r shuffleData M
                Hsmall Hlfit Hr Hmax) as (o & Ho & Htd & Hted & Htl); [lia|].
    exists o. split; [exact Ho|]. rewrite Htd, Hted. unfold set_size.
    split; [rewrite !length_replicate; lia|]. split; [|exact Htl].
    apply Forall_app. split; apply Forall_replicate; reflexivity.
Qed.

Lemma StratifiedSplit_class_counts_witness :
  (exists (o : Outputs nat nat) (train test : list nat),
     StratifiedSplit (@rev nat) (labels_of is_Row) [10; 11; 12; 13; 14] [0; 1; 0; 1; 0]
       fresh double_0_5 true = Ok o /\
     (forall c, length (filter (fun l => l = Some c) (testLabel o))
                = class_test_count [0; 1; 0; 1; 0] double_0_5 c) /\
     train ++ test ≡ₚ seq 0 5 /\
     o = mkOutputs (select [10; 11; 12; 13; 14] train) (select [10; 11; 12; 13; 14] test)
                   (select [0; 1; 0; 1; 0] train) (select [0; 1; 0; 1; 0] test) /\
     Forall is_Some (trainData o ++ testData o) /\
     Forall is_Some (trainLabel o ++ testLabel o)) /\
  (5 <> 2 ->
   exists o : Outputs nat nat,
     StratifiedSplit (@rev nat) (labels_of is_Col) [10; 11; 12; 13; 14] [0; 1; 0; 1; 0]
       fresh double_0_5 true = Err logic_error o /\
     length (trainData o) + length (testData o) = 5 /\
     Forall (fun x => x = None) (trainData o ++ testData o) /\
     testLabel o = testLabel (@fresh nat nat)).
Proof.
  assert (Hr : valid_ratio double_0_5) by (repeat split; reflexivity).
  assert (Hl : labels_fit [0; 1; 0; 1; 0]) by (repeat constructor).
  assert (Hne : [0; 1; 0; 1; 0] <> []) by discriminate.
  exact (StratifiedSplit_class_counts (@rev nat) nat [10; 11; 12; 13; 14]
           [0; 1; 0; 1; 0] fresh double_0_5 true rev_is_shuffle eq_refl Hl Hr eq_refl Hne).
Defined.

(** ** The partitioner: non-stratified [Split] *)

(** C3.  Non-stratified [Split], shuffled or not, partitions the sample
    indices [0..n-1]: the training and test outputs hold the columns of two
    index lists that together are a rearrangement of [0..n-1] (each index
    once, none missing), every slot of the outputs is written, and the
    label containers hold the labels at the same indices. *)
Theorem Split_is_partition :
  forall (shuffle : list nat -> list nat) (A B : Type) (input : list A)
         (inputLabel : list B) (out : Outputs A B) (r : double) (shuffleData : bool),
    is_shuffle shuffle -> fits_double input -> valid_ratio r ->
    length inputLabel = length input ->
    exists train test : list nat,
      train ++ test ≡ₚ seq 0 (length input) /\
      NoDup (train ++ test) /\
      (forall i, i < length input <-> i ∈ train ++ test) /\
      Split shuffle input inputLabel out r shuffleData
      = Ok (mkOutputs (select input train) (select input test)
                      (select inputLabel train) (select inputLabel test)) /\
      Split_nolabel shuffle input out r shuffleData
      = Ok (mkOutputs (select input train) (select input test)
                      (trainLabel out) (testLabel out)) /\
      Forall is_Some (select input (train ++ test)) /\
      Forall is_Some (select inputLabel (train ++ test)).
Proof.
  intros shuffle A B input inputLabel out r shuffleData Hs Hfit Hr Hlen.
  pose proof (train_count_le (length input) r) as Hk.
  assert (Hgen : forall train test : list nat,
    train ++ test ≡ₚ seq 0 (length input) ->
    NoDup (train ++ test) /\
    (forall i, i < length input <-> i ∈ train ++ test) /\
    Forall is_Some (select input (train ++ test)) /\
    Forall is_Some (select inputLabel (train ++ test))).
  { intros train test Hperm.
    assert (Hin : forall i, i < length input <-> i ∈ train ++ test).
    { intros i. rewrite Hperm, list_elem_of_In, in_seq. lia. }
    split; [|split; [exact Hin|]].
    - rewrite Hperm. apply NoDup_ListNoDup, seq_NoDup.
    - split; apply select_filled, Forall_forall; intros j Hj; apply Hin in Hj; lia. }
  unfold Split, Split_nolabel. destruct shuffleData.
  - exists (take (train_count (length input) r) (shuffle (linspace (length input)))),
           (drop (train_count (length input) r) (shuffle (linspace (length input)))).
    rewrite (SplitHelper_shuffled shuffle Hs) by (auto; lia).
    rewrite (SplitHelper_nolabel_shuffled shuffle Hs) by auto.
    assert (Hperm : take (train_count (length input) r) (shuffle (linspace (length input)))
                    ++ drop (train_count (length input) r) (shuffle (linspace (length input)))
                    ≡ₚ seq 0 (length input)).
    { rewrite take_drop. apply Hs. }
    destruct (Hgen _ _ Hperm) as (H1 & H2 & H3 & H4). auto 10.
  - exists (seq 0 (train_count (length input) r)),
           (seq (train_count (length input) r) (length input - train_count (length input) r)).
    rewrite (SplitHelper_ordered shuffle) by (eauto using fits_same_length; lia).
    rewrite (SplitHelper_nolabel_ordered shuffle) by auto.
    assert (Hperm : seq 0 (train_count (length input) r)
                    ++ seq (train_count (length input) r)
                           (length input - train_count (length input) r)
                    ≡ₚ seq 0 (length input)).
    { rewrite <- seq_app. now replace (train_count (length input) r
                                       + (length input - train_count (length input) r))
        with (length input) by lia. }
    destruct (Hgen _ _ Hperm) as (H1 & H2 & H3 & H4).
    assert (Htl : (if decide (train_count (length input) r < length input)
                   then filled (drop (train_count (length input) r) inputLabel) else [])
                  = filled (drop (train_count (length input) r) inputLabel)).
    { destruct (decide _); [reflexivity|]. now rewrite drop_ge by lia. }
    rewrite Htl, !select_seq by lia. rewrite !drop_0.
    rewrite !(take_ge (drop _ _)) by (rewrite length_drop; lia).
    auto 10.
Qed.

Lemma Split_is_partition_witness :
  exists train test : list nat,
    train ++ test ≡ₚ seq 0 5 /\
    NoDup (train ++ test) /\
    (forall i, i < 5 <-> i ∈ train ++ test) /\
    Split (@rev nat) [10; 11; 12; 13; 14] [0; 1; 0; 1; 0] fresh double_0_3 true
    = Ok (mkOutputs (select [10; 11; 12; 13; 14] train) (select [10; 11; 12; 13; 14] test)
                    (select [0; 1; 0; 1; 0] train) (select [0; 1; 0; 1; 0] test)) /\
    Split_nolabel (@rev nat) [10; 11; 12; 13; 14] (@fresh nat nat) double_0_3 true
    = Ok (mkOutputs (select [10; 11; 12; 13; 14] train) (select [10; 11; 12; 13; 14] test)
                    [] []) /\
    Forall is_Some (select [10; 11; 12; 13; 14] (train ++ test)) /\
    Forall is_Some (select [0; 1; 0; 1; 0] (train ++ test)).
Proof.
  assert (Hr : valid_ratio double_0_3) by (repeat split; reflexivity).
  exact (Split_is_partition (@rev nat) nat nat [10; 11; 12; 13; 14] [0; 1; 0; 1; 0]
           fresh double_0_3 true rev_is_shuffle eq_refl Hr eq_refl).
Defined.

(** C4.  Non-shuffled, non-stratified [Split] keeps the order of the
    columns: the training output is the first [trainSize] columns and the
    test output the remaining ones, so the two outputs one after the other
    are the input, and likewise for the labels.  On 10 samples with
    [testRatio = 0.3] the sizes are 7 and 3 and the test set is the last 3
    columns. *)
Theorem Split_ordered_keeps_order :
  forall (shuffle : list nat -> list nat) (A B : Type) (input : list A)
         (inputLabel : list B) (out : Outputs A B) (r : double),
    fits_double input -> valid_ratio r -> length inputLabel = length input ->
    exists o : Outputs A B,
      Split shuffle input inputLabel out r false = Ok o /\
      trainData o = filled (take (train_count (length input) r) input) /\
      testData o = filled (drop (train_count (length input) r) input) /\
      trainLabel o = filled (take (train_count (length input) r) inputLabel) /\
      testLabel o = filled (drop (train_count (length input) r) inputLabel) /\
      trainData o ++ testData o = filled input /\
      trainLabel o ++ testLabel o = filled inputLabel /\
      (length input = 10 -> r = double_0_3 ->
         length (trainData o) = 7 /\ length (testData o) = 3 /\
         testData o = filled (drop 7 input)).
Proof.
  intros shuffle A B input inputLabel out r Hfit Hr Hlen.
  pose proof (train_count_le (length input) r) as Hk.
  unfold Split.
  rewrite (SplitHelper_ordered shuffle) by (eauto using fits_same_length; lia).
  eexists. split; [reflexivity|]. simpl.
  assert (Htl : (if decide (train_count (length input) r < length input)
                 then filled (drop (train_count (length input) r) inputLabel) else [])
                = filled (drop (train_count (length input) r) inputLabel)).
  { destruct (decide _); [reflexivity|]. now rewrite drop_ge by lia. }
  rewrite Htl. unfold filled. rewrite <- !fmap_app, !take_drop.
  do 6 (split; [reflexivity|]).
  intros H10 ->. rewrite !length_fmap, length_take, length_drop, H10.
  change (train_count 10 double_0_3) with 7. auto.
Qed.

Lemma Split_ordered_keeps_order_witness :
  exists o : Outputs nat nat,
    Split (@rev nat) [0; 1; 2; 3; 4; 5; 6; 7; 8; 9] [0; 1; 0; 1; 0; 1; 0; 1; 0; 1]
      fresh double_0_3 false = Ok o /\
    trainData o = filled [0; 1; 2; 3; 4; 5; 6] /\
    testData o = filled [7; 8; 9] /\
    trainLabel o = filled [0; 1; 0; 1; 0; 1; 0] /\
    testLabel o = filled [1; 0; 1] /\
    trainData o ++ testData o = filled [0; 1; 2; 3; 4; 5; 6; 7; 8; 9] /\
    trainLabel o ++ testLabel o = filled [0; 1; 0; 1; 0; 1; 0; 1; 0; 1] /\
    (10 = 10 -> double_0_3 = double_0_3 ->
       length (trainData o) = 7 /\ length (testData o) = 3 /\
       testData o = filled [7; 8; 9]).
Proof.
  assert (Hr : valid_ratio double_0_3) by (repeat split; reflexivity).
  exact (Split_ordered_keeps_order (@rev nat) nat nat [0; 1; 2; 3; 4; 5; 6; 7; 8; 9]
           [0; 1; 0; 1; 0; 1; 0; 1; 0; 1] fresh double_0_3 eq_refl Hr eq_refl).
Defined.

(** ** The partitioner: labels and columns of different lengths *)

Lemma for_loop_outcome {St} (P : St -> Prop) (E : exn -> Prop)
    (body : nat -> St -> res St) (count : nat) :
  (forall k s, P s -> match body k s with
                      | Ok s' => P s'
                      | Err e s' => E e /\ P s'
                      end) ->
  forall i s, P s -> match for_loop i count body s with
                     | Ok s' => P s'
                     | Err e s' => E e /\ P s'
                     end.
Proof.
  intros Hbody. induction count as [|count IH]; intros i s HP; simpl; [exact HP|].
  specialize (Hbody i s HP). destruct (body i s) as [s1|e s1]; [|exact Hbody].
  now apply IH.
Qed.

Lemma for_loop_Ok_all {St} (G : nat -> Prop) (body : nat -> St -> res St) (count : nat) :
  (forall k s s', body k s = Ok s' -> G k) ->
  forall i s s', for_loop i count body s = Ok s' ->
  forall k, i <= k < i + count -> G k.
Proof.
  intros Hbody. induction count as [|count IH]; intros i s s' Hrun k Hk; [lia|].
  simpl in Hrun. destruct (body i s) as [s1|e s1] eqn:Hb; [|discriminate].
  destruct (decide (k = i)) as [->|Hne].
  - eapply Hbody, Hb.
  - eapply IH; [exact Hrun|lia].
Qed.

Lemma set_col_length {X} (m m' : list X) (i : nat) (c : X) :
  set_col m i c = Some m' -> length m' = length m.
Proof.
  unfold set_col. destruct (decide _); [|discriminate]. intros [= <-].
  apply length_insert.
Qed.

Section ShortLabels.
Variable shuffle : list nat -> list nat.
Hypothesis shuffle_perm : is_shuffle shuffle.
Context {A B : Type}.

Lemma SplitHelper_short_labels (input : list A) (inputLabel : list B)
    (out : Outputs A B) (r : double) :
  fits_double input -> valid_ratio r -> length inputLabel < length input ->
  exists o, SplitHelper shuffle input inputLabel out r true = Err logic_error o /\
    resized (train_count (length input) r)
            (length input - train_count (length input) r) o.
Proof.
  intros Hfit Hr Hlen. unfold SplitHelper, fits_double, fits_size_t, n_cols in *.
  pose proof double_exact_fits as Hmod.
  pose proof (test_count_bounds (Z.of_nat (length input)) r ltac:(lia) Hr) as Ht.
  rewrite static_cast_test_count by (auto; lia). cbn [try].
  set (k := train_count (length input) r).
  set (t := test_count (Z.of_nat (length input)) r) in *.
  rewrite size_t_wrap_small by lia.
  assert (Hk : Z.to_nat (Z.of_nat (length input) - t) = k)
    by (unfold k, train_count; fold t; lia).
  assert (Hkn : k <= length input) by (unfold k, train_count; lia).
  rewrite Hk. unfold set_size. rewrite Hk.
  replace (Z.to_nat t) with (length input - k) by lia.
  set (order := shuffle (linspace (length input))).
  set (G := fun i => exists j, order !! i = Some j /\ j < length inputLabel).
  assert (Hbad : ~ forall i, i < length input -> G i).
  { intros HG.
    assert (Hin : length inputLabel ∈ order).
    { unfold order. rewrite (shuffle_perm _). apply list_elem_of_In, in_seq. lia. }
    apply list_elem_of_lookup in Hin as [p Hp].
    assert (Hpn : p < length input).
    { apply lookup_lt_Some in Hp. unfold order in Hp.
      now rewrite (shuffle_length _ _ shuffle_perm) in Hp. }
    destruct (HG p Hpn) as (j & Hj & Hlt). rewrite Hp in Hj. injection Hj as <-. lia. }
  match goal with
  | |- exists o, bind ?first ?second = _ /\ _ =>
      set (r1 := first); set (k2 := second)
  end.
  set (P := resized (A := A) (B := B) k (length input - k)).
  assert (HP1 : match r1 with Ok s' => P s' | Err e s' => e = logic_error /\ P s' end).
  { unfold r1. destruct (Z.gtb_spec (Z.of_nat (length input) - t) 0).
    - apply for_loop_outcome.
      + intros i [td te tl tel] (H1 & H2 & H3 & H4). simpl in *. unfold col.
        destruct (order !! i) as [j|]; cbn [try]; [|now repeat split].
        destruct (input !! j) as [c|]; cbn [try]; [|now repeat split].
        destruct (set_col td i (Some c)) as [td'|] eqn:Htd; cbn [try]; [|now repeat split].
        apply set_col_length in Htd. simpl.
        destruct (inputLabel !! j) as [l|]; cbn [try]; [|repeat split; simpl; congruence].
        destruct (set_col tl i (Some l)) as [tl'|] eqn:Htl; cbn [try];
          [|repeat split; simpl; congruence].
        apply set_col_length in Htl. repeat split; simpl; congruence.
      + repeat split; simpl; now rewrite length_replicate.
    - repeat split; simpl; now rewrite length_replicate. }
  assert (HP2 : forall o1, P o1 ->
            match k2 o1 with Ok s' => P s' | Err e s' => e = logic_error /\ P s' end).
  { intros o1 Ho1. unfold k2.
    destruct (Z.ltb_spec (Z.of_nat (length input) - t) (Z.of_nat (length input)));
      [|exact Ho1].
    apply for_loop_outcome; [|exact Ho1].
    intros i [td te tl tel] (H1 & H2 & H3 & H4). simpl in *. unfold col.
    destruct (order !! i) as [j|]; cbn [try]; [|now repeat split].
    destruct (input !! j) as [c|]; cbn [try]; [|now repeat split].
    destruct (set_col te (i - k) (Some c)) as [te'|] eqn:Hte; cbn [try]; [|now repeat split].
    apply set_col_length in Hte. simpl.
    destruct (inputLabel !! j) as [l|]; cbn [try]; [|repeat split; simpl; congruence].
    destruct (set_col tel (i - k) (Some l)) as [tel'|] eqn:Htel; cbn [try];
      [|repeat split; simpl; congruence].
    apply set_col_length in Htel. repeat split; simpl; congruence. }
  assert (HG1 : forall o1, r1 = Ok o1 -> forall i, i < k -> G i).
  { intros o1 Hr1 i Hi. unfold r1 in Hr1.
    destruct (Z.gtb_spec (Z.of_nat (length input) - t) 0); [|lia].
    eapply (for_loop_Ok_all G); [|exact Hr1|lia].
    clear. intros i s s'. unfold col, G.
    destruct (order !! i) as [j|]; cbn [try]; [|discriminate].
    destruct (input !! j) as [c|]; cbn [try]; [|discriminate].
    destruct (set_col _ i (Some c)) as [td'|]; cbn [try]; [|discriminate].
    destruct (inputLabel !! j) as [l|] eqn:Hl; cbn [try]; [|discriminate].
    intros _. exists j. split; [reflexivity|]. eapply lookup_lt_Some, Hl. }
  assert (HG2 : forall o1 o2, k2 o1 = Ok o2 -> forall i, k <= i < length input -> G i).
  { intros o1 o2 Hr2 i Hi. unfold k2 in Hr2.
    destruct (Z.ltb_spec (Z.of_nat (length input) - t) (Z.of_nat (length input))); [|lia].
    eapply (for_loop_Ok_all G); [|exact Hr2|lia].
    clear. intros i s s'. unfold col, G.
    destruct (order !! i) as [j|]; cbn [try]; [|discriminate].
    destruct (input !! j) as [c|]; cbn [try]; [|discriminate].
    destruct (set_col _ _ (Some c)) as [td'|]; cbn [try]; [|discriminate].
    destruct (inputLabel !! j) as [l|] eqn:Hl; cbn [try]; [|discriminate].
    intros _. exists j. split; [reflexivity|]. eapply lookup_lt_Some, Hl. }
  clearbody r1 k2. destruct r1 as [o1|e o1]; cbn [bind].
  - specialize (HP2 o1 HP1). destruct (k2 o1) as [o2|e o2] eqn:Hk2.
    + exfalso. apply Hbad. intros i Hi.
      destruct (decide (i < k)); [eapply HG1; eauto|eapply HG2; eauto; lia].
    + destruct HP2 as [-> HP2]. eauto.
  - destruct HP1 as [-> HP1]. eauto.
Qed.
End ShortLabels.

(** Seven labels for five columns: [Split] returns, with the two labels
    beyond the last column in [testLabel]. *)
Example Split_more_labels :
  Split (@rev nat) [10; 11; 12; 13; 14] [0; 1; 0; 1; 0; 1; 1] fresh double_0_5 false
  = Ok (mkOutputs [Some 10; Some 11; Some 12] [Some 13; Some 14]
                  [Some 0; Some 1; Some 0] [Some 1; Some 0; Some 1; Some 1]).
Proof. vm_compute. reflexivity. Qed.

Lemma Split_more_labels_no_failure :
  ~ fails_fast fresh
      (Split (@rev nat) [10; 11; 12; 13; 14] [0; 1; 0; 1; 0; 1; 1] fresh double_0_5 false).
Proof. intros [e He]. rewrite Split_more_labels in He. discriminate He. Qed.

(** C7 (as amended).  No partitioning operation compares the number of
    labels with the number of columns.  Non-stratified [Split] with more
    labels than columns completes: shuffled, it uses the labels at the
    indices of the columns; in order, [trainLabel] is the first [trainSize]
    labels.  Shuffled [Split] with fewer labels than columns ends with the
    bounds error of the container library, raised in the copy loops after
    the four output containers have been resized. *)
Theorem Split_length_mismatch :
  forall (shuffle : list nat -> list nat) (A B : Type) (input : list A)
         (inputLabel : list B) (out : Outputs A B) (r : double),
    is_shuffle shuffle -> fits_double input -> fits_size_t inputLabel -> valid_ratio r ->
    (length input < length inputLabel ->
       (exists o, Split shuffle input inputLabel out r false = Ok o /\
          trainData o = filled (take (train_count (length input) r) input) /\
          testData o = filled (drop (train_count (length input) r) input) /\
          trainLabel o = filled (take (train_count (length input) r) inputLabel)) /\
       (exists train test, train ++ test ≡ₚ seq 0 (length input) /\
          Split shuffle input inputLabel out r true
          = Ok (mkOutputs (select input train) (select input test)
                          (select inputLabel train) (select inputLabel test)))) /\
    (length inputLabel < length input ->
       exists o, Split shuffle input inputLabel out r true = Err logic_error o /\
         resized (train_count (length input) r)
                 (length input - train_count (length input) r) o).
Proof.
  intros shuffle A B input inputLabel out r Hs Hfit Hfitl Hr. unfold Split. split.
  - intros Hlen. split.
    + rewrite (SplitHelper_ordered shuffle) by (auto; lia).
      eexists. split; [reflexivity|]. simpl. auto.
    + rewrite (SplitHelper_shuffled shuffle Hs) by (auto; lia).
      eexists. eexists. split; [|reflexivity]. rewrite take_drop. apply Hs.
  - intros Hlen. now apply SplitHelper_short_labels.
Qed.

Lemma Split_length_mismatch_witness :
  exists o,
    Split (@rev nat) [10; 11; 12; 13; 14] [0; 1; 0; 1] fresh double_0_5 true
    = Err logic_error o /\ resized 3 2 o.
Proof.
  assert (Hr : valid_ratio double_0_5) by (repeat split; reflexivity).
  assert (Hlt : length [0; 1; 0; 1] < length [10; 11; 12; 13; 14]) by (simpl; lia).
  exact (proj2 (Split_length_mismatch (@rev nat) nat nat [10; 11; 12; 13; 14] [0; 1; 0; 1]
                  fresh double_0_5 rev_is_shuffle eq_refl eq_refl Hr) Hlt).
Defined.

(** ** [SplitIfBetter]: buckets *)

Lemma category_of_Some (d : double) (c : nat) :
  category_of d = Some c -> exists z, size_t_of_double d = Some z /\ Z.to_nat z = c.
Proof.
  unfold category_of. destruct (size_t_of_double d) as [z|]; [|discriminate].
  intros [= <-]. eauto.
Qed.

Lemma bucket_count_snoc (pre : list double) (d : double) (c c' : nat) :
  category_of d = Some c ->
  bucket_count (pre ++ [d]) c' = bucket_count pre c' + (if decide (c = c') then 1 else 0).
Proof.
  intros Hd. unfold bucket_count. rewrite filter_app, length_app. f_equal.
  rewrite filter_cons, filter_nil, Hd.
  destruct (decide (c = c')) as [->|Hne].
  - destruct (decide _); [reflexivity|congruence].
  - destruct (decide _); [congruence|reflexivity].
Qed.

Lemma bucket_snoc {X} (pre : list (double * X)) (d : double) (x : X) (c c' : nat) :
  category_of d = Some c ->
  bucket c' (pre ++ [(d, x)]) = bucket c' pre ++ (if decide (c = c') then [x] else []).
Proof.
  intros Hd. unfold bucket. rewrite filter_app, fmap_app. f_equal.
  rewrite filter_cons, filter_nil. simpl. rewrite Hd.
  destruct (decide (c = c')) as [->|Hne].
  - destruct (decide _); [reflexivity|congruence].
  - destruct (decide _); [congruence|reflexivity].
Qed.

Lemma length_bucket {X} (c : nat) (pairs : list (double * X)) :
  length (bucket c pairs) = bucket_count (fst <$> pairs) c.
Proof.
  unfold bucket, bucket_count. rewrite length_fmap.
  induction pairs as [|[d x] pairs IH]; [reflexivity|].
  rewrite fmap_cons, !filter_cons. simpl.
  destruct (decide _); simpl; now rewrite IH.
Qed.

Lemma take_zip_data {X} (data : list double) (xs : list X) (i : nat) :
  i <= length xs -> fst <$> take i (zip data xs) = take i data.
Proof.
  intros Hi. rewrite zip_with_take. apply fst_zip.
  rewrite !length_take. lia.
Qed.

Lemma take_zip_S {X} (data : list double) (xs : list X) (i : nat) (d : double) (x : X) :
  data !! i = Some d -> xs !! i = Some x ->
  take (S i) (zip data xs) = take i (zip data xs) ++ [(d, x)].
Proof.
  intros Hd Hx. apply take_S_r. rewrite lookup_zip_with, Hd. simpl. now rewrite Hx.
Qed.

Lemma take_zip_all {X} (data : list double) (xs : list X) :
  take (length data) (zip data xs) = zip data xs.
Proof. apply take_ge. rewrite length_zip_with. lia. Qed.

Lemma dsum_snoc (ws : list double) (w : double) : dsum (ws ++ [w]) = dadd (dsum ws) w.
Proof. unfold dsum. now rewrite foldl_app. Qed.

Lemma bucket_count_le (data : list double) (i : nat) (d : double) (c : nat) :
  data !! i = Some d -> category_of d = Some c ->
  bucket_count (take i data) c < bucket_count data c.
Proof.
  intros Hd Hc. rewrite <- (take_drop (S i) data) at 2.
  rewrite (take_S_r _ _ _ Hd). unfold bucket_count at 2.
  rewrite filter_app, length_app. fold (bucket_count (take i data ++ [d]) c).
  rewrite (bucket_count_snoc _ _ c c Hc). destruct (decide (c = c)); [lia|congruence].
Qed.

Lemma arma_min_spec (v : list Z) (x : Z) :
  x ∈ v -> exists least, arma_min v = Some least /\ (least <= x)%Z /\ least ∈ v.
Proof.
  destruct v as [|y v]; [intros H; inversion H|]. intros Hx. simpl.
  assert (H : forall v a, (foldl Z.min a v <= a)%Z /\
                          (forall x, x ∈ v -> (foldl Z.min a v <= x)%Z) /\
                          foldl Z.min a v ∈ a :: v).
  { clear. induction v as [|b v IH]; intros a; simpl.
    - split; [lia|]. split; [intros x Hx; inversion Hx|left].
    - destruct (IH (Z.min a b)) as (H1 & H2 & H3). split; [lia|]. split.
      + intros x Hx. apply elem_of_cons in Hx as [->|Hx]; [lia|auto].
      + apply elem_of_cons in H3 as [H3|H3].
        * rewrite H3. destruct (Z.min_spec a b) as [[_ ->]|[_ ->]]; [left|right; left].
        * right. now right. }
  destruct (H v y) as (H1 & H2 & H3).
  eexists. split; [reflexivity|]. split; [|exact H3].
  apply elem_of_cons in Hx as [->|Hx]; auto.
Qed.

Lemma elem_of_tabulate {X} (f : nat -> X) (n : nat) (x : X) :
  x ∈ tabulate f n <-> exists c, c < n /\ x = f c.
Proof.
  unfold tabulate. rewrite list_elem_of_fmap. split.
  - intros (c & -> & Hc). apply list_elem_of_In, in_seq in Hc. exists c. split; [lia|reflexivity].
  - intros (c & Hc & ->). exists c. split; [reflexivity|].
    apply list_elem_of_In, in_seq. lia.
Qed.

(** ** [SplitIfBetter]: the loops *)

Section SplitIfBetterLoops.
Context {L : Type}.
Variables (zero : L) (Evaluate : bool -> list L -> Z -> list double -> double).
Variables (UseWeights : bool) (data : list double) (N : nat) (labels : list L)
          (numClasses : Z) (weights : list double).
Hypothesis categories_ok : valid_categories data N.
Hypothesis weights_ok : UseWeights = true -> length data <= length weights.

Lemma data_category (i : nat) :
  i < length data ->
  exists d z c, data !! i = Some d /\ size_t_of_double d = Some z /\
                Z.to_nat z = c /\ category_of d = Some c /\ c < N.
Proof.
  intros Hi. destruct (lookup_lt_is_Some_2 data i Hi) as [d Hd].
  destruct (Forall_lookup_1 _ _ _ _ categories_ok Hd) as (c & Hc & HcN).
  destruct (category_of_Some d c Hc) as (z & Hz & Hzc). eauto 10.
Qed.

Lemma count_loop_spec :
  for_loop 0 (length data) (count_step UseWeights data weights)
    (mkCounts (zeros (Z.of_nat N))
              (if UseWeights then replicate (Z.to_nat (Z.of_nat N)) double_zero else [])
              double_zero)
  = Ok (counted UseWeights data weights N).
Proof.
  edestruct (for_loop_inv (fun i cs =>
      cs = mkCounts
        (tabulate (fun c => Z.of_nat (bucket_count (take i data) c)) N)
        (if UseWeights
         then tabulate (fun c => dsum (bucket c (take i (zip data weights)))) N else [])
        (if UseWeights then dsum (take i weights) else double_zero)))
    as (cs & Hcs & HP).
  3: { rewrite Hcs, HP. simpl. unfold counted.
       now rewrite firstn_all, take_zip_all. }
  - unfold zeros. rewrite Nat2Z.id. simpl. f_equal.
    + apply tabulate_const.
    + destruct UseWeights; [apply tabulate_const|reflexivity].
    + now destruct UseWeights.
  - intros i cs Hi ->. simpl in Hi.
    destruct (data_category i ltac:(lia)) as (d & z & c & Hd & Hz & Hzc & Hc & HcN).
    unfold count_step, at_unchecked. rewrite Hd. cbn [try]. rewrite Hz. cbn [try counts].
    rewrite Hzc, lookup_tabulate by exact HcN. cbn [try counts childWeightSums sumWeight].
    assert (Hcounts :
      <[c := (Z.of_nat (bucket_count (take i data) c) + 1)%Z]>
        (tabulate (fun c => Z.of_nat (bucket_count (take i data) c)) N)
      = tabulate (fun c => Z.of_nat (bucket_count (take (S i) data) c)) N).
    { apply insert_tabulate'. rewrite (take_S_r _ _ _ Hd). split.
      - intros c' Hc'. rewrite (bucket_count_snoc _ _ c c' Hc).
        destruct (decide (c = c')); [congruence|]. f_equal. lia.
      - rewrite (bucket_count_snoc _ _ c c Hc).
        destruct (decide (c = c)); [lia|congruence]. }
    rewrite Hcounts.
    destruct UseWeights eqn:HU; [|eexists; split; reflexivity].
    destruct (lookup_lt_is_Some_2 weights i) as [w Hw];
      [specialize (weights_ok eq_refl); lia|].
    rewrite Hw. cbn [try]. rewrite lookup_tabulate by exact HcN. cbn [try].
    eexists. split; [reflexivity|]. f_equal.
    + apply insert_tabulate'. rewrite (take_zip_S _ _ _ _ _ Hd Hw). split.
      * intros c' Hc'. rewrite (bucket_snoc _ _ _ c c' Hc).
        destruct (decide (c = c')); [congruence|]. now rewrite app_nil_r.
      * rewrite (bucket_snoc _ _ _ c c Hc).
        destruct (decide (c = c)); [|congruence]. now rewrite dsum_snoc.
    + now rewrite (take_S_r _ _ _ Hw), dsum_snoc.
Qed.

Lemma zeros_loop_spec :
  for_loop 0 (Z.to_nat (Z.of_nat N)) (zeros_step zero UseWeights (counted UseWeights data weights N))
    (mkChildren (zeros (Z.of_nat N)) (replicate (Z.to_nat (Z.of_nat N)) [])
                (replicate (Z.to_nat (Z.of_nat N)) []))
  = Ok (mkChildren
          (tabulate (fun _ => 0%Z) N)
          (tabulate (fun c => replicate (bucket_count data c) zero) N)
          (if UseWeights
           then tabulate (fun c => replicate (bucket_count data c) double_zero) N
           else tabulate (fun _ => []) N)).
Proof.
  unfold zeros. rewrite !Nat2Z.id.
  edestruct (for_loop_inv (fun i ch =>
      ch = mkChildren
        (tabulate (fun _ => 0%Z) N)
        (tabulate (fun c => if decide (c < i)
                            then replicate (bucket_count data c) zero else []) N)
        (if UseWeights
         then tabulate (fun c => if decide (c < i)
                                 then replicate (bucket_count data c) double_zero
                                 else []) N
         else tabulate (fun _ => []) N)))
    as (ch & Hch & HP).
  3: { rewrite Hch, HP. simpl. f_equal. f_equal.
       - apply tabulate_ext. intros c Hc. destruct (decide _); [reflexivity|lia].
       - destruct UseWeights; [|reflexivity].
         apply tabulate_ext. intros c Hc. destruct (decide _); [reflexivity|lia]. }
  - f_equal; [apply tabulate_const|apply tabulate_const|].
    destruct UseWeights; apply tabulate_const.
  - intros i ch Hi ->. simpl in Hi.
    unfold zeros_step, at_unchecked, set_unchecked, counted.
    cbn [counts childLabels childWeights childPositions].
    rewrite lookup_tabulate by lia. cbn [try]. rewrite length_tabulate.
    destruct (decide (i < N)); [|lia]. cbn [try]. rewrite Nat2Z.id.
    cbn [counts childLabels childWeights childPositions].
    assert (Hins : forall (X : Type) (x0 : X),
      <[i := replicate (bucket_count data i) x0]>
        (tabulate (fun c => if decide (c < i)
                            then replicate (bucket_count data c) x0 else []) N)
      = tabulate (fun c => if decide (c < S i)
                           then replicate (bucket_count data c) x0 else []) N).
    { intros X x0. apply insert_tabulate'. split.
      - intros c Hc. destruct (decide (c < S i)), (decide (c < i)); auto; lia.
      - destruct (decide (i < S i)); [reflexivity|lia]. }
    rewrite Hins. destruct UseWeights.
    + rewrite length_tabulate. destruct (decide (i < N)); [|lia]. cbn [try].
      rewrite Hins. eexists. split; reflexivity.
    + eexists. split; reflexivity.
Qed.

Hypothesis labels_ok : length data <= length labels.

Lemma extract_loop_spec :
  for_loop 0 (length data) (extract_step UseWeights data labels weights)
    (mkChildren
       (tabulate (fun _ => 0%Z) N)
       (tabulate (fun c => replicate (bucket_count data c) zero) N)
       (if UseWeights
        then tabulate (fun c => replicate (bucket_count data c) double_zero) N
        else tabulate (fun _ => []) N))
  = Ok (extracted UseWeights data labels weights N).
Proof.
  edestruct (for_loop_inv (fun i ch =>
      ch = mkChildren
        (tabulate (fun c => Z.of_nat (bucket_count (take i data) c)) N)
        (tabulate (fun c => bucket c (take i (zip data labels))
                            ++ replicate (bucket_count data c
                                          - bucket_count (take i data) c) zero) N)
        (if UseWeights
         then tabulate (fun c => bucket c (take i (zip data weights))
                                 ++ replicate (bucket_count data c
                                               - bucket_count (take i data) c)
                                              double_zero) N
         else tabulate (fun _ => []) N)))
    as (ch & Hch & HP).
  3: { rewrite Hch, HP. simpl. unfold extracted, child_labels, child_weights.
       rewrite firstn_all, !take_zip_all. f_equal. f_equal.
       - apply tabulate_ext. intros c _. rewrite Nat.sub_diag. apply app_nil_r.
       - destruct UseWeights; [|reflexivity].
         apply tabulate_ext. intros c _. rewrite Nat.sub_diag. apply app_nil_r. }
  - assert (Hrow : forall (X : Type) (xs : list X) (x0 : X),
      tabulate (fun c => replicate (bucket_count data c) x0) N
      = tabulate (fun c => bucket c (take 0 (zip data xs))
                           ++ replicate (bucket_count data c
                                         - bucket_count (take 0 data) c) x0) N).
    { intros X xs x0. apply tabulate_ext. intros c _. simpl.
      change (bucket_count [] c) with 0. now rewrite Nat.sub_0_r. }
    rewrite <- Hrow. destruct UseWeights; [rewrite <- Hrow|]; reflexivity.
  - intros i ch Hi ->. simpl in Hi.
    destruct (data_category i ltac:(lia)) as (d & z & c & Hd & Hz & Hzc & Hc & HcN).
    destruct (lookup_lt_is_Some_2 labels i ltac:(lia)) as [l Hl].
    pose proof (bucket_count_le data i d c Hd Hc) as Hroom.
    unfold extract_step, at_unchecked. rewrite Hd. cbn [try]. rewrite Hz.
    cbn [try childPositions childLabels childWeights]. rewrite Hzc.
    rewrite !lookup_tabulate by exact HcN. cbn [try]. rewrite Hl. cbn [try].
    rewrite Nat2Z.id.
    assert (Hfill : forall (X : Type) (xs : list X) (x x0 : X),
      i <= length xs -> xs !! i = Some x ->
      set_unchecked (bucket c (take i (zip data xs))
                     ++ replicate (bucket_count data c - bucket_count (take i data) c) x0)
                    (bucket_count (take i data) c) x
      = Some (bucket c (take (S i) (zip data xs))
              ++ replicate (bucket_count data c - bucket_count (take (S i) data) c) x0)).
    { intros X xs x x0 Hi' Hx.
      replace (bucket_count data c - bucket_count (take i data) c)
        with (S (bucket_count data c - bucket_count (take (S i) data) c)).
      - simpl replicate. unfold set_unchecked.
        fold (set_col (bucket c (take i (zip data xs))
                       ++ x0 :: replicate (bucket_count data c
                                           - bucket_count (take (S i) data) c) x0)
                      (bucket_count (take i data) c) x).
        rewrite set_col_fill by (now rewrite length_bucket, take_zip_data).
        rewrite (take_zip_S _ _ _ _ _ Hd Hx), (bucket_snoc _ _ _ c c Hc).
        destruct (decide (c = c)); [reflexivity|congruence].
      - rewrite (take_S_r _ _ _ Hd), (bucket_count_snoc _ _ c c Hc).
        destruct (decide (c = c)); [lia|congruence]. }
    assert (Hrows : forall (X : Type) (xs : list X) (x x0 : X),
      xs !! i = Some x ->
      <[c := bucket c (take (S i) (zip data xs))
             ++ replicate (bucket_count data c - bucket_count (take (S i) data) c) x0]>
        (tabulate (fun c => bucket c (take i (zip data xs))
                            ++ replicate (bucket_count data c
                                          - bucket_count (take i data) c) x0) N)
      = tabulate (fun c => bucket c (take (S i) (zip data xs))
                           ++ replicate (bucket_count data c
                                         - bucket_count (take (S i) data) c) x0) N).
    { intros X xs x x0 Hx. apply insert_tabulate'. split; [|reflexivity].
      intros c' Hc'. rewrite (take_zip_S _ _ _ _ _ Hd Hx), (bucket_snoc _ _ _ c c' Hc).
      rewrite (take_S_r _ _ _ Hd), (bucket_count_snoc _ _ c c' Hc).
      destruct (decide (c = c')); [congruence|]. now rewrite app_nil_r, Nat.add_0_r. }
    assert (Hpos :
      <[c := (Z.of_nat (bucket_count (take i data) c) + 1)%Z]>
        (tabulate (fun c => Z.of_nat (bucket_count (take i data) c)) N)
      = tabulate (fun c => Z.of_nat (bucket_count (take (S i) data) c)) N).
    { apply insert_tabulate'. rewrite (take_S_r _ _ _ Hd). split.
      - intros c' Hc'. rewrite (bucket_count_snoc _ _ c c' Hc).
        destruct (decide (c = c')); [congruence|]. f_equal. lia.
      - rewrite (bucket_count_snoc _ _ c c Hc).
        destruct (decide (c = c)); [lia|congruence]. }
    rewrite (Hfill L labels l zero) by (auto; lia). cbn [try].
    cbn [try childPositions childLabels childWeights].
    rewrite (Hrows L labels l zero Hl), Hpos.
    destruct UseWeights eqn:HU; [|eexists; split; reflexivity].
    specialize (weights_ok eq_refl).
    destruct (lookup_lt_is_Some_2 weights i ltac:(lia)) as [w Hw].
    rewrite Hw. cbn [try]. rewrite lookup_tabulate by exact HcN. cbn [try].
    rewrite (Hfill double weights w double_zero) by (auto; lia). cbn [try].
    rewrite (Hrows double weights w double_zero Hw).
    eexists. split; reflexivity.
Qed.

Lemma gain_loop_spec :
  for_loop 0 N
    (gain_step Evaluate UseWeights data numClasses (counted UseWeights data weights N)
               (extracted UseWeights data labels weights N))
    (mkGain double_zero [])
  = Ok (mkGain (overall_gain Evaluate UseWeights data labels numClasses weights N)
               (gain_calls UseWeights data labels weights N)).
Proof.
  unfold overall_gain, gain_calls.
  assert (H : forall n, n <= N ->
    for_loop 0 n
      (gain_step Evaluate UseWeights data numClasses (counted UseWeights data weights N)
                 (extracted UseWeights data labels weights N))
      (mkGain double_zero [])
    = Ok (mkGain
            (foldl (fun acc c =>
                      dadd acc (dmul (child_pct UseWeights data weights c)
                                     (Evaluate UseWeights (child_labels data labels c)
                                        numClasses
                                        (child_weights UseWeights data weights c))))
                   double_zero (seq 0 n))
            ((fun c => (child_labels data labels c,
                        child_weights UseWeights data weights c)) <$> seq 0 n))).
  { intros n Hn.
    edestruct (for_loop_inv (fun i g =>
        g = mkGain
          (foldl (fun acc c =>
                    dadd acc (dmul (child_pct UseWeights data weights c)
                                   (Evaluate UseWeights (child_labels data labels c)
                                      numClasses
                                      (child_weights UseWeights data weights c))))
                 double_zero (seq 0 i))
          ((fun c => (child_labels data labels c,
                      child_weights UseWeights data weights c)) <$> seq 0 i)))
      as (g & Hg & HP).
    3: { rewrite Hg, HP. reflexivity. }
    - reflexivity.
    - intros i g Hi ->. simpl in Hi.
      unfold gain_step, at_unchecked, counted, extracted.
      cbn [counts childWeightSums sumWeight childLabels childWeights overallGain evaluated].
      assert (Hpct :
        (if UseWeights
         then (fun sw => ddiv sw (if UseWeights then dsum (take (length data) weights)
                                  else double_zero))
                <$> (if UseWeights
                     then tabulate (fun c => dsum (bucket c (zip data weights))) N
                     else []) !! i
         else (fun n => ddiv (double_of_size_t n) (double_of_size_t (n_cols data)))
                <$> tabulate (fun c => Z.of_nat (bucket_count data c)) N !! i)
        = Some (child_pct UseWeights data weights i)).
      { unfold child_pct. destruct UseWeights; now rewrite lookup_tabulate by lia. }
      rewrite Hpct. cbn [try]. rewrite !lookup_tabulate by lia. cbn [try].
      eexists. split; [reflexivity|].
      now rewrite seq_S, foldl_app, fmap_app. }
  now apply H.
Qed.

(** The call, once the children have been counted. *)
Lemma SplitIfBetter_counted (bestGain : double) (minimumLeafSize : Z)
    (minimumGainSplit : double) (splitInfo : SplitInfoType) :
  SplitIfBetter zero Evaluate UseWeights bestGain data (Z.of_nat N) labels numClasses
    weights minimumLeafSize minimumGainSplit splitInfo
  = match arma_min (counts (counted UseWeights data weights N)) with
    | None => inl logic_error
    | Some least =>
        if (least <? minimumLeafSize)%Z then inr (mkReturned DBL_MAX splitInfo [])
        else
          let G := overall_gain Evaluate UseWeights data labels numClasses weights N in
          let calls := gain_calls UseWeights data labels weights N in
          if dgt G (threshold bestGain minimumGainSplit) then
            inr (mkReturned G (StoreSplitInfo splitInfo (double_of_size_t (Z.of_nat N)))
                            calls)
          else inr (mkReturned DBL_MAX splitInfo calls)
    end.
Proof.
  unfold SplitIfBetter. rewrite count_loop_spec. cbn [run].
  destruct (arma_min _) as [least|]; [|reflexivity].
  destruct (least <? minimumLeafSize)%Z; [reflexivity|].
  rewrite zeros_loop_spec. cbn [run]. rewrite extract_loop_spec. cbn [run].
  replace (length (counts (counted UseWeights data weights N))) with N
    by (unfold counted; cbn [counts]; now rewrite length_tabulate).
  rewrite gain_loop_spec. cbn [run overallGain evaluated]. reflexivity.
Qed.
End SplitIfBetterLoops.

(** The guard alone does not need the labels. *)
Lemma SplitIfBetter_guarded {L : Type} (zero : L)
    (Evaluate : bool -> list L -> Z -> list double -> double)
    (UseWeights : bool) (bestGain : double) (data : list double) (N : nat)
    (labels : list L) (numClasses : Z) (weights : list double)
    (minimumLeafSize : Z) (minimumGainSplit : double) (splitInfo : SplitInfoType)
    (least : Z) :
  valid_categories data N -> (UseWeights = true -> length data <= length weights) ->
  arma_min (counts (counted UseWeights data weights N)) = Some least ->
  (least < minimumLeafSize)%Z ->
  SplitIfBetter zero Evaluate UseWeights bestGain data (Z.of_nat N) labels numClasses
    weights minimumLeafSize minimumGainSplit splitInfo
  = inr (mkReturned DBL_MAX splitInfo []).
Proof.
  intros Hcat Hw Hmin Hlt. unfold SplitIfBetter.
  rewrite count_loop_spec by assumption. cbn [run]. rewrite Hmin.
  destruct (Z.ltb_spec least minimumLeafSize); [reflexivity|lia].
Qed.

Lemma least_count_low (UseWeights : bool) (data weights : list double) (N : nat)
    (minimumLeafSize : Z) (c : nat) :
  c < N -> (Z.of_nat (bucket_count data c) < minimumLeafSize)%Z ->
  exists least, arma_min (counts (counted UseWeights data weights N)) = Some least /\
                (least < minimumLeafSize)%Z.
Proof.
  intros Hc Hlow. unfold counted. cbn [counts].
  destruct (arma_min_spec (tabulate (fun c => Z.of_nat (bucket_count data c)) N)
              (Z.of_nat (bucket_count data c))) as (least & Hmin & Hle & _).
  - apply elem_of_tabulate. eauto.
  - exists least. split; [exact Hmin|lia].
Qed.

Lemma least_count_high (UseWeights : bool) (data weights : list double) (N : nat)
    (minimumLeafSize : Z) :
  0 < N -> (forall c, c < N -> (minimumLeafSize <= Z.of_nat (bucket_count data c))%Z) ->
  exists least, arma_min (counts (counted UseWeights data weights N)) = Some least /\
                (minimumLeafSize <= least)%Z.
Proof.
  intros HN Hhigh. unfold counted. cbn [counts].
  destruct (arma_min_spec (tabulate (fun c => Z.of_nat (bucket_count data c)) N)
              (Z.of_nat (bucket_count data 0))) as (least & Hmin & _ & Hin).
  - apply elem_of_tabulate. eauto.
  - exists least. split; [exact Hmin|].
    apply elem_of_tabulate in Hin as (c & Hc & ->). now apply Hhigh.
Qed.

Lemma dgt_irrefl (x : double) : dgt x x = false.
Proof.
  unfold dgt, SFltb, SFcompare.
  destruct x as [s|s| |s m e]; try destruct s; try reflexivity;
    now rewrite Z.compare_refl, Pos.compare_cont_refl.
Qed.

Lemma SFcompare_Eq_sym (x y : double) :
  SFcompare x y = Some Eq -> SFcompare y x = Some Eq.
Proof.
  destruct x as [s1|s1| |s1 m1 e1], y as [s2|s2| |s2 m2 e2];
    try destruct s1; try destruct s2; simpl; try discriminate; try reflexivity.
  all: destruct (Z.compare e1 e2) eqn:He; try discriminate;
    apply Z.compare_eq in He; subst e2; rewrite Z.compare_refl;
    intros [= Hm];
    try (apply (f_equal CompOpp) in Hm; rewrite CompOpp_involutive in Hm; simpl in Hm);
    apply Pcompare_Eq_eq in Hm; subst m2; now rewrite Pos.compare_cont_refl.
Qed.

Lemma dgt_equal (x y : double) : SFeqb x y = true -> dgt x y = false.
Proof.
  unfold SFeqb, dgt, SFltb. destruct (SFcompare x y) as [[]|] eqn:Hc; try discriminate.
  intros _. now rewrite (SFcompare_Eq_sym _ _ Hc).
Qed.

(** ** The split evaluator: the claims *)

(** C5.  When some category below [numCategories] holds fewer than
    [minimumLeafSize] samples, [SplitIfBetter] returns [DBL_MAX] whatever the
    labels are, leaves [splitInfo] as it was and has not called the fitness
    function. *)
Theorem SplitIfBetter_leaf_size_guard :
  forall (L : Type) (zero : L)
         (Evaluate : bool -> list L -> Z -> list double -> double)
         (UseWeights : bool) (bestGain : double) (data : list double)
         (numCategories : Z) (labels : list L) (numClasses : Z)
         (weights : list double) (minimumLeafSize : Z) (minimumGainSplit : double)
         (splitInfo : SplitInfoType),
    (0 <= numCategories)%Z ->
    valid_categories data (Z.to_nat numCategories) ->
    (UseWeights = true -> length data <= length weights) ->
    (exists c, c < Z.to_nat numCategories /\
               (Z.of_nat (bucket_count data c) < minimumLeafSize)%Z) ->
    SplitIfBetter zero Evaluate UseWeights bestGain data numCategories labels numClasses
      weights minimumLeafSize minimumGainSplit splitInfo
    = inr (mkReturned DBL_MAX splitInfo []).
Proof.
  intros L zero Evaluate UseWeights bestGain data numCategories labels numClasses
    weights minimumLeafSize minimumGainSplit splitInfo HN Hcat Hw (c & Hc & Hlow).
  destruct (least_count_low UseWeights data weights _ _ c Hc Hlow) as (least & Hmin & Hlt).
  set (N := Z.to_nat numCategories) in *.
  assert (E : numCategories = Z.of_nat N) by (unfold N; lia).
  clearbody N. subst numCategories.
  now apply (SplitIfBetter_guarded zero Evaluate) with (least := least).
Qed.

(** Two categories with 5 and 1 samples, [minimumLeafSize = 2]. *)
Lemma SplitIfBetter_leaf_size_guard_witness :
  SplitIfBetter 0 (fun _ _ _ _ => double_one) false double_zero
    [double_zero; double_zero; double_zero; double_zero; double_zero; double_one] 2
    [0; 1; 0; 1; 0; 1] 2 [] 2 double_zero (info_double double_zero)
  = inr (mkReturned DBL_MAX (info_double double_zero) []).
Proof.
  assert (Hcat : valid_categories
            [double_zero; double_zero; double_zero; double_zero; double_zero; double_one]
            (Z.to_nat 2)).
  { repeat (constructor; [eexists; split; [vm_compute; reflexivity|vm_compute; lia]|]). constructor. }
  assert (Hlow : exists c, c < Z.to_nat 2 /\
            (Z.of_nat (bucket_count
               [double_zero; double_zero; double_zero; double_zero; double_zero; double_one]
               c) < 2)%Z).
  { exists 1. split; [simpl; lia|reflexivity]. }
  assert (Hw : false = true -> 6 <= 0) by discriminate.
  assert (HN : (0 <= 2)%Z) by discriminate.
  exact (SplitIfBetter_leaf_size_guard nat 0 (fun _ _ _ _ => double_one) false double_zero
           [double_zero; double_zero; double_zero; double_zero; double_zero; double_one] 2
           [0; 1; 0; 1; 0; 1] 2 [] 2 double_zero (info_double double_zero) HN Hcat Hw Hlow).
Defined.

(** C6.  When every child holds at least [minimumLeafSize] samples,
    [SplitIfBetter] accepts the split exactly when
    [overallGain > bestGain + minimumGainSplit + epsilon], with [epsilon] the
    double [1e-7]: it then stores [numCategories] in [splitInfo], which
    after the call is the double [numCategories] (regression) or the
    vector of that one element (classification), and returns
    [overallGain]; otherwise, and so for a gain equal to the threshold, it
    returns [DBL_MAX] and [splitInfo] is as it was. *)
Theorem SplitIfBetter_acceptance :
  forall (L : Type) (zero : L)
         (Evaluate : bool -> list L -> Z -> list double -> double)
         (UseWeights : bool) (bestGain : double) (data : list double)
         (numCategories : Z) (labels : list L) (numClasses : Z)
         (weights : list double) (minimumLeafSize : Z) (minimumGainSplit : double)
         (splitInfo : SplitInfoType),
    (0 < numCategories)%Z ->
    valid_categories data (Z.to_nat numCategories) ->
    length data <= length labels ->
    (UseWeights = true -> length data <= length weights) ->
    (forall c, c < Z.to_nat numCategories ->
               (minimumLeafSize <= Z.of_nat (bucket_count data c))%Z) ->
    let G := overall_gain Evaluate UseWeights data labels numClasses weights
               (Z.to_nat numCategories) in
    let calls := gain_calls UseWeights data labels weights (Z.to_nat numCategories) in
    let T := dadd (dadd bestGain minimumGainSplit) epsilon in
    SplitIfBetter zero Evaluate UseWeights bestGain data numCategories labels numClasses
      weights minimumLeafSize minimumGainSplit splitInfo
    = inr (if dgt G T
           then mkReturned G
                  match splitInfo with
                  | info_double _ => info_double (double_of_size_t numCategories)
                  | info_vec _ => info_vec [double_of_size_t numCategories]
                  end calls
           else mkReturned DBL_MAX splitInfo calls) /\
    (SFeqb G T = true -> dgt G T = false) /\
    (G = T -> dgt G T = false) /\
    epsilon = ddiv (double_of_size_t 1) (double_of_size_t 10000000).
Proof.
  intros L zero Evaluate UseWeights bestGain data numCategories labels numClasses
    weights minimumLeafSize minimumGainSplit splitInfo HN Hcat Hl Hw Hhigh.
  set (N := Z.to_nat numCategories) in *.
  assert (E : numCategories = Z.of_nat N) by (unfold N; lia).
  assert (HN' : 0 < N) by lia. clearbody N. subst numCategories. intros G calls T.
  split; [|split; [apply dgt_equal|split; [intros ->; apply dgt_irrefl|reflexivity]]].
  destruct (least_count_high UseWeights data weights N
              minimumLeafSize HN' Hhigh) as (least & Hmin & Hle).
  rewrite (SplitIfBetter_counted zero Evaluate) by assumption. rewrite Hmin.
  destruct (Z.ltb_spec least minimumLeafSize); [lia|].
  cbv zeta. fold G calls. unfold threshold. fold T. now destruct (dgt G T).
Qed.

Lemma SplitIfBetter_acceptance_witness :
  let Evaluate := fun (_ : bool) (l : list nat) (_ : Z) (_ : list double) =>
                    double_of_size_t (Z.of_nat (length l)) in
  let data := [double_zero; double_zero; double_zero; double_one; double_zero; double_one] in
  let G := overall_gain Evaluate false data [1; 2; 3; 4; 5; 6] 2 [] (Z.to_nat 2) in
  let calls := gain_calls false data [1; 2; 3; 4; 5; 6] [] (Z.to_nat 2) in
  let T := dadd (dadd double_zero double_zero) epsilon in
  SplitIfBetter 0 Evaluate false double_zero data 2 [1; 2; 3; 4; 5; 6] 2 [] 2 double_zero
    (info_double double_zero)
  = inr (if dgt G T
         then mkReturned G (info_double (double_of_size_t 2)) calls
         else mkReturned DBL_MAX (info_double double_zero) calls) /\
  (SFeqb G T = true -> dgt G T = false) /\
  (G = T -> dgt G T = false) /\
  epsilon = ddiv (double_of_size_t 1) (double_of_size_t 10000000).
Proof.
  intros Evaluate data.
  assert (Hcat : valid_categories data (Z.to_nat 2)).
  { repeat (constructor; [eexists; split; [vm_compute; reflexivity|vm_compute; lia]|]).
    constructor. }
  assert (Hhigh : forall c, c < Z.to_nat 2 -> (2 <= Z.of_nat (bucket_count data c))%Z).
  { intros [|[|c]] Hc; [discriminate|discriminate|vm_compute in Hc; lia]. }
  assert (Hw : false = true -> length data <= length (@nil double)) by discriminate.
  assert (Hl : length data <= length [1; 2; 3; 4; 5; 6]) by (simpl; lia).
  assert (HN : (0 < 2)%Z) by reflexivity.
  exact (SplitIfBetter_acceptance nat 0 Evaluate false double_zero data 2
           [1; 2; 3; 4; 5; 6] 2 [] 2 double_zero (info_double double_zero)
           HN Hcat Hl Hw Hhigh).
Defined.

(** C10.  [SplitIfBetter] changes [splitInfo] only on the path that returns
    the computed gain: a call that returns either leaves [splitInfo] as it
    was and returns [DBL_MAX], or has stored [numCategories] and returns a
    value above the threshold; on a valid feature column the return from the
    leaf-size guard and the return after a gain that does not exceed the
    threshold both leave [splitInfo] unchanged, and the accepting return is
    the one that stores. *)
Theorem SplitIfBetter_splitInfo_frame :
  forall (L : Type) (zero : L)
         (Evaluate : bool -> list L -> Z -> list double -> double)
         (UseWeights : bool) (bestGain : double) (data : list double)
         (numCategories : Z) (labels : list L) (numClasses : Z)
         (weights : list double) (minimumLeafSize : Z) (minimumGainSplit : double)
         (splitInfo : SplitInfoType),
    let call := SplitIfBetter zero Evaluate UseWeights bestGain data numCategories labels
                  numClasses weights minimumLeafSize minimumGainSplit splitInfo in
    let G := overall_gain Evaluate UseWeights data labels numClasses weights
               (Z.to_nat numCategories) in
    let calls := gain_calls UseWeights data labels weights (Z.to_nat numCategories) in
    let T := dadd (dadd bestGain minimumGainSplit) epsilon in
    (forall ret, call = inr ret ->
       (value ret = DBL_MAX /\ info ret = splitInfo) \/
       (dgt (value ret) T = true /\
        info ret = StoreSplitInfo splitInfo (double_of_size_t numCategories))) /\
    ((0 < numCategories)%Z ->
     valid_categories data (Z.to_nat numCategories) ->
     length data <= length labels ->
     (UseWeights = true -> length data <= length weights) ->
     ((exists c, c < Z.to_nat numCategories /\
                 (Z.of_nat (bucket_count data c) < minimumLeafSize)%Z) ->
        call = inr (mkReturned DBL_MAX splitInfo [])) /\
     ((forall c, c < Z.to_nat numCategories ->
                 (minimumLeafSize <= Z.of_nat (bucket_count data c))%Z) ->
        (dgt G T = false -> call = inr (mkReturned DBL_MAX splitInfo calls)) /\
        (dgt G T = true ->
           call = inr (mkReturned G (StoreSplitInfo splitInfo
                                       (double_of_size_t numCategories)) calls)))).
Proof.
  intros L zero Evaluate UseWeights bestGain data numCategories labels numClasses
    weights minimumLeafSize minimumGainSplit splitInfo call G calls T. split.
  - intros ret. unfold call, SplitIfBetter.
    destruct (for_loop 0 (length data) _ _) as [cs|e cs]; cbn [run]; [|discriminate].
    destruct (arma_min (counts cs)) as [least|]; [|discriminate].
    destruct (least <? minimumLeafSize)%Z; [intros [= <-]; left; split; reflexivity|].
    destruct (for_loop 0 (Z.to_nat numCategories) _ _) as [ch|e ch]; cbn [run];
      [|discriminate].
    destruct (for_loop 0 (length data) _ _) as [ch'|e ch']; cbn [run]; [|discriminate].
    destruct (for_loop 0 (length (counts cs)) _ _) as [g|e g]; cbn [run]; [|discriminate].
    fold T. destruct (dgt (overallGain g) T) eqn:Hgt; intros [= <-]; cbn [value info].
    + right. split; [exact Hgt|reflexivity].
    + left. split; reflexivity.
  - intros HN Hcat Hl Hw.
    set (N := Z.to_nat numCategories) in *.
    assert (E : numCategories = Z.of_nat N) by (unfold N; lia).
    assert (HN' : 0 < N) by lia. clearbody N. subst numCategories. split.
    + intros (c & Hc & Hlow).
      destruct (least_count_low UseWeights data weights _ _ c Hc Hlow)
        as (least & Hmin & Hlt).
      now apply (SplitIfBetter_guarded zero Evaluate) with (least := least).
    + intros Hhigh.
      destruct (least_count_high UseWeights data weights N minimumLeafSize HN' Hhigh)
        as (least & Hmin & Hle).
      unfold call. rewrite (SplitIfBetter_counted zero Evaluate) by assumption.
      rewrite Hmin. destruct (Z.ltb_spec least minimumLeafSize); [lia|].
      cbv zeta. fold G calls. unfold threshold. fold T.
      split; intros ->; reflexivity.
Qed.

(** A call that is rejected at the threshold: [bestGain = 100]. *)
Lemma SplitIfBetter_splitInfo_frame_witness :
  let ret := mkReturned DBL_MAX (info_vec [double_one])
               [([1; 2; 3; 5], []); ([4; 6], [])] in
  (value ret = DBL_MAX /\ info ret = info_vec [double_one]) \/
  (dgt (value ret) (dadd (dadd (double_of_size_t 100) double_zero) epsilon) = true /\
   info ret = StoreSplitInfo (info_vec [double_one]) (double_of_size_t 2)).
Proof.
  intros ret.
  refine (proj1 (SplitIfBetter_splitInfo_frame nat 0
                   (fun _ l _ _ => double_of_size_t (Z.of_nat (length l)))
                   false (double_of_size_t 100)
                   [double_zero; double_zero; double_zero; double_one; double_zero; double_one]
                   2 [1; 2; 3; 4; 5; 6] 2 [] 2 double_zero (info_vec [double_one]))
            ret _).
  vm_compute. reflexivity.
Defined.

(** ** The SSE loss *)

Lemma dopp_involutive (x : double) : dopp (dopp x) = x.
Proof. destruct x as [s|s| |s m e]; simpl; now rewrite ?negb_involutive. Qed.

Lemma arma_neg_involutive (v : list double) : arma_neg (arma_neg v) = v.
Proof.
  unfold arma_neg. rewrite <- list_fmap_compose. rewrite <- (list_fmap_id v) at 2.
  apply list_fmap_ext. intros i x _. apply dopp_involutive.
Qed.

(** C8.  The scalar overload of [Hessians] returns [1] for every pair.  The
    overload for vectors does not: it builds [h] with the two-argument size
    constructor, [values.n_elem] rows and [1] column, which gives no element
    the value [1]; for a row vector of another length than 1 the
    constructor is refused. *)
Theorem Hessians_vector_not_ones :
  (forall observed values : double, SSELoss.Hessians observed values = double_one) /\
  SSELoss.Hessians_vec is_Col [double_of_size_t 1; double_of_size_t 2]
                              [double_of_size_t 3; double_of_size_t 4]
  = inr [None; None] /\
  SSELoss.Hessians_vec is_Col [double_of_size_t 1; double_of_size_t 2]
                              [double_of_size_t 3; double_of_size_t 4]
  <> inr (filled [double_one; double_one]) /\
  SSELoss.Hessians_vec is_Row [double_of_size_t 1; double_of_size_t 2]
                              [double_of_size_t 3; double_of_size_t 4]
  = inl logic_error.
Proof.
  split; [reflexivity|]. split; [reflexivity|]. split; [discriminate|reflexivity].
Qed.

(** C9.  On scalars [Gradients(observed, predicted)] is
    [-(observed - predicted)] and [Residuals] is [-Gradients], which is
    [observed - predicted]; on vectors of one length the same holds element
    by element, and [Residuals] is the difference [observed - predicted] of
    Armadillo whatever the lengths. *)
Theorem Gradients_Residuals :
  (forall observed predicted : double,
      SSELoss.Gradients observed predicted = dopp (dsub observed predicted) /\
      SSELoss.Residuals observed predicted = dopp (SSELoss.Gradients observed predicted) /\
      SSELoss.Residuals observed predicted = dsub observed predicted) /\
  (forall observed predicted : list double,
      SSELoss.Residuals_vec observed predicted = arma_sub observed predicted /\
      (length observed = length predicted ->
       SSELoss.Gradients_vec observed predicted
       = inr (zip_with SSELoss.Gradients observed predicted) /\
       SSELoss.Residuals_vec observed predicted
       = inr (arma_neg (zip_with SSELoss.Gradients observed predicted)) /\
       SSELoss.Residuals_vec observed predicted
       = inr (zip_with dsub observed predicted))).
Proof.
  split.
  - intros o p. unfold SSELoss.Residuals, SSELoss.Gradients.
    split; [reflexivity|]. split; [reflexivity|]. apply dopp_involutive.
  - intros o p.
    assert (Hres : SSELoss.Residuals_vec o p = arma_sub o p).
    { unfold SSELoss.Residuals_vec, SSELoss.Gradients_vec.
      destruct (arma_sub o p) as [e|d]; [reflexivity|]. now rewrite arma_neg_involutive. }
    split; [exact Hres|]. intros Hlen.
    assert (Hg : SSELoss.Gradients_vec o p = inr (zip_with SSELoss.Gradients o p)).
    { unfold SSELoss.Gradients_vec, arma_sub. destruct (decide _); [|contradiction].
      f_equal. unfold arma_neg, SSELoss.Gradients. clear.
      revert p. induction o as [|x o IH]; intros [|y p]; simpl; try reflexivity.
      now rewrite IH. }
    split; [exact Hg|]. split.
    + unfold SSELoss.Residuals_vec. now rewrite Hg.
    + rewrite Hres. unfold arma_sub. now destruct (decide _).
Qed.

Lemma Gradients_Residuals_witness :
  SSELoss.Gradients_vec [double_of_size_t 1; double_of_size_t 2]
                        [double_of_size_t 3; double_of_size_t 5]
  = inr [double_of_size_t 2; double_of_size_t 3] /\
  SSELoss.Residuals_vec [double_of_size_t 1; double_of_size_t 2]
                        [double_of_size_t 3; double_of_size_t 5]
  = inr (arma_neg [double_of_size_t 2; double_of_size_t 3]) /\
  SSELoss.Residuals_vec [double_of_size_t 1; double_of_size_t 2]
                        [double_of_size_t 3; double_of_size_t 5]
  = inr [dopp (double_of_size_t 2); dopp (double_of_size_t 3)].
Proof.
  exact (proj2 (proj2 Gradients_Residuals
                  [double_of_size_t 1; double_of_size_t 2]
                  [double_of_size_t 3; double_of_size_t 5]) eq_refl).
Defined.

(** ** The partitioner: further properties *)

Lemma for_each_Ok_all {X St} (G : X -> Prop) (body : X -> St -> res St) (xs : list X) :
  (forall x s s', body x s = Ok s' -> G x) ->
  forall s s', for_each xs body s = Ok s' -> Forall G xs.
Proof.
  intros Hbody. induction xs as [|x xs IH]; intros s s' Hrun; [constructor|].
  simpl in Hrun. destruct (body x s) as [s1|e s1] eqn:Hb; [|discriminate].
  constructor; [eapply Hbody, Hb|eapply IH, Hrun].
Qed.

(** [StratifiedSplit] with at least one label per column: the outputs are
    sized by the class counts of all the labels and filled by the greedy
    assignment of the columns. *)
Lemma StratifiedSplit_greedy {A} (shuffle : list nat -> list nat)
    (input : list A) (labels : list nat)
    (out : Outputs A nat) (r : double) (shuffleData : bool) :
  (shuffleData = true -> is_shuffle shuffle) ->
  fits_double labels -> labels_fit labels -> valid_ratio r ->
  length input <= length labels -> labels <> [] ->
  let order := if shuffleData then shuffle (linspace (length input))
               else seq 0 (length input) in
  let idx := greedy labels (class_test_count labels r) order in
  exists M : nat,
    arma_max labels = Some M /\
    StratifiedSplit shuffle (labels_of is_Row) input labels out r shuffleData
    = Ok (s_out (assign_state input labels r M (fst idx) (snd idx))) /\
    fst idx ++ snd idx ≡ₚ seq 0 (length input) /\
    (forall c, length (members labels c (snd idx))
               = Nat.min (length (members labels c (seq 0 (length input))))
                         (class_test_count labels r c)) /\
    (stratified_train_size labels r M + stratified_test_size labels r M
     = Z.of_nat (length labels))%Z /\
    (Z.of_nat (length (fst idx)) <= stratified_train_size labels r M)%Z /\
    (Z.of_nat (length (snd idx)) <= stratified_test_size labels r M)%Z.
Proof.
  intros shuffle_perm Hsmall Hlfit Hr Hlen Hne order idx.
  pose proof double_exact_fits as Hmod.
  destruct (arma_max labels) as [M|] eqn:HmaxE;
    [|destruct labels; [congruence|discriminate]].
  pose proof (arma_max_bound _ _ HmaxE) as HM.
  pose proof (arma_max_elem _ _ HmaxE) as HMin.
  assert (HMfit : (Z.of_nat M + 1 < size_t_modulus)%Z).
  { unfold labels_fit in Hlfit. rewrite Forall_forall in Hlfit. now apply Hlfit. }
  pose proof (stratified_sizes_total labels r M HM) as Htot.
  pose proof (stratified_test_size_nonneg labels r M) as Hts.
  pose proof (stratified_train_size_nonneg labels r M Hr Hsmall) as Htr.
  assert (Hord : order ≡ₚ seq 0 (length input)).
  { unfold order. destruct shuffleData; [now apply shuffle_perm|reflexivity]. }
  assert (Hrun : StratifiedSplit shuffle (labels_of is_Row) input labels out r shuffleData
    = res_map s_out (for_each order (assign input labels (counts_of labels M) r)
                       (assign_state input labels r M [] []))).
  { rewrite (StratifiedSplit_sized shuffle is_Row input labels out r shuffleData M)
      by assumption.
    rewrite !vec_set_size_row. cbn [try]. fold order.
    assert (Hinit : mkStrat (mkOutputs (set_size (stratified_train_size labels r M))
                               (set_size (stratified_test_size labels r M))
                               (set_size (stratified_train_size labels r M))
                               (set_size (stratified_test_size labels r M)))
                      0 0 (zeros (Z.of_nat (S M)))
                    = assign_state input labels r M [] []).
    { unfold assign_state, set_size, zeros. simpl length. rewrite !Nat.sub_0_r, Nat2Z.id.
      f_equal. apply tabulate_const. }
    now rewrite Hinit. }
  destruct (assign_greedy input labels r M order Hr Hsmall Hlen HM Hord)
    as (Hloop & Hperm & Hmin).
  fold idx in Hloop, Hperm, Hmin.
  assert (Hlab : Forall (fun i => exists l, labels !! i = Some l /\ l <= M)
                        (fst idx ++ snd idx)).
  { rewrite Hperm. apply (index_label input labels M order Hlen HM Hord). now intros i. }
  apply Forall_app in Hlab as [Hlab_tr Hlab_te].
  assert (Hsum : forall c, length (members labels c (fst idx))
                           + length (members labels c (snd idx))
                           = length (members labels c order)).
  { intros c. now rewrite <- members_app, (members_perm _ _ _ _ Hperm). }
  assert (Hcc : forall c, length (members labels c order) <= class_count labels c).
  { intros c. rewrite <- members_all, (members_perm _ _ _ _ Hord).
    replace (seq 0 (length labels))
      with (seq 0 (length input) ++ seq (length input) (length labels - length input))
      by (rewrite <- seq_app; f_equal; lia).
    rewrite members_app. lia. }
  exists M. split; [reflexivity|]. split; [now rewrite Hrun, Hloop|].
  split; [now rewrite Hperm|]. split.
  { intros c. rewrite (Hmin c). now rewrite (members_perm _ _ _ _ Hord). }
  split; [exact Htot|]. split.
  - rewrite <- (members_total labels M (fst idx) Hlab_tr).
    unfold stratified_train_size, Zsum_to. apply Zsum_tabulate_le. intros c _.
    specialize (Hsum c). specialize (Hmin c). specialize (Hcc c).
    pose proof (class_test_count_le labels r c Hr Hsmall). lia.
  - rewrite <- (members_total labels M (snd idx) Hlab_te).
    unfold stratified_test_size, Zsum_to. apply Zsum_tabulate_le. intros c _.
    specialize (Hmin c). lia.
Qed.

(** The greedy assignment in the order of the columns takes the first
    [budget] samples of every class. *)
Lemma greedy_seq (labels : list nat) (budget : nat -> nat) (n : nat) :
  n <= length labels ->
  greedy labels budget (seq 0 n)
  = (filter (fun i => early labels budget i = false) (seq 0 n),
     filter (fun i => early labels budget i = true) (seq 0 n)) /\
  forall l, length (members labels l
                      (filter (fun i => early labels budget i = true) (seq 0 n)))
            = Nat.min (class_count (take n labels) l) (budget l).
Proof.
  induction n as [|n IH]; intros Hn.
  - split; [reflexivity|]. intros l. reflexivity.
  - destruct (IH ltac:(lia)) as [IHg IHm].
    destruct (lookup_lt_is_Some_2 labels n ltac:(lia)) as [ln Hln].
    assert (Hg : greedy labels budget (seq 0 (S n))
                 = greedy_step labels budget (greedy labels budget (seq 0 n)) n).
    { unfold greedy. rewrite seq_S, foldl_app. reflexivity. }
    rewrite Hg, IHg. unfold greedy_step. cbn [fst snd]. rewrite Hln.
    rewrite seq_S, !filter_app, !filter_cons, !filter_nil. simpl "+".
    assert (He : early labels budget n
                 = bool_decide (class_count (take n labels) ln < budget ln)).
    { unfold early. now rewrite Hln. }
    pose proof (IHm ln) as Hmn.
    split.
    + rewrite He. destruct (decide (_ < budget ln)) as [Hlt|Hge].
      * rewrite bool_decide_eq_true_2 by lia.
        destruct (decide (true = false)); [discriminate|].
        destruct (decide (true = true)); [|congruence].
        now rewrite app_nil_r.
      * rewrite bool_decide_eq_false_2 by lia.
        destruct (decide (false = false)); [|congruence].
        destruct (decide (false = true)); [discriminate|].
        now rewrite app_nil_r.
    + intros l. rewrite members_app, (IHm l), (take_S_r _ _ _ Hln), class_count_snoc.
      rewrite He. destruct (bool_decide_reflect (class_count (take n labels) ln < budget ln))
        as [Hlt|Hge].
      * destruct (decide (true = true)); [|congruence].
        rewrite members_cons, Hln. simpl.
        destruct (decide (ln = l)) as [<-|Hne].
        -- destruct (decide (Some ln = Some ln)); [|congruence]. simpl. lia.
        -- destruct (decide (Some ln = Some l)) as [[= ?]|_]; [congruence|]. simpl. lia.
      * destruct (decide (false = true)); [discriminate|]. simpl.
        destruct (decide (ln = l)) as [<-|]; lia.
Qed.

(** X1.  In the order of the columns and with the labels in a row vector,
    [StratifiedSplit] sends to the test set the first
    [floor(classCount(c) * testRatio)] samples of every class [c] and to
    the training set the others; both outputs keep the order of the
    input. *)
Theorem StratifiedSplit_ordered_first_of_class :
  forall (shuffle : list nat -> list nat) (A : Type) (input : list A)
         (labels : list nat) (out : Outputs A nat) (r : double),
    fits_double input -> labels_fit labels -> valid_ratio r ->
    length labels = length input -> labels <> [] ->
    let first := early labels (class_test_count labels r) in
    let test := filter (fun i => first i = true) (seq 0 (length input)) in
    let train := filter (fun i => first i = false) (seq 0 (length input)) in
    StratifiedSplit shuffle (labels_of is_Row) input labels out r false
    = Ok (mkOutputs (select input train) (select input test)
                    (select labels train) (select labels test)).
Proof.
  intros shuffle A input labels out r Hfit Hlfit Hr Hlen Hne first test train.
  assert (Hsmall : fits_double labels) by (unfold fits_double, n_cols in *; now rewrite Hlen).
  destruct (StratifiedSplit_greedy shuffle input labels out r false
              ltac:(discriminate) Hsmall Hlfit Hr ltac:(lia) Hne)
    as (M & _ & Hres & Hperm & _ & Htot & Htr & Hte).
  destruct (greedy_seq labels (class_test_count labels r) (length input) ltac:(lia))
    as [Hg _].
  rewrite Hg in Hres, Hperm, Htr, Hte. cbn [fst snd] in Hres, Hperm, Htr, Hte.
  fold first in Hres, Hperm, Htr, Hte. fold test train in Hres, Hperm, Htr, Hte.
  pose proof (Permutation_length Hperm) as Hl. rewrite length_app, length_seq in Hl.
  rewrite Hres. unfold assign_state. cbn [s_out].
  replace (Z.to_nat (stratified_train_size labels r M) - length train) with 0 by lia.
  replace (Z.to_nat (stratified_test_size labels r M) - length test) with 0 by lia.
  simpl. now rewrite !app_nil_r.
Qed.

Lemma StratifiedSplit_ordered_first_of_class_witness :
  StratifiedSplit (@rev nat) (labels_of is_Row) [10; 11; 12; 13; 14; 15] [0; 1; 0; 1; 0; 0]
    fresh double_0_5 false
  = Ok (mkOutputs (select [10; 11; 12; 13; 14; 15] [3; 4; 5])
                  (select [10; 11; 12; 13; 14; 15] [0; 1; 2])
                  (select [0; 1; 0; 1; 0; 0] [3; 4; 5])
                  (select [0; 1; 0; 1; 0; 0] [0; 1; 2])).
Proof.
  assert (Hr : valid_ratio double_0_5) by (repeat split; reflexivity).
  assert (Hl : labels_fit [0; 1; 0; 1; 0; 0]) by (repeat constructor).
  assert (Hne : [0; 1; 0; 1; 0; 0] <> []) by discriminate.
  exact (StratifiedSplit_ordered_first_of_class (@rev nat) nat [10; 11; 12; 13; 14; 15]
           [0; 1; 0; 1; 0; 0] fresh double_0_5 eq_refl Hl Hr eq_refl Hne).
Defined.

(** X2.  [StratifiedSplit] with more labels than columns, the labels in a
    row vector, returns normally.  The class counts, and so the sizes of
    the outputs, are taken from all the labels, while only the columns are
    visited: the two data outputs hold as many columns as there are
    labels, and the ones beyond the number of columns of the input are
    never written. *)
Theorem StratifiedSplit_more_labels :
  forall (shuffle : list nat -> list nat) (A : Type) (input : list A)
         (labels : list nat) (out : Outputs A nat) (r : double) (shuffleData : bool),
    (shuffleData = true -> is_shuffle shuffle) ->
    fits_double labels -> labels_fit labels -> valid_ratio r ->
    length input < length labels ->
    exists (train test : list nat) (a b : nat),
      train ++ test ≡ₚ seq 0 (length input) /\
      a + b = length labels - length input /\
      StratifiedSplit shuffle (labels_of is_Row) input labels out r shuffleData
      = Ok (mkOutputs (select input train ++ replicate a None)
                      (select input test ++ replicate b None)
                      (select labels train ++ replicate a None)
                      (select labels test ++ replicate b None)).
Proof.
  intros shuffle A input labels out r shuffleData Hs Hsmall Hlfit Hr Hlen.
  assert (Hne : labels <> []) by (destruct labels; [simpl in Hlen; lia|discriminate]).
  destruct (StratifiedSplit_greedy shuffle input labels out r shuffleData
              Hs Hsmall Hlfit Hr ltac:(lia) Hne)
    as (M & _ & Hres & Hperm & _ & Htot & Htr & Hte).
  set (idx := greedy labels (class_test_count labels r) _) in *.
  pose proof (Permutation_length Hperm) as Hl. rewrite length_app, length_seq in Hl.
  exists (fst idx), (snd idx),
         (Z.to_nat (stratified_train_size labels r M) - length (fst idx)),
         (Z.to_nat (stratified_test_size labels r M) - length (snd idx)).
  split; [exact Hperm|]. split; [lia|]. exact Hres.
Qed.

Lemma StratifiedSplit_more_labels_witness :
  exists (train test : list nat) (a b : nat),
    train ++ test ≡ₚ seq 0 2 /\
    a + b = 4 - 2 /\
    StratifiedSplit (@rev nat) (labels_of is_Row) [10; 11] [0; 1; 0; 1] fresh double_0_5 true
    = Ok (mkOutputs (select [10; 11] train ++ replicate a None)
                    (select [10; 11] test ++ replicate b None)
                    (select [0; 1; 0; 1] train ++ replicate a None)
                    (select [0; 1; 0; 1] test ++ replicate b None)).
Proof.
  assert (Hr : valid_ratio double_0_5) by (repeat split; reflexivity).
  assert (Hl : labels_fit [0; 1; 0; 1]) by (repeat constructor).
  assert (Hlt : length [10; 11] < length [0; 1; 0; 1]) by (simpl; lia).
  exact (StratifiedSplit_more_labels (@rev nat) nat [10; 11] [0; 1; 0; 1] fresh double_0_5
           true (fun _ => rev_is_shuffle) eq_refl Hl Hr Hlt).
Defined.

(** X3.  [StratifiedSplit] with fewer labels than columns does not return
    normally, whatever the ratio and whatever the type of the labels: the
    assignment loop visits every column and reads [inputLabel[i]] without
    a check, when the call has not thrown before. *)
Theorem StratifiedSplit_fewer_labels :
  forall (shuffle : list nat -> list nat) (A : Type) (t : LabelsType) (input : list A)
         (labels : list nat) (out : Outputs A nat) (r : double) (shuffleData : bool),
    (shuffleData = true -> is_shuffle shuffle) ->
    length labels < length input ->
    exists e o, StratifiedSplit shuffle t input labels out r shuffleData = Err e o.
Proof.
  intros shuffle A t input labels out r shuffleData Hs Hlen.
  destruct (StratifiedSplit shuffle t input labels out r shuffleData) as [o|e o] eqn:Hrun;
    [exfalso|eauto].
  unfold StratifiedSplit in Hrun. destruct t as [v|]; [|discriminate].
  destruct (arma_max labels) as [M|]; cbn [try] in Hrun; [|discriminate].
  destruct (for_each labels _ _) as [lc|e lc]; cbn [phase] in Hrun; [|discriminate].
  destruct (for_each lc _ _) as [[trainSize testSize]|e sz]; cbn [phase] in Hrun;
    [|discriminate].
  destruct (vec_set_size v _ trainSize) as [tl|]; cbn [try] in Hrun; [|discriminate].
  destruct (vec_set_size v _ testSize) as [tl'|]; cbn [try] in Hrun; [|discriminate].
  set (order := if shuffleData then shuffle (linspace (length input))
                else seq 0 (length input)).
  assert (Hord : order ≡ₚ seq 0 (length input)).
  { unfold order. destruct shuffleData; [now apply Hs|reflexivity]. }
  assert (Hloop : exists st st', for_each order (assign input labels lc r) st = Ok st').
  { unfold order. destruct shuffleData.
    - destruct (for_each _ _ _) as [st'|e st'] eqn:Hl in Hrun; [eauto|discriminate].
    - rewrite for_loop_for_each in Hrun.
      destruct (for_each _ _ _) as [st'|e st'] eqn:Hl in Hrun; [eauto|discriminate]. }
  destruct Hloop as (st & st' & Hloop).
  apply (for_each_Ok_all (fun x => x < length labels)) in Hloop.
  - rewrite Forall_forall in Hloop.
    assert (Hin : length labels ∈ order).
    { rewrite Hord. apply list_elem_of_In, in_seq. lia. }
    specialize (Hloop _ Hin). lia.
  - intros x s s'. unfold assign, at_unchecked.
    destruct (labels !! x) as [l|] eqn:Hl; cbn [try]; [|discriminate].
    intros _. eapply lookup_lt_Some, Hl.
Qed.

Lemma StratifiedSplit_fewer_labels_witness :
  exists e o,
    StratifiedSplit (@rev nat) (labels_of is_Row) [10; 11; 12] [0; 1] (@fresh nat nat)
      double_0_5 false
    = Err e o.
Proof.
  assert (Hlt : length [0; 1] < length [10; 11; 12]) by (simpl; lia).
  assert (Hs : false = true -> is_shuffle (@rev nat)) by discriminate.
  exact (StratifiedSplit_fewer_labels (@rev nat) nat (labels_of is_Row) [10; 11; 12] [0; 1]
           fresh double_0_5 false Hs Hlt).
Defined.

Lemma cols_refused {X} (m : list X) (a b : Z) :
  (b < a \/ n_cols m <= b)%Z -> cols m a b = None.
Proof.
  intros H. unfold cols.
  destruct (Z.gtb_spec a b); [reflexivity|].
  destruct (Z.geb_spec b (n_cols m)); [reflexivity|lia].
Qed.

(** X4.  Without shuffling, [Split] with fewer labels than columns returns
    normally when [trainSize] is below the number of labels: the test labels
    are then the labels from [trainSize] on, fewer than the test columns.
    From [trainSize] equal to the number of labels on, the range check of
    the labels throws, after [trainData] has been assigned. *)
Theorem Split_ordered_fewer_labels :
  forall (shuffle : list nat -> list nat) (A B : Type) (input : list A)
         (inputLabel : list B) (out : Outputs A B) (r : double),
    fits_double input -> valid_ratio r -> length inputLabel < length input ->
    let k := train_count (length input) r in
    (k < length inputLabel ->
       Split shuffle input inputLabel out r false
       = Ok (mkOutputs (filled (take k input)) (filled (drop k input))
                       (filled (take k inputLabel)) (filled (drop k inputLabel))) /\
       length (drop k inputLabel) < length (drop k input)) /\
    (length inputLabel <= k ->
       exists o, Split shuffle input inputLabel out r false = Err logic_error o /\
         trainData o = filled (take k input) /\
         testLabel o = replicate (length input - k) None).
Proof.
  intros shuffle A B input inputLabel out r Hfit Hr Hlen k.
  unfold Split, SplitHelper, fits_double, n_cols in *.
  pose proof double_exact_fits as Hmod.
  pose proof (test_count_bounds (Z.of_nat (length input)) r ltac:(lia) Hr) as Ht.
  rewrite static_cast_test_count by (auto; lia). cbn [try].
  fold (train_count (length input) r) in k.
  set (t := test_count (Z.of_nat (length input)) r) in *.
  rewrite size_t_wrap_small by lia.
  assert (Hk : (Z.of_nat (length input) - t)%Z = Z.of_nat k) by (unfold train_count in k; lia).
  rewrite Hk. unfold set_size. rewrite Nat2Z.id.
  assert (Hkn : k <= length input) by (unfold train_count in k; lia).
  assert (Ht0 : Z.to_nat t = length input - k) by lia.
  rewrite Ht0. split.
  - intros HkL. split; [|rewrite !length_drop; lia].
    destruct (Z.gtb_spec (Z.of_nat k) 0) as [Hpos|Hzero].
    + rewrite !cols_prefix by lia. cbn [try bind trainData testData trainLabel testLabel].
      destruct (Z.ltb_spec (Z.of_nat k) (Z.of_nat (length input))); [|lia].
      rewrite size_t_wrap_small by lia. rewrite !cols_suffix by lia. reflexivity.
    + assert (k = 0) as -> by lia. cbn [bind replicate].
      destruct (Z.ltb_spec (Z.of_nat 0) (Z.of_nat (length input))); [|lia].
      rewrite size_t_wrap_small by lia. rewrite !cols_suffix by lia. reflexivity.
  - intros HLk.
    destruct (Z.gtb_spec (Z.of_nat k) 0) as [Hpos|Hzero].
    + rewrite cols_prefix by lia. cbn [try bind trainData testData trainLabel testLabel].
      destruct (decide (k = length inputLabel)) as [Heq|Hne].
      * rewrite cols_prefix by lia.
        cbn [try bind trainData testData trainLabel testLabel].
        destruct (Z.ltb_spec (Z.of_nat k) (Z.of_nat (length input))); [|lia].
        rewrite cols_suffix by lia.
        cbn [try bind trainData testData trainLabel testLabel].
        rewrite size_t_wrap_small by lia.
        rewrite (cols_refused inputLabel) by (unfold n_cols; lia). cbn [try].
        eexists. split; [reflexivity|]. split; reflexivity.
      * rewrite (cols_refused inputLabel) by (unfold n_cols; lia). cbn [try bind].
        eexists. split; [reflexivity|]. split; reflexivity.
    + assert (k = 0) as Hk0 by lia. rewrite Hk0 in *. cbn [bind replicate].
      destruct (Z.ltb_spec (Z.of_nat 0) (Z.of_nat (length input))); [|lia].
      rewrite cols_suffix by lia.
      cbn [try bind trainData testData trainLabel testLabel].
      assert (HL0 : length inputLabel = 0) by lia. rewrite HL0.
      replace (size_t_wrap (Z.of_nat 0 - 1)) with 18446744073709551615%Z by reflexivity.
      rewrite (cols_refused inputLabel) by (unfold n_cols; lia).
      cbn [try]. eexists. split; [reflexivity|]. split; reflexivity.
Qed.

Lemma Split_ordered_fewer_labels_witness :
  Split (@rev nat) [10; 11; 12; 13; 14; 15] [0; 1; 0; 1] fresh double_0_5 false
  = Ok (mkOutputs (filled [10; 11; 12]) (filled [13; 14; 15])
                  (filled [0; 1; 0]) (filled [1])) /\
  length [1] < length [13; 14; 15].
Proof.
  assert (Hr : valid_ratio double_0_5) by (repeat split; reflexivity).
  assert (Hlt : length [0; 1; 0; 1] < length [10; 11; 12; 13; 14; 15]) by (simpl; lia).
  assert (Hk : train_count (length [10; 11; 12; 13; 14; 15]) double_0_5
               < length [0; 1; 0; 1]) by (vm_compute; lia).
  exact (proj1 (Split_ordered_fewer_labels (@rev nat) nat nat [10; 11; 12; 13; 14; 15]
                  [0; 1; 0; 1] fresh double_0_5 eq_refl Hr Hlt) Hk).
Defined.

(** ** The extremes of [testRatio] *)

Lemma valid_ratio_one : valid_ratio double_one.
Proof. repeat split; reflexivity. Qed.

Lemma valid_ratio_zero (s : bool) : valid_ratio (S754_zero s).
Proof. destruct s; repeat split; reflexivity. Qed.

Section RatioOne.
Local Open Scope Z_scope.

(** [n * 1.0] is [n]. *)
Lemma dmul_one (n : Z) :
  (0 <= n < 2 ^ 53)%Z -> dmul (double_of_size_t n) double_one = double_of_size_t n.
Proof.
  intros Hn. destruct (Z.eq_dec n 0) as [->|Hn0]; [reflexivity|].
  rewrite double_of_size_t_pos by lia.
  assert (HV : (Zpos (Z.to_pos n) < 2 ^ 53)%Z) by (rewrite Z2Pos.id; lia).
  destruct (canon_digits (Z.to_pos n) HV) as (Hd & Hz & Hdz). cbv zeta in *.
  rewrite <- (binary_round_exact (Z.to_pos n)
                (Z.to_pos (Zpos (Z.to_pos n) * 2 ^ (53 - Zpos (digits2_pos (Z.to_pos n))))
                 * 4503599627370496)
                (Zpos (digits2_pos (Z.to_pos n)) - 53 + -52)) at 2; [|lia| |exact HV].
  - unfold canon, dmul, double_one. cbn [SFmul xorb].
    unfold binary_round.
    set (M := (Z.to_pos (Zpos (Z.to_pos n) * 2 ^ (53 - Zpos (digits2_pos (Z.to_pos n))))
               * 4503599627370496)%positive).
    assert (HdM : Zpos (digits2_pos M) = (53 + 52)%Z).
    { rewrite <- Hdz. apply digits2_scaled; [lia|]. unfold M. rewrite Pos2Z.inj_mul.
      reflexivity. }
    rewrite HdM. change (fexp 53 1024) with fexp64.
    rewrite fexp64_eq. unfold shl_align.
    destruct (Z.max _ _ - _)%Z as [|p|p] eqn:Hp; try reflexivity. lia.
  - rewrite Pos2Z.inj_mul, Hz. change (Zpos 4503599627370496) with (2 ^ 52)%Z.
    rewrite <- Z.mul_assoc, <- Z.pow_add_r by lia. do 2 f_equal. lia.
Qed.

Lemma test_count_one (n : Z) : (0 <= n < 2 ^ 53)%Z -> test_count n double_one = n.
Proof.
  intros Hn. pose proof (static_cast_test_count n double_one Hn valid_ratio_one) as H.
  rewrite dmul_one, size_t_of_double_of_size_t in H by exact Hn. congruence.
Qed.

Lemma test_count_zero (n : Z) (s : bool) :
  (0 <= n < 2 ^ 53)%Z -> test_count n (S754_zero s) = 0%Z.
Proof.
  intros Hn. unfold test_count.
  destruct (double_of_size_t_cases n Hn) as [[_ ->]|(_ & m & e & ->)]; reflexivity.
Qed.
End RatioOne.

(** [Split] at the two ends, in the order [order] of the visit. *)
Section SplitExtremes.
Context {A B : Type}.
Variable shuffle : list nat -> list nat.
Variables (input : list A) (inputLabel : list B) (out : Outputs A B) (shuffleData : bool).
Hypothesis shuffle_ok : shuffleData = true -> is_shuffle shuffle.
Hypothesis input_fits : fits_double input.
Hypothesis same_length : length inputLabel = length input.

Local Abbreviation order :=
  (if shuffleData then shuffle (linspace (length input)) else seq 0 (length input)).

Lemma Split_at_zero (s : bool) :
  Split shuffle input inputLabel out (S754_zero s) shuffleData
  = Ok (mkOutputs (select input order) [] (select inputLabel order) []).
Proof.
  assert (Hn : (0 <= Z.of_nat (length input) < 2 ^ 53)%Z)
    by (unfold fits_double, n_cols in input_fits; lia).
  assert (Hfitl : fits_size_t inputLabel) by (eapply fits_same_length; eauto).
  assert (Hk : train_count (length input) (S754_zero s) = length input).
  { unfold train_count. rewrite test_count_zero by exact Hn. simpl. lia. }
  unfold Split. destruct shuffleData.
  - pose proof (shuffle_ok eq_refl) as Hs.
    rewrite (SplitHelper_shuffled shuffle Hs) by (auto using valid_ratio_zero; lia).
    rewrite Hk. pose proof (shuffle_length shuffle (length input) Hs).
    rewrite !take_ge, !drop_ge by lia. reflexivity.
  - rewrite (SplitHelper_ordered shuffle) by (auto using valid_ratio_zero; lia).
    rewrite Hk. rewrite !take_ge, !drop_ge by lia.
    rewrite !select_seq by lia. rewrite !drop_0, !take_ge by lia.
    destruct (decide _); reflexivity.
Qed.

Lemma Split_at_one :
  Split shuffle input inputLabel out double_one shuffleData
  = Ok (mkOutputs [] (select input order) [] (select inputLabel order)).
Proof.
  assert (Hn : (0 <= Z.of_nat (length input) < 2 ^ 53)%Z)
    by (unfold fits_double, n_cols in input_fits; lia).
  assert (Hfitl : fits_size_t inputLabel) by (eapply fits_same_length; eauto).
  assert (Hk : train_count (length input) double_one = 0).
  { unfold train_count. rewrite test_count_one by exact Hn. lia. }
  unfold Split. destruct shuffleData.
  - pose proof (shuffle_ok eq_refl) as Hs.
    rewrite (SplitHelper_shuffled shuffle Hs) by (auto using valid_ratio_one; lia).
    rewrite Hk. reflexivity.
  - rewrite (SplitHelper_ordered shuffle) by (auto using valid_ratio_one; lia).
    rewrite Hk. rewrite !select_seq by lia.
    rewrite !drop_0, (take_ge input (length input)), (take_ge inputLabel (length input))
      by lia.
    destruct (decide _) as [|Hz]; [reflexivity|].
    assert (length inputLabel = 0) by lia.
    destruct inputLabel; [reflexivity|discriminate].
Qed.
End SplitExtremes.

(** X5.  At the ends of the range of [testRatio], [Split] gives one output
    everything: with [testRatio = 0.0] (of either sign) the test outputs are
    empty and the training outputs hold every column with its label, and
    with [testRatio = 1.0] it is the other way round.  Shuffled, the
    columns are in the order of the shuffle; in order, the output is the
    input. *)
Theorem Split_extreme_ratios :
  forall (shuffle : list nat -> list nat) (A B : Type) (input : list A)
         (inputLabel : list B) (out : Outputs A B),
    is_shuffle shuffle -> fits_double input -> length inputLabel = length input ->
    let order := shuffle (linspace (length input)) in
    (forall s : bool,
       Split shuffle input inputLabel out (S754_zero s) true
       = Ok (mkOutputs (select input order) [] (select inputLabel order) []) /\
       Split shuffle input inputLabel out (S754_zero s) false
       = Ok (mkOutputs (filled input) [] (filled inputLabel) [])) /\
    Split shuffle input inputLabel out double_one true
    = Ok (mkOutputs [] (select input order) [] (select inputLabel order)) /\
    Split shuffle input inputLabel out double_one false
    = Ok (mkOutputs [] (filled input) [] (filled inputLabel)).
Proof.
  intros shuffle A B input inputLabel out Hs Hfit Hlen order.
  assert (Hno : false = true -> is_shuffle shuffle) by discriminate.
  split; [intros s; split|split].
  - exact (Split_at_zero shuffle input inputLabel out true (fun _ => Hs) Hfit Hlen s).
  - rewrite (Split_at_zero shuffle input inputLabel out false Hno Hfit Hlen s).
    rewrite !select_seq by lia. now rewrite !drop_0, !take_ge by lia.
  - exact (Split_at_one shuffle input inputLabel out true (fun _ => Hs) Hfit Hlen).
  - rewrite (Split_at_one shuffle input inputLabel out false Hno Hfit Hlen).
    rewrite !select_seq by lia. now rewrite !drop_0, !take_ge by lia.
Qed.

Lemma Split_extreme_ratios_witness :
  (forall s : bool,
     Split (@rev nat) [10; 11; 12] [0; 1; 0] fresh (S754_zero s) true
     = Ok (mkOutputs (select [10; 11; 12] [2; 1; 0]) [] (select [0; 1; 0] [2; 1; 0]) []) /\
     Split (@rev nat) [10; 11; 12] [0; 1; 0] fresh (S754_zero s) false
     = Ok (mkOutputs (filled [10; 11; 12]) [] (filled [0; 1; 0]) [])) /\
  Split (@rev nat) [10; 11; 12] [0; 1; 0] fresh double_one true
  = Ok (mkOutputs [] (select [10; 11; 12] [2; 1; 0]) [] (select [0; 1; 0] [2; 1; 0])) /\
  Split (@rev nat) [10; 11; 12] [0; 1; 0] fresh double_one false
  = Ok (mkOutputs [] (filled [10; 11; 12]) [] (filled [0; 1; 0])).
Proof.
  exact (Split_extreme_ratios (@rev nat) nat nat [10; 11; 12] [0; 1; 0] fresh
           rev_is_shuffle eq_refl eq_refl).
Defined.

(** ** The partitioner without columns, and outside the range of the ratio *)

(** X6.  On a dataset without columns [Split] returns four empty outputs,
    for every [testRatio] that is a number, in the range or not, whatever
    the labels and in both modes.  [StratifiedSplit] on an empty label
    vector, row or column, throws when it asks for the largest label, and
    leaves the outputs as they were (on labels of another type than a
    vector it has thrown the runtime error of [typeCheck] before); so of
    the two modes of the overload that returns a tuple one returns and the
    other throws. *)
Theorem Split_no_columns :
  forall (shuffle : list nat -> list nat) (A B : Type) (inputLabel : list B)
         (out : Outputs A B) (r : double) (shuffleData : bool),
    dfinite r = true ->
    Split shuffle [] inputLabel out r shuffleData = Ok (mkOutputs [] [] [] []) /\
    (forall (input : list A) (out' : Outputs A nat),
        (forall t : VecType,
            StratifiedSplit shuffle (labels_of t) input [] out' r shuffleData
            = Err logic_error out') /\
        StratifiedSplit shuffle labels_other input [] out' r shuffleData
        = Err runtime_error out') /\
    Split_tuple shuffle (@nil A) [] r shuffleData false = Ok fresh /\
    Split_tuple shuffle (@nil A) [] r shuffleData true = Err logic_error fresh.
Proof.
  intros shuffle A B inputLabel out r shuffleData Hr.
  assert (H : forall (C : Type) (labels : list C) (o : Outputs A C),
             Split shuffle [] labels o r shuffleData = Ok (mkOutputs [] [] [] [])).
  { intros C labels o. unfold Split, SplitHelper.
    destruct r as [s| | |s m e]; try discriminate; destruct shuffleData; reflexivity. }
  split; [apply H|]. split; [intros input out'; split; reflexivity|].
  split; [apply H|reflexivity].
Qed.

Lemma Split_no_columns_witness :
  Split (@rev nat) (@nil nat) [0; 1] fresh double_0_7 true = Ok (mkOutputs [] [] [] []) /\
  (forall (input : list nat) (out' : Outputs nat nat),
      (forall t : VecType,
          StratifiedSplit (@rev nat) (labels_of t) input [] out' double_0_7 true
          = Err logic_error out') /\
      StratifiedSplit (@rev nat) labels_other input [] out' double_0_7 true
      = Err runtime_error out') /\
  Split_tuple (@rev nat) (@nil nat) [] double_0_7 true false = Ok fresh /\
  Split_tuple (@rev nat) (@nil nat) [] double_0_7 true true = Err logic_error fresh.
Proof.
  exact (Split_no_columns (@rev nat) nat nat [0; 1] fresh double_0_7 true eq_refl).
Defined.

(** The product of a size and a negative [testRatio] is not positive. *)
Lemma binary_round_aux_sign (sx : bool) (mx ex : Z) :
  match binary_round_aux 53 1024 sx mx ex loc_Exact with
  | S754_zero s | S754_infinity s | S754_finite s _ _ => s = sx
  | S754_nan => True
  end.
Proof.
  unfold binary_round_aux.
  destruct (shr_fexp 53 1024 mx ex loc_Exact) as [mrs' e'].
  destruct (shr_fexp 53 1024 _ e' loc_Exact) as [mrs'' e''].
  destruct (shr_m mrs'') as [|m|m]; [reflexivity| |exact I].
  destruct (e'' <=? 1024 - 53)%Z; reflexivity.
Qed.

(** X7.  [Split] does not check [testRatio].  With a NaN or an infinity the
    product [n_cols * testRatio] is converted to [size_t] all the same,
    which is undefined; with a negative ratio the product either truncates
    to zero, and the call is the one with [testRatio = 0], or its
    conversion is undefined.  In no case has an output been touched when
    the conversion is reached. *)
Theorem Split_ratio_unchecked :
  forall (shuffle : list nat -> list nat) (A B : Type) (input : list A)
         (inputLabel : list B) (out : Outputs A B) (r : double) (shuffleData : bool),
    fits_double input ->
    (dfinite r = false ->
       Split shuffle input inputLabel out r shuffleData = Err undefined_behaviour out) /\
    (forall m e, r = S754_finite true m e ->
       Split shuffle input inputLabel out r shuffleData = Err undefined_behaviour out \/
       Split shuffle input inputLabel out r shuffleData
       = Split shuffle input inputLabel out double_zero shuffleData).
Proof.
  intros shuffle A B input inputLabel out r shuffleData Hfit.
  assert (Hn : (0 <= n_cols input < 2 ^ 53)%Z)
    by (unfold fits_double, n_cols in *; lia).
  unfold Split, SplitHelper. split.
  - intros Hr.
    destruct (double_of_size_t_cases (n_cols input) Hn) as [[_ ->]|(_ & m & e & ->)];
      destruct r as [s|s| |s m' e']; try discriminate; reflexivity.
  - intros m e ->.
    assert (H0 : size_t_of_double (dmul (double_of_size_t (n_cols input)) double_zero)
                 = Some 0%Z).
    { destruct (double_of_size_t_cases (n_cols input) Hn) as [[_ ->]|(_ & m0 & e0 & ->)];
        reflexivity. }
    rewrite H0. cbn [try].
    destruct (double_of_size_t_cases (n_cols input) Hn) as [[_ ->]|(_ & m0 & e0 & ->)].
    + right. reflexivity.
    + unfold dmul, b64_prec, b64_emax. cbn [SFmul xorb].
      pose proof (binary_round_aux_sign true (Zpos (m0 * m)) (e0 + e)) as Hs.
      destruct (binary_round_aux 53 1024 true (Zpos (m0 * m)) (e0 + e) loc_Exact)
        as [s|s| |s m1 e1]; try subst s; cbn [size_t_of_double try]; auto.
      destruct (Z.shiftl (Zpos m1) e1 =? 0)%Z; cbn [try]; auto.
Qed.

Lemma Split_ratio_unchecked_witness :
  Split (@rev nat) [10; 11; 12] [0; 1; 0] fresh S754_nan true
  = Err undefined_behaviour fresh.
Proof.
  exact (proj1 (Split_ratio_unchecked (@rev nat) nat nat [10; 11; 12] [0; 1; 0] fresh
                  S754_nan true eq_refl) eq_refl).
Defined.

(** ** The overloads for fields *)

(** X9.  The overload of [Split] for fields takes its outputs in the order
    [trainData], [trainLabel], [testData], [testLabel]: after a call the
    second of them holds the labels of the training columns and the third
    the test columns, each column with its label, and the overload that
    returns a tuple gives them in the order of the tuple of the matrix
    overload, data first. *)
Theorem Split_field_argument_order :
  forall (shuffle : list nat -> list nat) (A B : Type) (input : list A)
         (inputLabel : list B) (r : double) (shuffleData : bool),
    is_shuffle shuffle -> fits_double input -> valid_ratio r ->
    length inputLabel = length input ->
    exists train test : list nat,
      train ++ test ≡ₚ seq 0 (length input) /\
      (forall (p3 : list (option A)) (p4 : list (option B))
              (p5 : list (option A)) (p6 : list (option B)),
          Split_field shuffle input inputLabel p3 p4 p5 p6 r shuffleData
          = Ok (select input train, select inputLabel train,
                select input test, select inputLabel test)) /\
      Split_field_tuple shuffle input inputLabel r shuffleData
      = Ok (mkOutputs (select input train) (select input test)
                      (select inputLabel train) (select inputLabel test)).
Proof.
  intros shuffle A B input inputLabel r shuffleData Hs Hfit Hr Hlen.
  pose proof (train_count_le (length input) r) as Hk.
  set (k := train_count (length input) r) in *.
  assert (Hfitl : fits_size_t inputLabel) by (eapply fits_same_length; eauto).
  assert (Hgen : exists train test : list nat,
    train ++ test ≡ₚ seq 0 (length input) /\
    forall out, SplitHelper shuffle input inputLabel out r shuffleData
                = Ok (mkOutputs (select input train) (select input test)
                                (select inputLabel train) (select inputLabel test))).
  { destruct shuffleData.
    - exists (take k (shuffle (linspace (length input)))),
             (drop k (shuffle (linspace (length input)))).
      split; [rewrite take_drop; apply Hs|]. intros out.
      now rewrite (SplitHelper_shuffled shuffle Hs) by (auto; lia).
    - exists (seq 0 k), (seq k (length input - k)). split.
      + rewrite <- seq_app. now replace (k + (length input - k)) with (length input) by lia.
      + intros out. rewrite (SplitHelper_ordered shuffle) by (auto; lia). fold k.
        rewrite !select_seq by lia. rewrite !drop_0.
        rewrite !(take_ge (drop _ _)) by (rewrite length_drop; lia).
        destruct (decide _); [reflexivity|]. now rewrite (drop_ge inputLabel) by lia. }
  destruct Hgen as (train & test & Hperm & Hrun).
  exists train, test. split; [exact Hperm|]. split.
  - intros p3 p4 p5 p6. unfold Split_field. now rewrite Hrun.
  - unfold Split_field_tuple, Split_field. now rewrite Hrun.
Qed.

Lemma Split_field_argument_order_witness :
  exists train test : list nat,
    train ++ test ≡ₚ seq 0 3 /\
    (forall (p3 : list (option nat)) (p4 : list (option nat))
            (p5 : list (option nat)) (p6 : list (option nat)),
        Split_field (@rev nat) [10; 11; 12] [0; 1; 0] p3 p4 p5 p6 double_0_5 false
        = Ok (select [10; 11; 12] train, select [0; 1; 0] train,
              select [10; 11; 12] test, select [0; 1; 0] test)) /\
    Split_field_tuple (@rev nat) [10; 11; 12] [0; 1; 0] double_0_5 false
    = Ok (mkOutputs (select [10; 11; 12] train) (select [10; 11; 12] test)
                    (select [0; 1; 0] train) (select [0; 1; 0] test)).
Proof.
  assert (Hr : valid_ratio double_0_5) by (repeat split; reflexivity).
  exact (Split_field_argument_order (@rev nat) nat nat [10; 11; 12] [0; 1; 0] double_0_5
           false rev_is_shuffle eq_refl Hr eq_refl).
Defined.

(** ** [StratifiedSplit] at the ends of the range of [testRatio] *)

(** With no budget every column goes to the training set. *)
Lemma greedy_no_budget (labels : list nat) (budget : nat -> nat) (order : list nat) :
  (forall l, budget l = 0) -> Forall (fun x => x < length labels) order ->
  greedy labels budget order = (order, []).
Proof.
  intros Hb. induction order as [|x order IH] using rev_ind; intros Hin; [reflexivity|].
  apply Forall_app in Hin as [Hin Hx]. apply Forall_inv in Hx.
  unfold greedy in *. rewrite foldl_app. simpl. rewrite IH by exact Hin.
  unfold greedy_step. cbn [fst snd].
  destruct (lookup_lt_is_Some_2 labels x Hx) as [l ->].
  rewrite Hb. destruct (decide _); [lia|reflexivity].
Qed.

(** When no column went to the training set, the test set is the columns
    in the order of their visit. *)
Lemma greedy_all_test (labels : list nat) (budget : nat -> nat) (order : list nat) :
  Forall (fun x => x < length labels) order ->
  fst (greedy labels budget order) = [] ->
  snd (greedy labels budget order) = order.
Proof.
  induction order as [|x order IH] using rev_ind; intros Hin; [reflexivity|].
  apply Forall_app in Hin as [Hin Hx]. apply Forall_inv in Hx.
  unfold greedy in *. rewrite foldl_app. simpl.
  unfold greedy_step at 1 3.
  destruct (lookup_lt_is_Some_2 labels x Hx) as [l ->].
  destruct (decide _); cbn [fst snd].
  - intros Hnil. now rewrite IH.
  - intros Hnil. now apply app_nil in Hnil as [_ [=]].
Qed.

Section StratifiedExtremes.
Context {A : Type}.
Variable shuffle : list nat -> list nat.
Variables (input : list A) (labels : list nat) (out : Outputs A nat) (shuffleData : bool).
Hypothesis shuffle_ok : shuffleData = true -> is_shuffle shuffle.
Hypothesis input_fits : fits_double input.
Hypothesis labels_ok : labels_fit labels.
Hypothesis same_length : length labels = length input.
Hypothesis not_empty : labels <> [].

Local Abbreviation order :=
  (if shuffleData then shuffle (linspace (length input)) else seq 0 (length input)).

Lemma order_perm_seq : order ≡ₚ seq 0 (length input).
Proof. destruct shuffleData; [now apply shuffle_ok|reflexivity]. Qed.

Lemma order_in_labels : Forall (fun x => x < length labels) order.
Proof.
  apply Forall_forall. intros x Hx. rewrite order_perm_seq in Hx.
  apply list_elem_of_In, in_seq in Hx. lia.
Qed.

Lemma labels_fit_double : fits_double labels.
Proof. unfold fits_double, n_cols in *. now rewrite same_length. Qed.

Lemma class_count_range (c : nat) : (0 <= Z.of_nat (class_count labels c) < 2 ^ 53)%Z.
Proof.
  pose proof (class_count_le labels c) as Hc. pose proof labels_fit_double as Hd.
  unfold fits_double, n_cols in Hd. lia.
Qed.

(** [testRatio = 0.0]: every column goes to the training set. *)
Lemma StratifiedSplit_at_zero (s : bool) :
  StratifiedSplit shuffle (labels_of is_Row) input labels out (S754_zero s) shuffleData
  = Ok (mkOutputs (select input order) [] (select labels order) []).
Proof.
  destruct (StratifiedSplit_greedy shuffle input labels out (S754_zero s) shuffleData
              shuffle_ok labels_fit_double labels_ok (valid_ratio_zero s)
              ltac:(lia) not_empty)
    as (M & _ & Hres & Hperm & _ & Htot & Htr & Hte).
  rewrite greedy_no_budget in Hres, Hperm, Htr, Hte;
    try exact order_in_labels;
    try (intros l; unfold class_test_count;
         now rewrite test_count_zero by apply class_count_range).
  cbn [fst snd] in *.
  pose proof (Permutation_length Hperm) as Hl. rewrite app_nil_r, length_seq in Hl.
  pose proof (stratified_test_size_nonneg labels (S754_zero s) M).
  rewrite Hres. unfold assign_state. cbn [s_out]. simpl length.
  replace (Z.to_nat (stratified_train_size labels (S754_zero s) M) - length order)
    with 0 by lia.
  replace (Z.to_nat (stratified_test_size labels (S754_zero s) M) - 0) with 0 by lia.
  simpl. now rewrite !app_nil_r.
Qed.

(** [testRatio = 1.0]: every column goes to the test set. *)
Lemma StratifiedSplit_at_one :
  StratifiedSplit shuffle (labels_of is_Row) input labels out double_one shuffleData
  = Ok (mkOutputs [] (select input order) [] (select labels order)).
Proof.
  destruct (StratifiedSplit_greedy shuffle input labels out double_one shuffleData
              shuffle_ok labels_fit_double labels_ok valid_ratio_one
              ltac:(lia) not_empty)
    as (M & HM & Hres & Hperm & _ & Htot & Htr & Hte).
  set (idx := greedy labels (class_test_count labels double_one) order) in *.
  assert (Hts : stratified_test_size labels double_one M = Z.of_nat (length labels)).
  { unfold stratified_test_size, Zsum_to.
    rewrite (tabulate_ext _ (fun c => Z.of_nat (class_count labels c))).
    - apply (class_count_total labels M), arma_max_bound, HM.
    - intros c _. unfold class_test_count.
      rewrite test_count_one by apply class_count_range. now rewrite Nat2Z.id. }
  pose proof (Permutation_length Hperm) as Hl. rewrite length_app, length_seq in Hl.
  assert (Hnil : fst idx = []) by (apply length_zero_iff_nil; lia).
  pose proof (greedy_all_test labels (class_test_count labels double_one) order
                order_in_labels Hnil) as Hall.
  fold idx in Hall.
  rewrite Hres, Hnil, Hall. unfold assign_state. cbn [s_out]. simpl length.
  pose proof (Permutation_length order_perm_seq) as Hlo. rewrite length_seq in Hlo.
  replace (Z.to_nat (stratified_train_size labels double_one M) - 0) with 0 by lia.
  replace (Z.to_nat (stratified_test_size labels double_one M) - length order)
    with 0 by lia.
  simpl. now rewrite !app_nil_r.
Qed.
End StratifiedExtremes.

(** X10.  At [testRatio = 0.0] and at [testRatio = 1.0] stratification makes
    no difference: on a dataset with one label per column, the labels in
    a row vector, [StratifiedSplit] leaves in the four outputs what
    [Split] leaves in them, in both modes, and so the overload that
    returns a tuple gives the same tuple for both values of
    [stratifyData]. *)
Theorem StratifiedSplit_extreme_ratios :
  forall (shuffle : list nat -> list nat) (A : Type) (input : list A)
         (labels : list nat) (out : Outputs A nat) (r : double) (shuffleData : bool),
    (shuffleData = true -> is_shuffle shuffle) ->
    fits_double input -> labels_fit labels ->
    length labels = length input -> labels <> [] ->
    r = double_one \/ (exists s, r = S754_zero s) ->
    StratifiedSplit shuffle (labels_of is_Row) input labels out r shuffleData
    = Split shuffle input labels out r shuffleData /\
    Split_tuple shuffle input labels r shuffleData true
    = Split_tuple shuffle input labels r shuffleData false.
Proof.
  intros shuffle A input labels out r shuffleData Hs Hfit Hlfit Hlen Hne Hr.
  unfold Split_tuple.
  destruct Hr as [->|[s ->]].
  - rewrite !(StratifiedSplit_at_one shuffle input labels _ shuffleData) by assumption.
    rewrite !(Split_at_one shuffle input labels _ shuffleData) by assumption.
    split; reflexivity.
  - rewrite !(StratifiedSplit_at_zero shuffle input labels _ shuffleData) by assumption.
    rewrite !(Split_at_zero shuffle input labels _ shuffleData) by assumption.
    split; reflexivity.
Qed.

Lemma StratifiedSplit_extreme_ratios_witness :
  StratifiedSplit (@rev nat) (labels_of is_Row) [10; 11; 12] [0; 1; 0] fresh double_one true
  = Split (@rev nat) [10; 11; 12] [0; 1; 0] fresh double_one true /\
  Split_tuple (@rev nat) [10; 11; 12] [0; 1; 0] double_one true true
  = Split_tuple (@rev nat) [10; 11; 12] [0; 1; 0] double_one true false.
Proof.
  assert (Hl : labels_fit [0; 1; 0]) by (repeat constructor).
  assert (Hne : [0; 1; 0] <> []) by discriminate.
  assert (Hr : double_one = double_one \/ (exists s, double_one = S754_zero s))
    by (left; reflexivity).
  exact (StratifiedSplit_extreme_ratios (@rev nat) nat [10; 11; 12] [0; 1; 0] fresh
           double_one true (fun _ => rev_is_shuffle) eq_refl Hl eq_refl Hne Hr).
Defined.

(** ** The split evaluator: the children *)

Lemma concat_tabulate_S {X} (f : nat -> list X) (n : nat) :
  concat (tabulate f (S n)) = concat (tabulate f n) ++ f n.
Proof. rewrite tabulate_S, concat_app. simpl. now rewrite app_nil_r. Qed.

Lemma concat_tabulate_app {X} (f g : nat -> list X) (n : nat) :
  concat (tabulate (fun c => f c ++ g c) n)
  ≡ₚ concat (tabulate f n) ++ concat (tabulate g n).
Proof.
  induction n as [|n IH]; [reflexivity|].
  rewrite !concat_tabulate_S, IH. rewrite <- !app_assoc. apply Permutation_app_head.
  rewrite !app_assoc. apply Permutation_app_tail. apply Permutation_app_comm.
Qed.

Lemma concat_tabulate_single {X} (x : X) (c0 n : nat) :
  c0 < n -> concat (tabulate (fun c => if decide (c0 = c) then [x] else []) n) = [x].
Proof.
  induction n as [|n IH]; intros Hc; [lia|]. rewrite concat_tabulate_S.
  destruct (decide (c0 = n)) as [->|Hne].
  - assert (H : forall m, m <= n ->
               concat (tabulate (fun c => if decide (n = c) then [x] else []) m) = []).
    { induction m as [|m IHm]; intros Hm; [reflexivity|].
      rewrite concat_tabulate_S, IHm by lia. destruct (decide (n = m)); [lia|reflexivity]. }
    now rewrite H.
  - rewrite IH by lia. now rewrite app_nil_r.
Qed.

(** The buckets of the categories below [N] partition the entries of the
    samples whose category is below [N]. *)
Lemma bucket_partition {X} (N : nat) (pairs : list (double * X)) :
  Forall (fun p => exists c, category_of (fst p) = Some c /\ c < N) pairs ->
  concat (tabulate (fun c => bucket c pairs) N) ≡ₚ snd <$> pairs.
Proof.
  induction 1 as [|[d x] pairs (c0 & Hc0 & HcN) _ IH].
  - simpl. clear. induction N as [|N IH]; [reflexivity|].
    rewrite concat_tabulate_S, IH. reflexivity.
  - rewrite fmap_cons. simpl snd. simpl in Hc0.
    rewrite (tabulate_ext _ (fun c => (if decide (c0 = c) then [x] else [])
                                      ++ bucket c pairs)).
    + rewrite concat_tabulate_app, concat_tabulate_single by exact HcN.
      simpl. now rewrite IH.
    + intros c _. unfold bucket. rewrite filter_cons. simpl fst. rewrite Hc0.
      destruct (decide (c0 = c)) as [->|Hne].
      * destruct (decide (Some c = Some c)); [reflexivity|congruence].
      * destruct (decide (Some c0 = Some c)); [congruence|reflexivity].
Qed.

Lemma zip_categories {X} (data : list double) (xs : list X) (N : nat) :
  valid_categories data N ->
  Forall (fun p => exists c, category_of (fst p) = Some c /\ c < N) (zip data xs).
Proof.
  intros H. apply Forall_forall. intros [d x] Hin.
  apply elem_of_zip_l in Hin. unfold valid_categories in H.
  rewrite Forall_forall in H. now apply H.
Qed.

Lemma snd_zip_take {X Y} (l : list X) (k : list Y) :
  snd <$> zip l k = take (length l) k.
Proof.
  revert k. induction l as [|x l IH]; intros [|y k]; simpl; try reflexivity.
  now rewrite IH.
Qed.

(** X11.  When [SplitIfBetter] goes on to compute the gain, it calls the
    fitness function once for every category, in the order of the
    categories, and the children it passes partition the samples: the call
    for category [c] gets the labels (and, weighted, the weights; without
    weights none) of exactly the samples whose feature value casts to
    [c], in the order of the samples and as many as were counted, and all
    the calls together get every label and every weight exactly once. *)
Theorem SplitIfBetter_children_partition :
  forall (L : Type) (zero : L)
         (Evaluate : bool -> list L -> Z -> list double -> double)
         (UseWeights : bool) (bestGain : double) (data : list double)
         (numCategories : Z) (labels : list L) (numClasses : Z)
         (weights : list double) (minimumLeafSize : Z) (minimumGainSplit : double)
         (splitInfo : SplitInfoType),
    (0 < numCategories)%Z ->
    valid_categories data (Z.to_nat numCategories) ->
    length data <= length labels ->
    (UseWeights = true -> length data <= length weights) ->
    (forall c, c < Z.to_nat numCategories ->
               (minimumLeafSize <= Z.of_nat (bucket_count data c))%Z) ->
    exists ret,
      SplitIfBetter zero Evaluate UseWeights bestGain data numCategories labels numClasses
        weights minimumLeafSize minimumGainSplit splitInfo = inr ret /\
      length (calls ret) = Z.to_nat numCategories /\
      (forall c, c < Z.to_nat numCategories ->
         exists ls ws, calls ret !! c = Some (ls, ws) /\
           ls = snd <$> filter (fun p => Z.to_nat <$> size_t_of_double (fst p) = Some c)
                               (zip data labels) /\
           ws = (if UseWeights
                 then snd <$> filter (fun p => Z.to_nat <$> size_t_of_double (fst p)
                                               = Some c)
                                     (zip data weights)
                 else []) /\
           length ls = bucket_count data c /\
           (UseWeights = true -> length ws = bucket_count data c) /\
           (UseWeights = false -> ws = [])) /\
      concat (fst <$> calls ret) ≡ₚ take (length data) labels /\
      (UseWeights = true -> concat (snd <$> calls ret) ≡ₚ take (length data) weights).
Proof.
  intros L zero Evaluate UseWeights bestGain data numCategories labels numClasses
    weights minimumLeafSize minimumGainSplit splitInfo HN Hcat Hl Hw Hhigh.
  set (N := Z.to_nat numCategories) in *.
  assert (E : numCategories = Z.of_nat N) by (unfold N; lia).
  assert (HN' : 0 < N) by lia. clearbody N. subst numCategories.
  destruct (least_count_high UseWeights data weights N
              minimumLeafSize HN' Hhigh) as (least & Hmin & Hle).
  rewrite (SplitIfBetter_counted zero Evaluate) by assumption. rewrite Hmin.
  destruct (Z.ltb_spec least minimumLeafSize); [lia|]. cbv zeta.
  set (cs := gain_calls UseWeights data labels weights N).
  assert (Hcalls : length cs = N /\
    (forall c, c < N ->
       exists ls ws, cs !! c = Some (ls, ws) /\
         ls = snd <$> filter (fun p => Z.to_nat <$> size_t_of_double (fst p) = Some c)
                             (zip data labels) /\
         ws = (if UseWeights
               then snd <$> filter (fun p => Z.to_nat <$> size_t_of_double (fst p)
                                             = Some c)
                                   (zip data weights)
               else []) /\
         length ls = bucket_count data c /\
         (UseWeights = true -> length ws = bucket_count data c) /\
         (UseWeights = false -> ws = [])) /\
    concat (fst <$> cs) ≡ₚ take (length data) labels /\
    (UseWeights = true -> concat (snd <$> cs) ≡ₚ take (length data) weights)).
  { unfold cs, gain_calls. split; [now rewrite length_fmap, length_seq|]. split.
    - intros c Hc.
      exists (child_labels data labels c), (child_weights UseWeights data weights c).
      split; [exact (lookup_tabulate
                       (fun c => (child_labels data labels c,
                                  child_weights UseWeights data weights c)) N c Hc)|].
      split; [reflexivity|]. split; [reflexivity|].
      unfold child_labels, child_weights.
      split; [|split].
      + rewrite length_bucket, fst_zip by exact Hl. reflexivity.
      + intros ->. rewrite length_bucket, fst_zip by auto. reflexivity.
      + intros ->. reflexivity.
    - split.
      + rewrite <- list_fmap_compose.
        change (concat (tabulate (fun c => child_labels data labels c) N)
                ≡ₚ take (length data) labels).
        unfold child_labels. rewrite bucket_partition by now apply zip_categories.
        now rewrite snd_zip_take.
      + intros HU. rewrite <- list_fmap_compose.
        change (concat (tabulate (fun c => child_weights UseWeights data weights c) N)
                ≡ₚ take (length data) weights).
        unfold child_weights. rewrite HU.
        rewrite bucket_partition by now apply zip_categories.
        now rewrite snd_zip_take. }
  destruct (dgt _ _); eexists; (split; [reflexivity|exact Hcalls]).
Qed.

Lemma SplitIfBetter_children_partition_witness :
  exists ret,
    SplitIfBetter 0 (fun (_ : bool) (l : list nat) (_ : Z) (_ : list double) =>
                       double_of_size_t (Z.of_nat (length l)))
      false double_zero
      [double_zero; double_zero; double_zero; double_one; double_zero; double_one] 2
      [1; 2; 3; 4; 5; 6] 2 [] 2 double_zero (info_double double_zero) = inr ret /\
    length (calls ret) = Z.to_nat 2 /\
    (forall c, c < Z.to_nat 2 ->
       exists ls ws, calls ret !! c = Some (ls, ws) /\
         ls = snd <$> filter (fun p => Z.to_nat <$> size_t_of_double (fst p) = Some c)
                (zip [double_zero; double_zero; double_zero; double_one; double_zero;
                      double_one] [1; 2; 3; 4; 5; 6]) /\
         ws = [] /\
         length ls = bucket_count
           [double_zero; double_zero; double_zero; double_one; double_zero; double_one] c /\
         (false = true -> length ws = bucket_count
           [double_zero; double_zero; double_zero; double_one; double_zero; double_one] c) /\
         (false = false -> ws = [])) /\
    concat (fst <$> calls ret) ≡ₚ take 6 [1; 2; 3; 4; 5; 6] /\
    (false = true -> concat (snd <$> calls ret) ≡ₚ take 6 (@nil double)).
Proof.
  pose (data := [double_zero; double_zero; double_zero; double_one; double_zero; double_one]).
  assert (Hcat : valid_categories data (Z.to_nat 2)).
  { repeat (constructor; [eexists; split; [vm_compute; reflexivity|vm_compute; lia]|]).
    constructor. }
  assert (Hhigh : forall c, c < Z.to_nat 2 -> (2 <= Z.of_nat (bucket_count data c))%Z).
  { intros [|[|c]] Hc; [discriminate|discriminate|vm_compute in Hc; lia]. }
  assert (Hw : false = true -> length data <= length (@nil double)) by discriminate.
  assert (Hl : length data <= length [1; 2; 3; 4; 5; 6]) by (simpl; lia).
  assert (HN : (0 < 2)%Z) by reflexivity.
  exact (SplitIfBetter_children_partition nat 0
           (fun (_ : bool) (l : list nat) (_ : Z) (_ : list double) =>
              double_of_size_t (Z.of_nat (length l)))
           false double_zero data 2 [1; 2; 3; 4; 5; 6] 2 [] 2 double_zero
           (info_double double_zero) HN Hcat Hl Hw Hhigh).
Defined.

(** ** The split evaluator: what [splitInfo] is read for *)

Lemma size_t_of_double_nonneg (d : double) (z : Z) :
  size_t_of_double d = Some z -> (0 <= z)%Z.
Proof.
  destruct d as [s| | |s m e]; simpl; try discriminate.
  - intros [= <-]. lia.
  - destruct s.
    + destruct (Z.shiftl (Zpos m) e =? 0)%Z; [intros [= <-]; lia|discriminate].
    + destruct (Z.shiftl (Zpos m) e <? size_t_modulus)%Z; [|discriminate].
      intros [= <-]. apply Z.shiftl_nonneg. lia.
Qed.

(** X12.  What an accepted split stores can be read back: for a regression
    tree ([splitInfo] a [double]) and fewer than [2^53] categories,
    [NumChildren] of the stored value is [numCategories], and
    [CalculateDirection] sends every sample of the feature column to the
    child in which [SplitIfBetter] counted it, a child below
    [NumChildren]. *)
Theorem SplitIfBetter_NumChildren_round_trip :
  forall (L : Type) (zero : L)
         (Evaluate : bool -> list L -> Z -> list double -> double)
         (UseWeights : bool) (bestGain : double) (data : list double)
         (numCategories : Z) (labels : list L) (numClasses : Z)
         (weights : list double) (minimumLeafSize : Z) (minimumGainSplit : double)
         (old : double),
    (0 < numCategories < 2 ^ 53)%Z ->
    valid_categories data (Z.to_nat numCategories) ->
    length data <= length labels ->
    (UseWeights = true -> length data <= length weights) ->
    (forall c, c < Z.to_nat numCategories ->
               (minimumLeafSize <= Z.of_nat (bucket_count data c))%Z) ->
    dgt (overall_gain Evaluate UseWeights data labels numClasses weights
           (Z.to_nat numCategories))
        (dadd (dadd bestGain minimumGainSplit) epsilon) = true ->
    exists (gain splitInfo : double) (evaluations : list (Evaluation L)),
      SplitIfBetter zero Evaluate UseWeights bestGain data numCategories labels numClasses
        weights minimumLeafSize minimumGainSplit (info_double old)
      = inr (mkReturned gain (info_double splitInfo) evaluations) /\
      NumChildren splitInfo = Some numCategories /\
      Forall (fun point =>
                exists child, CalculateDirection point splitInfo = Some child /\
                  (0 <= child < numCategories)%Z /\
                  category_of point = Some (Z.to_nat child)) data.
Proof.
  intros L zero Evaluate UseWeights bestGain data numCategories labels numClasses
    weights minimumLeafSize minimumGainSplit old HN Hcat Hl Hw Hhigh Hgt.
  set (N := Z.to_nat numCategories) in *.
  assert (E : numCategories = Z.of_nat N) by (unfold N; lia).
  assert (HN' : 0 < N) by lia. clearbody N. subst numCategories.
  destruct (least_count_high UseWeights data weights N
              minimumLeafSize HN' Hhigh) as (least & Hmin & Hle).
  rewrite (SplitIfBetter_counted zero Evaluate) by assumption. rewrite Hmin.
  destruct (Z.ltb_spec least minimumLeafSize); [lia|]. cbv zeta.
  unfold threshold. rewrite Hgt. cbn [StoreSplitInfo].
  eexists. eexists. eexists. split; [reflexivity|]. split.
  - unfold NumChildren. apply size_t_of_double_of_size_t. lia.
  - unfold valid_categories in Hcat. eapply Forall_impl; [exact Hcat|].
    intros d (c & Hc & HcN). simpl.
    destruct (category_of_Some d c Hc) as (z & Hz & Hzc).
    pose proof (size_t_of_double_nonneg d z Hz).
    exists z. unfold CalculateDirection. split; [exact Hz|]. split; [lia|].
    now rewrite Hzc.
Qed.

Lemma SplitIfBetter_NumChildren_round_trip_witness :
  exists (gain splitInfo : double) (evaluations : list (Evaluation nat)),
    SplitIfBetter 0 (fun (_ : bool) (l : list nat) (_ : Z) (_ : list double) =>
                       double_of_size_t (Z.of_nat (length l)))
      false double_zero
      [double_zero; double_zero; double_zero; double_one; double_zero; double_one] 2
      [1; 2; 3; 4; 5; 6] 2 [] 2 double_zero (info_double double_zero)
    = inr (mkReturned gain (info_double splitInfo) evaluations) /\
    NumChildren splitInfo = Some 2%Z /\
    Forall (fun point =>
              exists child, CalculateDirection point splitInfo = Some child /\
                (0 <= child < 2)%Z /\
                category_of point = Some (Z.to_nat child))
      [double_zero; double_zero; double_zero; double_one; double_zero; double_one].
Proof.
  pose (data := [double_zero; double_zero; double_zero; double_one; double_zero; double_one]).
  pose (Evaluate := fun (_ : bool) (l : list nat) (_ : Z) (_ : list double) =>
                      double_of_size_t (Z.of_nat (length l))).
  assert (Hcat : valid_categories data (Z.to_nat 2)).
  { repeat (constructor; [eexists; split; [vm_compute; reflexivity|vm_compute; lia]|]).
    constructor. }
  assert (Hhigh : forall c, c < Z.to_nat 2 -> (2 <= Z.of_nat (bucket_count data c))%Z).
  { intros [|[|c]] Hc; [discriminate|discriminate|vm_compute in Hc; lia]. }
  assert (Hw : false = true -> length data <= length (@nil double)) by discriminate.
  assert (Hl : length data <= length [1; 2; 3; 4; 5; 6]) by (simpl; lia).
  assert (HN : (0 < 2 < 2 ^ 53)%Z) by (split; reflexivity).
  assert (Hgt : dgt (overall_gain Evaluate false data [1; 2; 3; 4; 5; 6] 2 [] (Z.to_nat 2))
                    (dadd (dadd double_zero double_zero) epsilon) = true)
    by (vm_compute; reflexivity).
  exact (SplitIfBetter_NumChildren_round_trip nat 0 Evaluate false double_zero data 2
           [1; 2; 3; 4; 5; 6] 2 [] 2 double_zero double_zero HN Hcat Hl Hw Hhigh Hgt).
Defined.

(** ** The split evaluator: a gain that is not a number *)

Lemma dadd_nan (x : double) : dadd x S754_nan = S754_nan.
Proof. now destruct x as [[|]|[|]| |[|] m e]. Qed.

Lemma dadd_nan_l (x : double) : dadd S754_nan x = S754_nan.
Proof. reflexivity. Qed.

Lemma dmul_nan_l (x : double) : dmul S754_nan x = S754_nan.
Proof. reflexivity. Qed.

Lemma dgt_nan (x : double) : dgt S754_nan x = false.
Proof. unfold dgt, SFltb. now destruct x as [[|]|[|]| |[|] m e]. Qed.

(** Zeros add up to [+0.0]. *)
Lemma dsum_zeros (ws : list double) : Forall zero_weight ws -> dsum ws = double_zero.
Proof.
  unfold dsum. induction 1 as [|w ws [s ->] _ IH]; [reflexivity|].
  cbn [foldl]. replace (dadd double_zero (S754_zero s)) with double_zero
    by (now destruct s). exact IH.
Qed.

Lemma bucket_zeros (c : nat) (data ws : list double) :
  Forall zero_weight ws -> Forall zero_weight (bucket c (zip data ws)).
Proof.
  intros H. unfold bucket. apply Forall_fmap, Forall_forall. intros [d w] Hin.
  apply list_elem_of_filter in Hin as [_ Hin]. apply elem_of_zip_r in Hin.
  rewrite Forall_forall in H. now apply H.
Qed.

(** The gain is NaN as soon as every share is. *)
Lemma overall_gain_nan {L : Type} (Evaluate : bool -> list L -> Z -> list double -> double)
    (UseWeights : bool) (data : list double) (labels : list L) (numClasses : Z)
    (weights : list double) (N : nat) :
  0 < N -> (forall c, child_pct UseWeights data weights c = S754_nan) ->
  overall_gain Evaluate UseWeights data labels numClasses weights N = S754_nan.
Proof.
  intros HN Hpct. unfold overall_gain.
  destruct N as [|N]; [lia|]. rewrite seq_S, foldl_app. simpl.
  now rewrite Hpct, dmul_nan_l, dadd_nan.
Qed.

(** X13.  On a feature column without samples, and in a weighted call all of
    whose weights are zero, [SplitIfBetter] never accepts the split: the
    share of every child is [0 / 0], the gain is not a number whatever the
    fitness function returns, and the comparison with the threshold is
    false; the call returns [DBL_MAX] and leaves [splitInfo] as it was.
    With no category at all and no sample the minimum of the counts is
    refused by the container library. *)
Theorem SplitIfBetter_zero_total :
  forall (L : Type) (zero : L)
         (Evaluate : bool -> list L -> Z -> list double -> double)
         (UseWeights : bool) (bestGain : double) (data : list double)
         (numCategories : Z) (labels : list L) (numClasses : Z)
         (weights : list double) (minimumLeafSize : Z) (minimumGainSplit : double)
         (splitInfo : SplitInfoType),
    (0 <= numCategories)%Z ->
    valid_categories data (Z.to_nat numCategories) ->
    length data <= length labels ->
    (UseWeights = true -> length data <= length weights) ->
    data = [] \/ (UseWeights = true /\ Forall zero_weight weights) ->
    (numCategories = 0%Z ->
       SplitIfBetter zero Evaluate UseWeights bestGain data numCategories labels numClasses
         weights minimumLeafSize minimumGainSplit splitInfo = inl logic_error) /\
    ((0 < numCategories)%Z ->
       exists evaluations,
         SplitIfBetter zero Evaluate UseWeights bestGain data numCategories labels
           numClasses weights minimumLeafSize minimumGainSplit splitInfo
         = inr (mkReturned DBL_MAX splitInfo evaluations)).
Proof.
  intros L zero Evaluate UseWeights bestGain data numCategories labels numClasses
    weights minimumLeafSize minimumGainSplit splitInfo HN Hcat Hl Hw Hzero.
  set (N := Z.to_nat numCategories) in *.
  assert (E : numCategories = Z.of_nat N) by (unfold N; lia).
  clearbody N. subst numCategories.
  rewrite (SplitIfBetter_counted zero Evaluate) by assumption. split.
  - intros HN0. assert (N = 0) as -> by lia. reflexivity.
  - intros HN'. unfold counted. cbn [counts].
    destruct (arma_min_spec (tabulate (fun c => Z.of_nat (bucket_count data c)) N)
                (Z.of_nat (bucket_count data 0))) as (least & -> & _ & _).
    { apply elem_of_tabulate. exists 0. split; [lia|reflexivity]. }
    destruct (least <? minimumLeafSize)%Z; [eauto|]. cbv zeta.
    rewrite overall_gain_nan; [rewrite dgt_nan; eauto|lia|].
    intros c. unfold child_pct. destruct Hzero as [->|[-> Hz]].
    + destruct UseWeights; reflexivity.
    + rewrite !dsum_zeros; [reflexivity| |now apply bucket_zeros].
      apply Forall_take, Hz.
Qed.

Lemma SplitIfBetter_zero_total_witness :
  exists evaluations,
    SplitIfBetter 0 (fun (_ : bool) (l : list nat) (_ : Z) (_ : list double) => double_one)
      true double_zero [double_zero; double_one] 2 [1; 2] 2
      [S754_zero false; S754_zero true] 1 double_zero (info_double double_one)
    = inr (mkReturned DBL_MAX (info_double double_one) evaluations).
Proof.
  assert (Hcat : valid_categories [double_zero; double_one] (Z.to_nat 2)).
  { repeat (constructor; [eexists; split; [vm_compute; reflexivity|vm_compute; lia]|]).
    constructor. }
  assert (Hw : true = true -> length [double_zero; double_one]
                              <= length [S754_zero false; S754_zero true])
    by (intros _; simpl; lia).
  assert (Hl : length [double_zero; double_one] <= length [1; 2]) by (simpl; lia).
  assert (Hz : [double_zero; double_one] = []
               \/ (true = true /\ Forall zero_weight [S754_zero false; S754_zero true])).
  { right. split; [reflexivity|]. repeat constructor; eexists; reflexivity. }
  assert (HN : (0 <= 2)%Z) by discriminate.
  assert (HN' : (0 < 2)%Z) by reflexivity.
  exact (proj2 (SplitIfBetter_zero_total nat 0
                  (fun (_ : bool) (l : list nat) (_ : Z) (_ : list double) => double_one)
                  true double_zero [double_zero; double_one] 2 [1; 2] 2
                  [S754_zero false; S754_zero true] 1 double_zero (info_double double_one)
                  HN Hcat Hl Hw Hz) HN').
Defined.

(** ** The split evaluator: values it does not check *)

Lemma count_step_outcome (UseWeights : bool) (data weights : list double)
    (N : nat) (i : nat) (cs : Counts) :
  length (counts cs) = N ->
  match count_step UseWeights data weights i cs with
  | Ok cs' =>
      length (counts cs') = N /\
      (exists d c, data !! i = Some d /\ category_of d = Some c /\ c < N) /\
      (UseWeights = true -> i < length weights)
  | Err e _ => e = undefined_behaviour
  end.
Proof.
  intros Hlen. unfold count_step, at_unchecked.
  destruct (data !! i) as [d|] eqn:Hd; cbn [try]; [|reflexivity].
  destruct (size_t_of_double d) as [z|] eqn:Hz; cbn [try]; [|reflexivity].
  destruct (counts cs !! Z.to_nat z) as [n|] eqn:Hn; cbn [try]; [|reflexivity].
  assert (Hc : exists d' c, Some d = Some d' /\ category_of d' = Some c /\ c < N).
  { exists d, (Z.to_nat z). split; [reflexivity|]. split.
    - unfold category_of. now rewrite Hz.
    - rewrite <- Hlen. eapply lookup_lt_Some, Hn. }
  destruct UseWeights.
  - cbn [counts childWeightSums sumWeight].
    destruct (weights !! i) as [w|] eqn:Hw; cbn [try]; [|reflexivity].
    destruct (childWeightSums cs !! Z.to_nat z) as [sw|]; cbn [try]; [|reflexivity].
    cbn [counts]. rewrite length_insert. split; [exact Hlen|]. split; [exact Hc|].
    intros _. eapply lookup_lt_Some, Hw.
  - cbn [counts]. rewrite length_insert. split; [exact Hlen|]. split; [exact Hc|].
    discriminate.
Qed.

Lemma count_loop_outcome (UseWeights : bool) (data weights : list double)
    (N : nat) (count : nat) :
  forall (i : nat) (cs : Counts),
    length (counts cs) = N ->
    match for_loop i count (count_step UseWeights data weights) cs with
    | Ok cs' =>
        forall k, i <= k < i + count ->
          (exists d c, data !! k = Some d /\ category_of d = Some c /\ c < N) /\
          (UseWeights = true -> k < length weights)
    | Err e _ => e = undefined_behaviour
    end.
Proof.
  induction count as [|count IH]; intros i cs Hlen; simpl; [intros k Hk; lia|].
  pose proof (count_step_outcome UseWeights data weights N i cs Hlen) as Hstep.
  destruct (count_step UseWeights data weights i cs) as [cs1|e cs1]; [|exact Hstep].
  destruct Hstep as (Hlen1 & Hcat & Hw).
  specialize (IH (S i) cs1 Hlen1).
  destruct (for_loop (S i) count _ cs1) as [cs2|e cs2]; [|exact IH].
  intros k Hk. destruct (decide (k = i)) as [->|Hne]; [auto|]. apply IH. lia.
Qed.

(** X14.  [SplitIfBetter] checks neither the values of the feature column nor
    the length of the weights.  A value that is not a category below
    [numCategories] (negative, not a number, or too large) makes the
    counting loop index [counts] outside its elements, and weights shorter
    than the column are read past their end: both are undefined, and
    happen before the fitness function is called or [splitInfo]
    written. *)
Theorem SplitIfBetter_unchecked_input :
  forall (L : Type) (zero : L)
         (Evaluate : bool -> list L -> Z -> list double -> double)
         (UseWeights : bool) (bestGain : double) (data : list double)
         (numCategories : Z) (labels : list L) (numClasses : Z)
         (weights : list double) (minimumLeafSize : Z) (minimumGainSplit : double)
         (splitInfo : SplitInfoType),
    ~ valid_categories data (Z.to_nat numCategories) \/
    (UseWeights = true /\ length weights < length data) ->
    SplitIfBetter zero Evaluate UseWeights bestGain data numCategories labels numClasses
      weights minimumLeafSize minimumGainSplit splitInfo
    = inl undefined_behaviour.
Proof.
  intros L zero Evaluate UseWeights bestGain data numCategories labels numClasses
    weights minimumLeafSize minimumGainSplit splitInfo Hbad.
  unfold SplitIfBetter.
  set (cs0 := mkCounts _ _ _).
  assert (H0 : length (counts cs0) = Z.to_nat numCategories).
  { unfold cs0, zeros. cbn [counts]. apply length_replicate. }
  pose proof (count_loop_outcome UseWeights data weights (Z.to_nat numCategories)
                (length data) 0 cs0 H0) as Hout.
  destruct (for_loop 0 (length data) _ cs0) as [cs|e cs]; cbn [run];
    [exfalso|now rewrite Hout].
  destruct Hbad as [Hbad|[HU Hshort]].
  - apply Hbad. apply Forall_lookup_2. intros i d Hd.
    destruct (Hout i) as [(d' & c & Hd' & Hc & HcN) _].
    { apply lookup_lt_Some in Hd. lia. }
    rewrite Hd in Hd'. injection Hd' as <-. eauto.
  - destruct (Hout (length weights) ltac:(lia)) as [_ Hw]. specialize (Hw HU). lia.
Qed.

Lemma SplitIfBetter_unchecked_input_witness :
  SplitIfBetter 0 (fun (_ : bool) (l : list nat) (_ : Z) (_ : list double) => double_one)
    true double_zero [double_zero; double_one] 2 [1; 2] 2 [double_one] 1 double_zero
    (info_double double_one)
  = inl undefined_behaviour.
Proof.
  assert (Hbad : ~ valid_categories [double_zero; double_one] (Z.to_nat 2) \/
                 (true = true /\ length [double_one] < length [double_zero; double_one])).
  { right. split; [reflexivity|simpl; lia]. }
  exact (SplitIfBetter_unchecked_input nat 0
           (fun (_ : bool) (l : list nat) (_ : Z) (_ : list double) => double_one)
           true double_zero [double_zero; double_one] 2 [1; 2] 2 [double_one] 1
           double_zero (info_double double_one) Hbad).
Defined.

(** ** The split evaluator: what it reads *)

Lemma for_loop_ext {St} (f g : nat -> St -> res St) (count : nat) :
  forall (i : nat) (s : St),
    (forall k s', i <= k < i + count -> f k s' = g k s') ->
    for_loop i count f s = for_loop i count g s.
Proof.
  induction count as [|count IH]; intros i s H; [reflexivity|].
  simpl. rewrite (H i s) by lia.
  destruct (g i s) as [s1|e s1]; [|reflexivity].
  apply IH. intros k s' Hk. apply H. lia.
Qed.

Lemma lookup_take_eq {X} (l l' : list X) (n i : nat) :
  take n l' = take n l -> i < n -> l' !! i = l !! i.
Proof.
  intros H Hi. rewrite <- (lookup_take_lt l' n i), <- (lookup_take_lt l n i) by exact Hi.
  now rewrite H.
Qed.

(** X15.  [SplitIfBetter] reads of [labels] and of [weights] the elements of
    the samples of the feature column only, and reads no weight at all in
    a call without weights: two calls that differ in the other elements
    end in the same way, with the same value returned, the same
    [splitInfo] and the same calls of the fitness function. *)
Theorem SplitIfBetter_reads_only_the_column :
  forall (L : Type) (zero : L)
         (Evaluate : bool -> list L -> Z -> list double -> double)
         (UseWeights : bool) (bestGain : double) (data : list double)
         (numCategories : Z) (labels labels' : list L) (numClasses : Z)
         (weights weights' : list double) (minimumLeafSize : Z)
         (minimumGainSplit : double) (splitInfo : SplitInfoType),
    take (length data) labels' = take (length data) labels ->
    (UseWeights = true -> take (length data) weights' = take (length data) weights) ->
    SplitIfBetter zero Evaluate UseWeights bestGain data numCategories labels' numClasses
      weights' minimumLeafSize minimumGainSplit splitInfo
    = SplitIfBetter zero Evaluate UseWeights bestGain data numCategories labels numClasses
        weights minimumLeafSize minimumGainSplit splitInfo.
Proof.
  intros L zero Evaluate UseWeights bestGain data numCategories labels labels' numClasses
    weights weights' minimumLeafSize minimumGainSplit splitInfo Hl Hw.
  assert (Hwi : forall i, i < length data -> UseWeights = true ->
                          at_unchecked weights' i = at_unchecked weights i).
  { intros i Hi HU. unfold at_unchecked. eapply lookup_take_eq; eauto. }
  assert (Hli : forall i, i < length data -> at_unchecked labels' i = at_unchecked labels i).
  { intros i Hi. unfold at_unchecked. eapply lookup_take_eq; eauto. }
  unfold SplitIfBetter.
  rewrite (for_loop_ext (count_step UseWeights data weights')
             (count_step UseWeights data weights)).
  2:{ intros k cs Hk. unfold count_step.
      destruct UseWeights; [|reflexivity]. now rewrite Hwi by (auto; lia). }
  destruct (for_loop 0 (length data) _ _) as [cs|e cs]; [|reflexivity]. cbn [run].
  destruct (arma_min (counts cs)) as [least|]; [|reflexivity].
  destruct (least <? minimumLeafSize)%Z; [reflexivity|].
  destruct (for_loop 0 (Z.to_nat numCategories) _ _) as [ch|e ch]; [|reflexivity].
  cbn [run].
  rewrite (for_loop_ext (extract_step UseWeights data labels' weights')
             (extract_step UseWeights data labels weights)).
  2:{ intros k ch' Hk. unfold extract_step. rewrite Hli by lia.
      destruct UseWeights; [|reflexivity]. now rewrite Hwi by (auto; lia). }
  reflexivity.
Qed.

Lemma SplitIfBetter_reads_only_the_column_witness :
  SplitIfBetter 0 (fun (_ : bool) (l : list nat) (_ : Z) (_ : list double) =>
                     double_of_size_t (Z.of_nat (length l)))
    false double_zero [double_zero; double_one] 2 [1; 2; 3] 2 [double_one] 1 double_zero
    (info_double double_one)
  = SplitIfBetter 0 (fun (_ : bool) (l : list nat) (_ : Z) (_ : list double) =>
                     double_of_size_t (Z.of_nat (length l)))
    false double_zero [double_zero; double_one] 2 [1; 2] 2 [] 1 double_zero
    (info_double double_one).
Proof.
  assert (Hl : take (length [double_zero; double_one]) [1; 2; 3]
               = take (length [double_zero; double_one]) [1; 2]) by reflexivity.
  assert (Hw : false = true ->
               take (length [double_zero; double_one]) [double_one]
               = take (length [double_zero; double_one]) []) by discriminate.
  exact (SplitIfBetter_reads_only_the_column nat 0
           (fun (_ : bool) (l : list nat) (_ : Z) (_ : list double) =>
              double_of_size_t (Z.of_nat (length l)))
           false double_zero [double_zero; double_one] 2 [1; 2] [1; 2; 3] 2 [] [double_one]
           1 double_zero (info_double double_one) Hl Hw).
Defined.

(** ** The SSE loss: the sign of a zero, and the order of the operands *)

Lemma binary_round_aux_opp (s : bool) (m e : Z) (l : location) :
  binary_round_aux 53 1024 (negb s) m e l = SFopp (binary_round_aux 53 1024 s m e l).
Proof.
  unfold binary_round_aux.
  destruct (shr_fexp 53 1024 m e l) as [mrs' e'].
  destruct (shr_fexp 53 1024 _ e' loc_Exact) as [mrs'' e''].
  destruct (shr_m mrs'') as [|p|p]; [reflexivity| |reflexivity].
  destruct (e'' <=? 1024 - 53)%Z; reflexivity.
Qed.

Lemma binary_normalize_opp (D e : Z) :
  D <> 0%Z ->
  binary_normalize 53 1024 (- D) e false = SFopp (binary_normalize 53 1024 D e false).
Proof.
  intros HD. unfold binary_normalize, binary_round.
  destruct D as [|p|p]; [congruence| |].
  - change (- Zpos p)%Z with (Zneg p). cbv beta iota.
    destruct (shl_align p e _) as [mz ez]. apply (binary_round_aux_opp false).
  - change (- Zneg p)%Z with (Zpos p). cbv beta iota.
    destruct (shl_align p e _) as [mz ez].
    rewrite <- (binary_round_aux_opp true). reflexivity.
Qed.

(** [-(o - p)] and [p - o] differ only when the difference is the zero of
    two equal operands, whose sign the negation turns. *)
Lemma dopp_dsub (o p : double) :
  dopp (dsub o p) = dsub p o \/
  (dopp (dsub o p) = S754_zero true /\ dsub p o = S754_zero false).
Proof.
  destruct o as [so|so| |so mo eo], p as [sp|sp| |sp mp ep];
    unfold dopp, dsub, b64_prec, b64_emax; cbn [SFsub SFopp];
    try (repeat match goal with b : bool |- _ => destruct b end; cbn; auto; fail).
  cbv zeta. rewrite (Z.min_comm ep eo).
  set (ez := Z.min eo ep).
  set (a := cond_Zopp so (Zpos (fst (shl_align mo eo ez)))).
  set (b := cond_Zopp sp (Zpos (fst (shl_align mp ep ez)))).
  destruct (Z.eq_dec (a - b)%Z 0%Z) as [Hz|Hnz].
  - right. rewrite Hz. replace (b - a)%Z with 0%Z by lia. split; reflexivity.
  - left. rewrite <- binary_normalize_opp by exact Hnz. f_equal. lia.
Qed.

(** X16.  [Gradients(observed, values)] is [values - observed] and
    [Residuals] its opposite, for all doubles, but for the sign of a zero:
    when the difference is the exact zero of two equal operands the
    gradient is [-0.0] where [values - observed] is [+0.0].  At a finite
    prediction equal to the observation the gradient is [-0.0] and the
    residual [+0.0]; at an infinite one both are not a number. *)
Theorem Gradients_operand_order :
  (forall observed values : double,
      SSELoss.Gradients observed values = dsub values observed \/
      (SSELoss.Gradients observed values = S754_zero true /\
       dsub values observed = S754_zero false)) /\
  (forall x : double,
      dfinite x = true ->
      SSELoss.Gradients x x = S754_zero true /\
      SSELoss.Residuals x x = S754_zero false) /\
  (forall x : double,
      dfinite x = false ->
      SSELoss.Gradients x x = S754_nan /\ SSELoss.Residuals x x = S754_nan).
Proof.
  split; [intros o p; apply dopp_dsub|]. split.
  - intros x Hx. unfold SSELoss.Residuals, SSELoss.Gradients.
    assert (H : dsub x x = S754_zero false).
    { destruct x as [[|]| | |s m e]; try discriminate; try reflexivity.
      unfold dsub, b64_prec, b64_emax. cbn [SFsub]. cbv zeta.
      now rewrite Z.sub_diag. }
    rewrite H. split; reflexivity.
  - intros x Hx. destruct x as [s|[|]| |s m e]; try discriminate; split; reflexivity.
Qed.

Lemma Gradients_operand_order_witness :
  SSELoss.Gradients double_0_3 double_0_3 = S754_zero true /\
  SSELoss.Residuals double_0_3 double_0_3 = S754_zero false.
Proof.
  exact (proj1 (proj2 Gradients_operand_order) double_0_3 eq_refl).
Defined.

(** ** The SSE loss on vectors *)

(** X17.  On vectors [Gradients] and [Residuals] return a vector of the
    length of [observed] when [values] has that length, and throw the
    size error of the container library when it has another. *)
Theorem Gradients_Residuals_lengths :
  forall observed values : list double,
    (length observed = length values ->
       exists g res, SSELoss.Gradients_vec observed values = inr g /\
                     SSELoss.Residuals_vec observed values = inr res /\
                     length g = length observed /\ length res = length observed) /\
    (length observed <> length values ->
       SSELoss.Gradients_vec observed values = inl logic_error /\
       SSELoss.Residuals_vec observed values = inl logic_error).
Proof.
  intros o p. unfold SSELoss.Residuals_vec, SSELoss.Gradients_vec, arma_sub. split.
  - intros Hlen. destruct (decide _); [|contradiction].
    eexists. eexists. split; [reflexivity|]. split; [reflexivity|].
    unfold arma_neg. rewrite !length_fmap, length_zip_with. lia.
  - intros Hlen. destruct (decide _); [contradiction|]. split; reflexivity.
Qed.

Lemma Gradients_Residuals_lengths_witness :
  SSELoss.Gradients_vec [double_one; double_zero] [double_one] = inl logic_error /\
  SSELoss.Residuals_vec [double_one; double_zero] [double_one] = inl logic_error.
Proof.
  assert (H : length [double_one; double_zero] <> length [double_one]) by discriminate.
  exact (proj2 (Gradients_Residuals_lengths [double_one; double_zero] [double_one]) H).
Defined.

(** ** The SSE loss: the initial prediction *)

Lemma shr_1_nonneg (mrs : shr_record) : (0 <= shr_m mrs -> 0 <= shr_m (shr_1 mrs))%Z.
Proof. destruct mrs as [[|[p|p|]|p] r s]; simpl; lia. Qed.

Lemma shr_nonneg (mrs : shr_record) (e n : Z) :
  (0 <= shr_m mrs -> 0 <= shr_m (fst (shr mrs e n)))%Z.
Proof.
  intros H. unfold shr. destruct n as [|p|p]; try exact H. cbn [fst].
  rewrite iter_pos_nat. induction (Pos.to_nat p) as [|k IH]; [exact H|].
  simpl. now apply shr_1_nonneg.
Qed.

Lemma shr_fexp_nonneg (m e : Z) (l : location) :
  (0 <= m -> 0 <= shr_m (fst (shr_fexp 53 1024 m e l)))%Z.
Proof.
  intros H. unfold shr_fexp. apply shr_nonneg. now destruct l as [|[| |]].
Qed.

(** Rounding a mantissa that is not negative gives a number or an
    infinity. *)
Lemma binary_round_aux_not_nan (s : bool) (m e : Z) (l : location) :
  (0 <= m)%Z -> binary_round_aux 53 1024 s m e l <> S754_nan.
Proof.
  intros H. unfold binary_round_aux.
  pose proof (shr_fexp_nonneg m e l H) as H1.
  destruct (shr_fexp 53 1024 m e l) as [mrs' e']. cbn [fst] in H1.
  destruct mrs' as [q r t]. cbn [shr_m] in *.
  pose proof (round_nearest_even_bounds q r t) as [Hb _]. cbv zeta in Hb.
  set (M1 := round_nearest_even q _) in *.
  pose proof (shr_fexp_nonneg M1 e' loc_Exact ltac:(lia)) as H2.
  destruct (shr_fexp 53 1024 M1 e' loc_Exact) as [mrs'' e'']. cbn [fst] in H2.
  destruct (shr_m mrs'') as [|p|p]; [discriminate| |lia].
  destruct (e'' <=? 1024 - 53)%Z; discriminate.
Qed.

(** A quotient by a positive number is not a number only when the
    dividend is not one. *)
Lemma ddiv_nan (x : double) (m : positive) (e : Z) :
  ddiv x (S754_finite false m e) = S754_nan <-> x = S754_nan.
Proof.
  split; [|now intros ->].
  destruct x as [sx|sx| |sx mx ex]; try discriminate; [reflexivity|].
  unfold ddiv, b64_prec, b64_emax. cbn [SFdiv]. unfold SFdiv_core_binary.
  set (m' := match (ex - e - _)%Z with Zpos _ => _ | Z0 => _ | Zneg _ => _ end).
  assert (Hm' : (0 <= m')%Z).
  { unfold m'. destruct (ex - e - _)%Z; try lia. apply Z.shiftl_nonneg. lia. }
  pose proof (Z.div_eucl_eq m' (Zpos m) ltac:(lia)) as Hdiv.
  pose proof (Z.mod_pos_bound m' (Zpos m) ltac:(lia)) as Hmod.
  unfold Z.modulo in Hmod.
  destruct (Z.div_eucl m' (Zpos m)) as [q r].
  intros Hnan. exfalso. revert Hnan. apply binary_round_aux_not_nan. nia.
Qed.

(** X19.  On a row without elements [InitialPrediction] divides the empty
    sum, zero, by zero elements, and the result is not a number; on a row
    with elements (fewer than [2^53]) the result is not a number exactly
    when the sum of the elements is not one. *)
Theorem InitialPrediction_not_a_number :
  forall (accu : list double -> double) (values : list double),
    fits_double values ->
    (values = [] -> accu values = double_zero ->
       SSELoss.InitialPrediction accu values = S754_nan) /\
    (values <> [] ->
       (SSELoss.InitialPrediction accu values = S754_nan <-> accu values = S754_nan)).
Proof.
  intros accu values Hfit. unfold SSELoss.InitialPrediction. split.
  - intros -> ->. reflexivity.
  - intros Hne.
    assert (Hn : (0 < n_cols values < 2 ^ 53)%Z).
    { unfold fits_double, n_cols in *. destruct values; [congruence|simpl length in *; lia]. }
    destruct (double_of_size_t_cases (n_cols values) ltac:(lia))
      as [[H0 _]|(_ & m & e & ->)]; [lia|].
    apply ddiv_nan.
Qed.

Lemma InitialPrediction_not_a_number_witness :
  SSELoss.InitialPrediction dsum [double_0_3; double_0_7] = S754_nan
  <-> dsum [double_0_3; double_0_7] = S754_nan.
Proof.
  assert (Hne : [double_0_3; double_0_7] <> []) by discriminate.
  exact (proj2 (InitialPrediction_not_a_number dsum [double_0_3; double_0_7] eq_refl) Hne).
Defined.

(** ** The SSE loss: the sign of the residual *)

Section ResidualSign.
Local Open Scope Z_scope.

(** A double in its canonical representation. *)
Lemma bounded_facts (m : positive) (e : Z) :
  bounded 53 1024 m e = true ->
  -1074 <= e <= 971 /\ Zpos m < 2 ^ 53 /\ (-1074 < e -> 2 ^ 52 <= Zpos m).
Proof.
  unfold bounded, canonical_mantissa. intros H.
  apply andb_prop in H as [Hc He]. apply Z.eqb_eq in Hc. apply Z.leb_le in He.
  change (fexp 53 1024) with fexp64 in Hc. rewrite fexp64_eq in Hc.
  pose proof (digits2_bounds m) as [Hlo Hhi].
  split; [lia|]. split.
  - eapply Z.lt_le_trans; [exact Hhi|]. apply Z.pow_le_mono_r; lia.
  - intros Hsub. replace (Zpos (digits2_pos m)) with 53 in Hlo by lia. exact Hlo.
Qed.

(** Canonical magnitudes are ordered by exponent, then by mantissa. *)
Lemma magnitude_compare (mo : positive) (eo : Z) (mp : positive) (ep : Z) :
  bounded 53 1024 mo eo = true -> bounded 53 1024 mp ep = true ->
  match eo ?= ep with
  | Eq => Pos.compare_cont Eq mo mp
  | Lt => Lt
  | Gt => Gt
  end
  = (Zpos mo * 2 ^ (eo - Z.min eo ep) ?= Zpos mp * 2 ^ (ep - Z.min eo ep)).
Proof.
  intros Ho Hp.
  destruct (bounded_facts mo eo Ho) as (Heo & Hmo & Hno).
  destruct (bounded_facts mp ep Hp) as (Hep & Hmp & Hnp).
  destruct (Z.compare_spec eo ep) as [He|He|He].
  - subst ep. rewrite Z.min_id, Z.sub_diag, !Z.mul_1_r.
    change (Pos.compare_cont Eq mo mp) with (Pos.compare mo mp).
    apply Pos2Z.inj_compare.
  - rewrite Z.min_l, Z.sub_diag, Z.mul_1_r by lia. symmetry. apply Z.compare_lt_iff.
    assert (2 ^ 1 <= 2 ^ (ep - eo)) by (apply Z.pow_le_mono_r; lia).
    specialize (Hnp ltac:(lia)). change (2 ^ 1) with 2 in *. nia.
  - rewrite Z.min_r, Z.sub_diag, Z.mul_1_r by lia. symmetry. apply Z.compare_gt_iff.
    assert (2 ^ 1 <= 2 ^ (eo - ep)) by (apply Z.pow_le_mono_r; lia).
    specialize (Hno ltac:(lia)). change (2 ^ 1) with 2 in *. nia.
Qed.

(** The comparison of two canonical doubles is that of their values,
    written over the smaller exponent. *)
Lemma SFcompare_bounded (so : bool) (mo : positive) (eo : Z)
    (sp : bool) (mp : positive) (ep : Z) :
  bounded 53 1024 mo eo = true -> bounded 53 1024 mp ep = true ->
  SFcompare (S754_finite so mo eo) (S754_finite sp mp ep)
  = Some (cond_Zopp so (Zpos mo * 2 ^ (eo - Z.min eo ep))
          ?= cond_Zopp sp (Zpos mp * 2 ^ (ep - Z.min eo ep))).
Proof.
  intros Ho Hp. pose proof (magnitude_compare mo eo mp ep Ho Hp) as Hmag.
  pose proof (pow2_pos (eo - Z.min eo ep) ltac:(lia)) as Hpo.
  pose proof (pow2_pos (ep - Z.min eo ep) ltac:(lia)) as Hpp.
  set (A := Zpos mo * 2 ^ (eo - Z.min eo ep)) in *.
  set (B := Zpos mp * 2 ^ (ep - Z.min eo ep)) in *.
  assert (HA : 0 < A) by (unfold A; nia). assert (HB : 0 < B) by (unfold B; nia).
  unfold SFcompare. f_equal. destruct so, sp; cbn [cond_Zopp].
  - rewrite Z.compare_opp, (Z.compare_antisym A B), <- Hmag.
    now destruct (eo ?= ep).
  - symmetry. apply Z.compare_lt_iff. lia.
  - symmetry. apply Z.compare_gt_iff. lia.
  - exact Hmag.
Qed.

(** A normalisation step does not round a positive mantissa to zero as
    long as the exponent is that of a subnormal number or above. *)
Lemma shr_fexp_positive (M e : Z) :
  0 < M -> -1074 <= e ->
  let '(mrs, e') := shr_fexp 53 1024 M e loc_Exact in
  0 < shr_m mrs /\ -1074 <= e'.
Proof.
  intros HM He. unfold shr_fexp. cbn [shr_record_of_loc].
  change (fexp 53 1024) with fexp64. rewrite fexp64_eq.
  set (k := Z.max (Zdigits2 M + e - 53) (-1074) - e).
  pose proof (shr_spec M e k ltac:(lia)) as Hs.
  destruct (shr (Build_shr_record M false false) e k) as [mrs e'].
  destruct mrs as [q r s].
  cbn [shr_m] in *.
  destruct (0 <? k) eqn:Hk.
  - apply Z.ltb_lt in Hk. destruct Hs as (Hq & He' & _).
    destruct M as [|p|p]; try lia. cbn [Zdigits2] in k.
    pose proof (digits2_bounds p) as [Hlo _].
    assert (Hkd : k = Zpos (digits2_pos p) - 53) by lia.
    assert (Hq1 : 1 <= q).
    { rewrite Hq. apply Z.div_le_lower_bound; [apply pow2_pos; lia|].
      rewrite Z.mul_1_r. eapply Z.le_trans; [|exact Hlo].
      apply Z.pow_le_mono_r; lia. }
    split; lia.
  - destruct Hs as [[= -> -> ->] ->]. split; lia.
Qed.

Lemma binary_round_aux_nonzero (s : bool) (M e : Z) :
  0 < M -> -1074 <= e ->
  match binary_round_aux 53 1024 s M e loc_Exact with
  | S754_finite s' _ _ | S754_infinity s' => s' = s
  | _ => False
  end.
Proof.
  intros HM He. unfold binary_round_aux.
  pose proof (shr_fexp_positive M e HM He) as H1.
  destruct (shr_fexp 53 1024 M e loc_Exact) as [mrs' e']. destruct H1 as [Hm1 He'].
  destruct mrs' as [q r t]. cbn [shr_m] in Hm1.
  pose proof (round_nearest_even_bounds q r t) as [Hb _]. cbv zeta in Hb.
  cbn [shr_m].
  set (M1 := round_nearest_even q _) in *.
  assert (HM1 : 0 < M1) by lia.
  pose proof (shr_fexp_positive M1 e' HM1 He') as H2.
  destruct (shr_fexp 53 1024 M1 e' loc_Exact) as [mrs'' e'']. destruct H2 as [Hm2 _].
  destruct (shr_m mrs'') as [|q'|q']; try lia.
  destruct (e'' <=? 1024 - 53); reflexivity.
Qed.

(** A sum or difference of two canonical doubles that is not zero is not
    rounded to zero, and keeps its sign. *)
Lemma binary_normalize_sign (D e : Z) :
  -1074 <= e ->
  match binary_normalize 53 1024 D e false with
  | S754_zero s => D = 0 /\ s = false
  | S754_finite s _ _ | S754_infinity s => D <> 0 /\ s = (D <? 0)
  | S754_nan => False
  end.
Proof.
  intros He. unfold binary_normalize, binary_round.
  destruct D as [|p|p]; [split; reflexivity| |].
  - destruct (shl_align p e _) as [mz ez] eqn:Hsh.
    assert (Hez : -1074 <= ez).
    { unfold shl_align in Hsh. change (fexp 53 1024) with fexp64 in Hsh.
      rewrite fexp64_eq in Hsh.
      destruct (Z.max _ _ - e) as [|k|k]; injection Hsh as <- <-; lia. }
    pose proof (binary_round_aux_nonzero false (Zpos mz) ez ltac:(lia) Hez) as H.
    destruct (binary_round_aux 53 1024 false (Zpos mz) ez loc_Exact);
      try contradiction; subst; split; [lia|reflexivity|lia|reflexivity].
  - destruct (shl_align p e _) as [mz ez] eqn:Hsh.
    assert (Hez : -1074 <= ez).
    { unfold shl_align in Hsh. change (fexp 53 1024) with fexp64 in Hsh.
      rewrite fexp64_eq in Hsh.
      destruct (Z.max _ _ - e) as [|k|k]; injection Hsh as <- <-; lia. }
    pose proof (binary_round_aux_nonzero true (Zpos mz) ez ltac:(lia) Hez) as H.
    destruct (binary_round_aux 53 1024 true (Zpos mz) ez loc_Exact);
      try contradiction; subst; split; [lia|reflexivity|lia|reflexivity].
Qed.

(** The sign of a difference of two doubles that are numbers. *)
Lemma dsub_sign (o p : double) :
  valid_binary 53 1024 o = true -> valid_binary 53 1024 p = true ->
  dfinite o = true -> dfinite p = true ->
  dlt double_zero (dsub o p) = dlt p o /\ dlt (dsub o p) double_zero = dlt o p.
Proof.
  intros Ho Hp Hfo Hfp.
  destruct o as [so| | |so mo eo], p as [sp| | |sp mp ep]; try discriminate.
  - destruct so, sp; split; reflexivity.
  - destruct so, sp; split; reflexivity.
  - destruct so, sp; split; reflexivity.
  - cbn [valid_binary] in Ho, Hp.
    destruct (bounded_facts mo eo Ho) as (Heo & _ & _).
    destruct (bounded_facts mp ep Hp) as (Hep & _ & _).
    unfold dlt, SFltb.
    rewrite (SFcompare_bounded sp mp ep so mo eo Hp Ho).
    rewrite (SFcompare_bounded so mo eo sp mp ep Ho Hp).
    rewrite (Z.min_comm ep eo).
    unfold dsub, b64_prec, b64_emax. cbn [SFsub]. cbv zeta.
    set (ez := Z.min eo ep).
    rewrite !shl_align_fst by (unfold ez; lia).
    set (a := cond_Zopp so (Zpos mo * 2 ^ (eo - ez))).
    set (b := cond_Zopp sp (Zpos mp * 2 ^ (ep - ez))).
    pose proof (binary_normalize_sign (a - b) ez ltac:(unfold ez; lia)) as Hs.
    destruct (binary_normalize 53 1024 (a - b) ez false) as [s|s| |s m e];
      try contradiction; destruct Hs as [HD ->]; cbn [SFcompare double_zero].
    + assert (a = b) as -> by lia. rewrite Z.compare_refl. split; reflexivity.
    + destruct (Z.ltb_spec (a - b) 0); split.
      * destruct (Z.compare_spec b a); try lia; reflexivity.
      * destruct (Z.compare_spec a b); try lia; reflexivity.
      * destruct (Z.compare_spec b a); try lia; reflexivity.
      * destruct (Z.compare_spec a b); try lia; reflexivity.
    + destruct (Z.ltb_spec (a - b) 0); split.
      * destruct (Z.compare_spec b a); try lia; reflexivity.
      * destruct (Z.compare_spec a b); try lia; reflexivity.
      * destruct (Z.compare_spec b a); try lia; reflexivity.
      * destruct (Z.compare_spec a b); try lia; reflexivity.
Qed.
End ResidualSign.

Lemma dlt_dopp (x : double) :
  dlt (dopp x) double_zero = dlt double_zero x /\
  dlt double_zero (dopp x) = dlt x double_zero.
Proof. destruct x as [[|]|[|]| |[|] m e]; split; reflexivity. Qed.

(** X20.  The residual has the sign of [observed - predicted] and the
    gradient the opposite sign, for all doubles that are numbers: the
    residual is positive exactly when the observation is above the
    prediction and negative exactly when it is below, so that no
    difference of two distinct values is rounded to zero. *)
Theorem Residuals_sign :
  forall observed predicted : double,
    valid_binary b64_prec b64_emax observed = true ->
    valid_binary b64_prec b64_emax predicted = true ->
    dfinite observed = true -> dfinite predicted = true ->
    dgt (SSELoss.Residuals observed predicted) double_zero = dgt observed predicted /\
    dlt (SSELoss.Residuals observed predicted) double_zero = dlt observed predicted /\
    dlt (SSELoss.Gradients observed predicted) double_zero = dgt observed predicted /\
    dgt (SSELoss.Gradients observed predicted) double_zero = dlt observed predicted.
Proof.
  intros o p Ho Hp Hfo Hfp.
  destruct (dsub_sign o p Ho Hp Hfo Hfp) as [Hpos Hneg].
  unfold SSELoss.Residuals, SSELoss.Gradients. rewrite dopp_involutive.
  destruct (dlt_dopp (dsub o p)) as [H1 H2].
  unfold dgt in *. fold (dlt double_zero (dsub o p)). fold (dlt p o).
  fold (dlt double_zero (dopp (dsub o p))).
  rewrite H1, H2. auto.
Qed.

Lemma Residuals_sign_witness :
  dgt (SSELoss.Residuals double_0_7 double_0_3) double_zero = dgt double_0_7 double_0_3 /\
  dlt (SSELoss.Residuals double_0_7 double_0_3) double_zero = dlt double_0_7 double_0_3 /\
  dlt (SSELoss.Gradients double_0_7 double_0_3) double_zero = dgt double_0_7 double_0_3 /\
  dgt (SSELoss.Gradients double_0_7 double_0_3) double_zero = dlt double_0_7 double_0_3.
Proof.
  exact (Residuals_sign double_0_7 double_0_3 eq_refl eq_refl eq_refl eq_refl).
Defined.
